(** * maktabkhooneh-downloader: resumable download engine and session
      acquisition, embedded from [download.mjs].

    The JavaScript source is effectful throughout (file system, network,
    a module-level cookie variable).  Every function below is the source
    function rewritten in a state-and-exception monad: the state holds the
    file system, the answers of the outside world (network, clock) and, for
    [downloadToFile], the local variables its retry loop shares between
    attempts.  A JavaScript [throw] is the [Throw] result; [try { } catch { }]
    is [try_].  Console output (log lines, the progress bar) has no effect on
    any value the program computes and is left out. *)

From Stdlib Require Import ZArith List Lia Bool ZifyBool.
From Stdlib Require Import Strings.Byte Strings.Ascii.
From stdpp Require Import base option gmap strings list.

Local Open Scope Z_scope.

(** ** A state monad with exceptions *)

Inductive Result (E A : Type) : Type :=
| Ret (a : A)
| Throw (e : E).
Arguments Ret {E A} a.
Arguments Throw {E A} e.

Definition M (S E A : Type) : Type := S -> Result E A * S.

Definition ret {S E A} (a : A) : M S E A := fun s => (Ret a, s).
Definition throw {S E A} (e : E) : M S E A := fun s => (Throw e, s).
Definition bind {S E A B} (m : M S E A) (k : A -> M S E B) : M S E B :=
  fun s => match m s with
           | (Ret a, s') => k a s'
           | (Throw e, s') => (Throw e, s')
           end.
Definition gets {S E A} (f : S -> A) : M S E A := fun s => (Ret (f s), s).
Definition modify {S E} (f : S -> S) : M S E unit := fun s => (Ret tt, f s).

(** [try { m } catch { }]: the exception is swallowed, the effects stay. *)
Definition try_ {S E A} (m : M S E A) : M S E (option A) :=
  fun s => match m s with
           | (Ret a, s') => (Ret (Some a), s')
           | (Throw _, s') => (Ret None, s')
           end.

(** [try { m } catch (e) { h e }] *)
Definition catch {S E A} (m : M S E A) (h : E -> M S E A) : M S E A :=
  fun s => match m s with
           | (Ret a, s') => (Ret a, s')
           | (Throw e, s') => h e s'
           end.

Declare Scope js_scope.
Delimit Scope js_scope with js.
Notation "'do' x <- m ; k" := (bind m (fun x => k))
  (at level 10, x pattern, m at level 100, k at level 200) : js_scope.
Notation "m ;; k" := (bind m (fun _ => k))
  (at level 100, k at level 200, right associativity) : js_scope.
Local Open Scope js_scope.

Definition size_of {A} (c : list A) : Z := Z.of_nat (length c).

(** Linear arithmetic over sizes. *)
Ltac sz := unfold size_of in *; cbn [length] in *; lia.

(** * The resumable download engine *)
Module Download.

Definition chunk := list byte.

(** ** ByteLimit (transform stream, download.mjs 674-693) *)

Record ByteLimit := mkByteLimit { limit : Z; seen : Z; _hit : bool }.

(** [constructor(limit, onLimit)] *)
Definition ByteLimit_new (lim : Z) : ByteLimit :=
  {| limit := lim; seen := 0; _hit := false |}.

(** [_transform(chunk, enc, cb)]: the bytes pushed downstream, the stream
    afterwards, and whether [this.end()] and [onLimit] were called. *)
Definition _transform (bl : ByteLimit) (c : chunk) : chunk * ByteLimit * bool :=
  if limit bl <=? 0 then (c, bl, false)
  else
    let remaining := limit bl - seen bl in
    if remaining <=? 0 then ([], bl, false)
    else
      let buf := if size_of c >? remaining then take (Z.to_nat remaining) c else c in
      let seen' := seen bl + size_of buf in
      if negb (_hit bl) && (seen' >=? limit bl)
      then (buf, {| limit := limit bl; seen := seen'; _hit := true |}, true)
      else (buf, {| limit := limit bl; seen := seen'; _hit := _hit bl |}, false).

(** The limiter fed every chunk of a body, whether or not upstream obeys the
    stop signal: everything pushed, the final stream, and whether the signal
    was raised at some chunk. *)
Fixpoint feed_all (bl : ByteLimit) (cs : list chunk) : chunk * ByteLimit * bool :=
  match cs with
  | [] => ([], bl, false)
  | c :: cs' =>
      let '(buf, bl', fired) := _transform bl c in
      let '(rest, bl'', fired') := feed_all bl' cs' in
      (buf ++ rest, bl'', fired || fired')
  end.

(** The limiter inside [pipeline(readable, counter, limiter, write)]: the
    [onLimit] callback destroys [readable], so no chunk is read after the
    signal. *)
Fixpoint feed_until_limit (bl : ByteLimit) (cs : list chunk) : chunk * ByteLimit * bool :=
  match cs with
  | [] => ([], bl, false)
  | c :: cs' =>
      let '(buf, bl', fired) := _transform bl c in
      if fired then (buf, bl', true)
      else let '(rest, bl'', fired') := feed_until_limit bl' cs' in
           (buf ++ rest, bl'', fired')
  end.

(** ** The outside world of a download *)

Inductive Method := HEAD | GET.

(** The [range] request header: absent, [bytes=N-] or [bytes=N-M]. *)
Inductive RangeHeader :=
| RangeNone
| RangeFrom (first : Z)
| RangeSpan (first last : Z).

Record Request := mkRequest {
  rq_method : Method;
  rq_url : string;
  rq_referer : string;
  rq_range : RangeHeader
}.

(** A response as the program reads it.  Header values are given after the
    program's own parsing: [content_length] is [parseInt] of the header when
    it is present and numeric, [content_range_total] the digits after the last
    slash of [content-range], [accept_ranges_bytes] whether [accept-ranges]
    mentions bytes.  The body arrives as [chunks], in the split the transport
    chose; [breaks] says the stream ends in an error (reset, timeout) after
    them instead of ending cleanly.  [flushed] belongs to the timing of the
    transfer rather than to the server: when the sample limit stops the
    transfer, the streams of the pipeline are destroyed, the write stream
    among them, and only the first [flushed] of the bytes the limiter let
    through are in the file by then (all of them when [flushed] is not less
    than their number). *)
Record Response := mkResponse {
  status : Z;
  has_body : bool;
  content_length : option Z;
  accept_ranges_bytes : bool;
  content_range_total : option Z;
  chunks : list chunk;
  breaks : bool;
  flushed : nat
}.

(** [res.ok] *)
Definition ok (r : Response) : bool := (200 <=? status r) && (status r <=? 299).

(** The remote resource descriptor [{ size, acceptRanges }]; [size] is [None]
    for [undefined] and for a header that does not parse. *)
Record RemoteInfo := mkRemoteInfo { size : option Z; acceptRanges : bool }.

Inductive FsOp :=
| OpRename (src dst : string)
| OpCopyFile (src dst : string)
| OpUnlink (p : string)
| OpMkdir (p : string)
| OpOpenWrite (p : string).

Inductive Event :=
| EvFetch (rq : Request)
| EvSleep (ms : Z).

Inductive Error :=
| ErrFetch                 (* fetch rejected: network failure or abort *)
| ErrHttp (st : Z)         (* [new Error(`HTTP ${res.status}`)] *)
| ErrRangeNotHonored       (* 'Server did not honor range; restarting from 0' *)
| ErrStream                (* the pipeline rejected *)
| ErrFs (op : FsOp).       (* a file-system call failed *)

Inductive Outcome := Exists | Downloaded | Undefined.

(** The state a download runs in.  [files] maps a path to the bytes stored
    there; [fault] tells which file-system calls the operating system refuses
    (permissions, locks); [net n rq] is the answer to request [rq] when it is
    the event number [n] of the run ([None]: the fetch rejects); [trace] is
    what was sent and slept so far.  The last three fields are the variables
    [existingFinalSize], [existingTmpSize] and [remoteInfo] that
    [downloadToFile] declares before its loop and its attempts share. *)
Record State := mkState {
  files : gmap string (list byte);
  fault : FsOp -> bool;
  net : nat -> Request -> option Response;
  trace : list Event;
  existingFinalSize : Z;
  existingTmpSize : Z;
  remoteInfo : option RemoteInfo
}.

Definition set_files (f : gmap string (list byte)) (s : State) : State :=
  mkState f (fault s) (net s) (trace s) (existingFinalSize s) (existingTmpSize s) (remoteInfo s).
Definition log (e : Event) (s : State) : State :=
  mkState (files s) (fault s) (net s) (trace s ++ [e]) (existingFinalSize s) (existingTmpSize s) (remoteInfo s).
Definition set_existingFinalSize (z : Z) (s : State) : State :=
  mkState (files s) (fault s) (net s) (trace s) z (existingTmpSize s) (remoteInfo s).
Definition set_existingTmpSize (z : Z) (s : State) : State :=
  mkState (files s) (fault s) (net s) (trace s) (existingFinalSize s) z (remoteInfo s).
Definition set_remoteInfo (r : option RemoteInfo) (s : State) : State :=
  mkState (files s) (fault s) (net s) (trace s) (existingFinalSize s) (existingTmpSize s) r.

Definition D := M State Error.

(** ** File-system and network primitives *)

(** [fs.statSync(p).size]; [None] when the call throws. *)
Definition statSync (p : string) (s : State) : option Z :=
  size_of <$> files s !! p.

Definition rename (src dst : string) : D unit := fun s =>
  if fault s (OpRename src dst) then (Throw (ErrFs (OpRename src dst)), s)
  else match files s !! src with
       | None => (Throw (ErrFs (OpRename src dst)), s)
       | Some c => (Ret tt, set_files (<[dst := c]> (delete src (files s))) s)
       end.

Definition copyFile (src dst : string) : D unit := fun s =>
  if fault s (OpCopyFile src dst) then (Throw (ErrFs (OpCopyFile src dst)), s)
  else match files s !! src with
       | None => (Throw (ErrFs (OpCopyFile src dst)), s)
       | Some c => (Ret tt, set_files (<[dst := c]> (files s)) s)
       end.

Definition unlink (p : string) : D unit := fun s =>
  if fault s (OpUnlink p) then (Throw (ErrFs (OpUnlink p)), s)
  else match files s !! p with
       | None => (Throw (ErrFs (OpUnlink p)), s)
       | Some _ => (Ret tt, set_files (delete p (files s)) s)
       end.

(** [fs.promises.mkdir(path.dirname(p), { recursive: true })]; directories
    are not part of [files], only the refusal is. *)
Definition mkdir_parent (p : string) : D unit := fun s =>
  if fault s (OpMkdir p) then (Throw (ErrFs (OpMkdir p)), s) else (Ret tt, s).

(** [fs.createWriteStream(p, { flags })]: flag [w] truncates or creates,
    flag [a] creates when missing and keeps what is there. *)
Definition createWriteStream (p : string) (truncate : bool) : D unit := fun s =>
  if fault s (OpOpenWrite p) then (Throw (ErrFs (OpOpenWrite p)), s)
  else
    let old := if truncate then [] else default [] (files s !! p) in
    (Ret tt, set_files (<[p := old]> (files s)) s).

(** Bytes reaching the write stream are appended to the file. *)
Definition write (p : string) (data : list byte) : D unit :=
  modify (fun s => set_files (<[p := default [] (files s !! p) ++ data]> (files s)) s).

(** [fetch(url, init)] and [fetchWithTimeout]: the request is sent, the world
    answers or the promise rejects. *)
Definition fetch (rq : Request) : D Response := fun s =>
  match net s (length (trace s)) rq with
  | Some r => (Ret r, log (EvFetch rq) s)
  | None => (Throw ErrFetch, log (EvFetch rq) s)
  end.

(** [sleep(ms)] *)
Definition sleep (ms : Z) : D unit := modify (log (EvSleep ms)).

(** ** getRemoteSizeAndRanges (download.mjs 237-261) *)

(** The HEAD probe of the first [try] block: [Some] when it returns. *)
Definition probe_head (url referer : string) : D (option RemoteInfo) :=
  do r <- try_ (fetch (mkRequest HEAD url referer RangeNone));
  match r with
  | Some res =>
      if ok res
      then ret (Some {| size := content_length res; acceptRanges := accept_ranges_bytes res |})
      else ret None
  | None => ret None
  end.

(** The single-byte ranged GET of the second [try] block. *)
Definition probe_get (url referer : string) : D (option RemoteInfo) :=
  do r <- try_ (fetch (mkRequest GET url referer (RangeSpan 0 0)));
  match r with
  | Some res =>
      if status res =? 206
      then ret (Some {| size := content_range_total res; acceptRanges := true |})
      else ret None
  | None => ret None
  end.

Definition getRemoteSizeAndRanges (url referer : string) : D RemoteInfo :=
  do h <- probe_head url referer;
  match h with
  | Some ri => ret ri
  | None =>
      do g <- probe_get url referer;
      match g with
      | Some ri => ret ri
      | None => ret {| size := None; acceptRanges := false |}
      end
  end.

(** ** downloadToFile (download.mjs 697-866) *)

Definition tmpPath (filePath : string) : string := filePath +:+ ".part".

(** JavaScript truthiness of [remoteInfo.size]: a number other than 0. *)
Definition size_known (sz : option Z) : bool :=
  match sz with Some z => negb (z =? 0) | None => false end.

(** [existingFinalSize >= remoteInfo.size], false when the size is undefined. *)
Definition size_reached (localSize : Z) (sz : option Z) : bool :=
  match sz with Some z => localSize >=? z | None => false end.

(** Lines 716-735: decide the resume offset of this attempt. *)
Definition decide_resumeOffset (url filePath referer : string) (sampleBytes : Z) : D Z :=
  if sampleBytes >? 0 then ret 0
  else
    do ets <- gets existingTmpSize;
    if ets >? 0 then ret ets
    else
      do efs <- gets existingFinalSize;
      if efs >? 0 then
        do known <- gets remoteInfo;
        do ri <- match known with
                 | Some ri => ret ri
                 | None =>
                     do ri <- getRemoteSizeAndRanges url referer;
                     modify (set_remoteInfo (Some ri));;
                     ret ri
                 end;
        if acceptRanges ri then
          do moved <- try_ (rename filePath (tmpPath filePath));
          match moved with
          | Some _ =>
              modify (set_existingTmpSize efs);;
              modify (set_existingFinalSize 0);;
              ret efs
          | None => ret 0
          end
        else ret 0
      else ret 0.

(** Lines 737-742: the [range] header of the GET. *)
Definition range_header (sampleBytes resumeOffset : Z) : RangeHeader :=
  if sampleBytes >? 0 then RangeSpan 0 (Z.max 0 (sampleBytes - 1))
  else if resumeOffset >? 0 then RangeFrom resumeOffset
  else RangeNone.

(** Lines 848-854 and, word for word, 832-838: rename the partial file to
    the destination, fall back to a copy, unlink the partial file, report
    [downloaded]. *)
Definition finalize (filePath : string) : D Outcome :=
  do renamed <- try_ (rename (tmpPath filePath) filePath);
  match renamed with
  | Some _ => ret tt
  | None => do _ <- try_ (copyFile (tmpPath filePath) filePath); ret tt
  end;;
  do _ <- try_ (unlink (tmpPath filePath));
  ret Downloaded.

(** Lines 816-843, [await pipeline(...)] inside its [try]: what reaches the
    write stream is appended to the partial file; the promise rejects when
    the body stream breaks or when the limiter destroyed the source
    ([byteLimitReached] is the flag its callback sets).  [Some o] means the
    [catch] block returned [o] from [downloadToFile]; [None] means control
    goes on after the [try].

    The callback of the limiter (lines 819-823) destroys the source with an
    error in the same call that lets the last bytes through; [pipeline] then
    destroys every stream, the write stream too, and what that stream had not
    yet put into the file is lost: the file receives the first [flushed res]
    bytes of what the limiter let through.  A body that ends or breaks by
    itself does so after its chunks were handed on, and they are taken as
    written.  A write error in the middle of a body is not modelled; a
    refused open fails the attempt before any byte flows
    ([createWriteStream] in [transfer]). *)
Definition pipeline (filePath : string) (sampleBytes : Z) (res : Response) : D (option Outcome) :=
  if sampleBytes >? 0 then
    let '(out, _, byteLimitReached) := feed_until_limit (ByteLimit_new sampleBytes) (chunks res) in
    catch
      (write (tmpPath filePath) (if byteLimitReached then take (flushed res) out else out);;
       if byteLimitReached || breaks res then throw ErrStream else ret None)
      (fun pipeErr =>
         if byteLimitReached
         then do o <- finalize filePath; ret (Some o)
         else throw pipeErr)
  else
    write (tmpPath filePath) (concat (chunks res));;
    if breaks res then throw ErrStream else ret None.

(** Lines 737-854: the request, the range check, the transfer and the
    finalization of one attempt, given its resume offset. *)
Definition transfer (url filePath referer : string) (sampleBytes resumeOffset : Z) : D Outcome :=
  do res <- fetch (mkRequest GET url referer (range_header sampleBytes resumeOffset));
  if negb (ok res) || negb (has_body res) then throw (ErrHttp (status res))
  else if (resumeOffset >? 0) && negb (status res =? 206) then
    do _ <- try_ (unlink (tmpPath filePath));
    modify (set_existingTmpSize 0);;
    throw ErrRangeNotHonored
  else
    mkdir_parent filePath;;
    createWriteStream (tmpPath filePath) ((sampleBytes >? 0) || (resumeOffset =? 0));;
    do early <- pipeline filePath sampleBytes res;
    match early with
    | Some o => ret o
    | None => finalize filePath
    end.

(** The body of the [try] of one loop iteration. *)
Definition attempt_body (url filePath referer : string) (sampleBytes : Z) : D Outcome :=
  do resumeOffset <- decide_resumeOffset url filePath referer sampleBytes;
  transfer url filePath referer sampleBytes resumeOffset.

(** [for (let attempt = 1; attempt <= maxRetries; attempt++)] with its
    [catch]; [fuel] counts the iterations left. *)
Fixpoint attempts (fuel : nat) (attempt maxRetries : Z)
    (url filePath referer : string) (sampleBytes : Z) : D Outcome :=
  match fuel with
  | O => ret Undefined
  | S fuel' =>
      catch (attempt_body url filePath referer sampleBytes)
        (fun err =>
           if attempt <? maxRetries then
             sleep (1000 * attempt);;
             attempts fuel' (attempt + 1) maxRetries url filePath referer sampleBytes
           else throw err)
  end.

Definition downloadToFile (url filePath referer : string) (maxRetries sampleBytes : Z) : D Outcome :=
  do st <- gets (statSync filePath);
  let existingFinalSize0 := default 0 st in
  if (existingFinalSize0 >? 0) && (sampleBytes >? 0) then ret Exists
  else
    modify (set_existingFinalSize existingFinalSize0);;
    do st' <- gets (statSync (tmpPath filePath));
    modify (set_existingTmpSize (default 0 st'));;
    modify (set_remoteInfo None);;
    do done <- (if (sampleBytes =? 0) && (existingFinalSize0 >? 0) then
                  do ri <- getRemoteSizeAndRanges url referer;
                  modify (set_remoteInfo (Some ri));;
                  ret (size_known (size ri) && size_reached existingFinalSize0 (size ri))
                else ret false);
    if done : bool then ret Exists
    else attempts (Z.to_nat maxRetries) 1 maxRetries url filePath referer sampleBytes.

(** ** States and predicates used by the statements *)

(** What holds of a limiter between two chunks. *)
Definition limiter_ok (bl : ByteLimit) : Prop :=
  0 < limit bl /\ 0 <= seen bl <= limit bl /\ _hit bl = (seen bl >=? limit bl).

(** What the pipeline of a sampling transfer puts into the file: the first
    [L] bytes of the body, cut to what was flushed when the limit stopped the
    transfer. *)
Definition sampled (L : Z) (res : Response) : list byte :=
  let body := take (Z.to_nat L) (concat (chunks res)) in
  if size_of (concat (chunks res)) >=? L then take (flushed res) body else body.

(** The partial file after the transfer of one attempt: what the write
    stream found there (nothing under flag [w]) followed by what the
    pipeline put into it. *)
Definition written (s : State) (filePath : string) (sampleBytes off : Z)
    (res : Response) : list byte :=
  (if (sampleBytes >? 0) || (off =? 0) then []
   else default [] (files s !! tmpPath filePath))
  ++ (if sampleBytes >? 0 then sampled sampleBytes res
      else concat (chunks res)).

Definition after_transfer (s : State) (url filePath referer : string)
    (sampleBytes off : Z) (res : Response) : State :=
  set_files (<[tmpPath filePath := written s filePath sampleBytes off res]> (files s))
    (log (EvFetch (mkRequest GET url referer (range_header sampleBytes off))) s).

(** The variables of [downloadToFile] when its loop starts and the
    destination holds no completed file. *)
Definition at_loop_start (s : State) (filePath : string) : State :=
  set_remoteInfo None
    (set_existingTmpSize (default 0 (statSync (tmpPath filePath) s))
       (set_existingFinalSize 0 s)).

(** The state after lines 748-754: the request is in the trace, the partial
    file is unlinked unless the system refuses, [existingTmpSize] is 0. *)
Definition after_range_refusal (s : State) (url filePath referer : string)
    (off : Z) : State :=
  set_existingTmpSize 0
    (set_files (if fault s (OpUnlink (tmpPath filePath)) then files s
                else delete (tmpPath filePath) (files s))
       (log (EvFetch (mkRequest GET url referer (RangeFrom off))) s)).

Definition with_locals (efs ets : Z) (ri : option RemoteInfo) (s : State) : State :=
  mkState (files s) (fault s) (net s) (trace s) efs ets ri.

Definition head_request (url referer : string) : Request :=
  mkRequest HEAD url referer RangeNone.
Definition probe_request (url referer : string) : Request :=
  mkRequest GET url referer (RangeSpan 0 0).

(** The remote resource is [data]: every successful answer carries a body
    that is a prefix of [data], in whatever chunks, and a body that ends
    cleanly is either all of [data] (the range header was ignored) or its
    first [L] bytes (the range header was honoured). *)
Definition serves (nt : nat -> Request -> option Response) (L : Z) (data : list byte) : Prop :=
  forall n rq res,
    nt n rq = Some res -> ok res = true -> has_body res = true ->
    concat (chunks res) `prefix_of` data
    /\ (breaks res = false ->
        concat (chunks res) = data \/ concat (chunks res) = take (Z.to_nat L) data).

(** What a sampling download is seen to leave at the destination: a prefix
    of the first [L] bytes of the resource, all of the resource when that is
    shorter than [L]. *)
Definition sample_of (L : Z) (data : list byte) (c : list byte) : Prop :=
  c `prefix_of` take (Z.to_nat L) data /\ (size_of data < L -> c = data).

(** ** Example worlds *)

Definition b1 : byte := x01.
Definition b2 : byte := x02.
Definition b3 : byte := x03.
Definition b4 : byte := x04.
Definition b5 : byte := x05.
Definition b6 : byte := x06.

(** A six-byte remote resource. *)
Definition resource : list byte := [b1; b2; b3; b4; b5; b6].

Definition no_refusals : FsOp -> bool := fun _ => false.

(** The whole resource with status 200, in three chunks. *)
Definition whole_body : Response :=
  mkResponse 200 true (Some 6) false None [[b1; b2]; [b3; b4]; [b5; b6]] false 0.

(** A server that ignores range headers and always sends the whole resource;
    nothing on disk. *)
Definition plain_world : State :=
  mkState ∅ no_refusals (fun _ _ => Some whole_body) [] 0 0 None.


(** A partial file of two bytes, recorded in [existingTmpSize], and a server
    that answers 200 with the whole resource to the ranged request. *)
Definition ignoring_world : State :=
  mkState {[ "f.part" := [b1; b2] ]} no_refusals (fun _ _ => Some whole_body) [] 0 2 None.

(** A complete three-byte file; HEAD answers 200 with content-length 3. *)
Definition head_answer : Response := mkResponse 200 false (Some 3) true None [] false 0.
Definition complete_world : State :=
  mkState {[ "f" := [b1; b2; b3] ]} no_refusals (fun _ _ => Some head_answer) [] 0 0 None.

(** A complete three-byte file; HEAD is answered 405, the single-byte probe
    206 with [content-range: bytes 0-0/3]. *)
Definition head_refused_world : State :=
  mkState {[ "f" := [b1; b2; b3] ]} no_refusals
    (fun _ rq => match rq_method rq with
                 | HEAD => Some (mkResponse 405 false None false None [] false 0)
                 | GET => Some (mkResponse 206 true (Some 1) false (Some 3) [[b1]] false 0)
                 end)
    [] 0 0 None.

(** A two-byte file; HEAD answers 200 with content-length 0, GET sends the
    whole resource. *)
Definition zero_length_world : State :=
  mkState {[ "f" := [b1; b2] ]} no_refusals
    (fun _ rq => match rq_method rq with
                 | HEAD => Some (mkResponse 200 false (Some 0) false None [] false 0)
                 | GET => Some whole_body
                 end)
    [] 0 0 None.

(** A partial file of two bytes and a server that answers every request
    with status 500. *)
Definition failing_world : State :=
  mkState {[ "f.part" := [b1; b2] ]} no_refusals
    (fun _ _ => Some (mkResponse 500 true None false None [] false 0)) [] 0 0 None.

(** A one-byte destination file next to a two-byte partial file; HEAD
    advertises byte ranges and six bytes, every GET is answered 200 with the
    whole resource. *)
Definition both_files_world : State :=
  mkState {[ "f" := [b1]; "f.part" := [b1; b2] ]} no_refusals
    (fun _ rq => match rq_method rq with
                 | HEAD => Some (mkResponse 200 false (Some 6) true None [] false 0)
                 | GET => Some whole_body
                 end)
    [] 0 0 None.

(** A partial file holding the first two bytes of the resource and a server
    that honours ranges: bytes [first..] of the resource with status 206.
    The first answer breaks after one byte. *)
Definition ranged (cs : list chunk) (brk : bool) : Response :=
  mkResponse 206 true None true (Some 6) cs brk 0.
Definition flaky_world : State :=
  mkState {[ "f.part" := [b1; b2] ]} no_refusals
    (fun n rq =>
       match rq_range rq with
       | RangeFrom first =>
           match n with
           | O => Some (ranged [take 1 (drop (Z.to_nat first) resource)] true)
           | _ => Some (ranged [drop (Z.to_nat first) resource] false)
           end
       | _ => Some whole_body
       end)
    [] 0 0 None.

(** Nothing on disk; the first answer breaks after two bytes, the later ones
    are complete. *)
Definition restart_world : State :=
  mkState ∅ no_refusals
    (fun n _ =>
       match n with
       | O => Some (mkResponse 200 true (Some 6) true None [[b1; b2]] true 0)
       | _ => Some whole_body
       end)
    [] 0 0 None.


(** A server that honours the range of a sampling request for three bytes:
    status 206 and the first three bytes of the resource, in the chunks [cs];
    [n] of them are in the file when the limit stops the transfer.  Nothing
    on disk. *)
Definition sample_answer (cs : list chunk) (n : nat) : Response :=
  mkResponse 206 true (Some 3) true (Some 6) cs false n.
Definition sampling_world (cs : list chunk) (n : nat) : State :=
  mkState ∅ no_refusals (fun _ _ => Some (sample_answer cs n)) [] 0 0 None.


(** ** Further states and predicates *)

(** What a run in which every attempt fails at the request leaves in the
    trace: the same GET once per attempt, with a sleep of [1000 * attempt]
    milliseconds after each attempt but the last. *)
Fixpoint backoff_trace (rq : Request) (fuel : nat) (attempt : Z) : list Event :=
  match fuel with
  | O => []
  | S O => [EvFetch rq]
  | S fuel' => EvFetch rq :: EvSleep (1000 * attempt) :: backoff_trace rq fuel' (attempt + 1)
  end.

(** No answer passes the check of line 747: the fetch rejects, the status is
    not a success or the body is missing. *)
Definition never_answers (nt : nat -> Request -> option Response) : Prop :=
  forall n rq res, nt n rq = Some res -> ok res && has_body res = false.

(** The error of an attempt that gets no usable answer: the rejection of the
    fetch, or [HTTP <status>] of line 747. *)
Definition failure_of (answer : option Response) : Error :=
  match answer with
  | None => ErrFetch
  | Some res => ErrHttp (status res)
  end.

(** Two states hold the same bytes at every path but the destination and its
    partial file. *)
Definition same_elsewhere (filePath : string) (s s' : State) : Prop :=
  forall p, p <> filePath -> p <> tmpPath filePath -> files s' !! p = files s !! p.

(** A computation that changes no file but the destination and its partial
    file, whatever its result. *)
Definition keeps_elsewhere {A} (filePath : string) (m : D A) : Prop :=
  forall s, same_elsewhere filePath s (snd (m s)).

(** ** The progress line (download.mjs 761-789) *)

(** [expectedTotal]: the sample limit, else the total of [content-range],
    else the content length, moved by the offset when resuming.  The two
    header values are given after parsing, [None] for a missing header or one
    that does not parse. *)
Definition expectedTotal (sampleBytes resumeOffset : Z)
    (contentRangeTotal fullLength : option Z) : option Z :=
  if sampleBytes >? 0 then Some sampleBytes
  else match contentRangeTotal with
       | Some total => Some total
       | None =>
           match fullLength with
           | Some len =>
               if negb (len =? 0) && (resumeOffset >? 0) then Some (resumeOffset + len)
               else Some len
           | None => None
           end
       end.

(** [shownDownloaded] in [render(final)]. *)
Definition shownDownloaded (final : bool) (downloadedBytes : Z) (expected : option Z) : Z :=
  match expected with
  | Some total =>
      if negb (total =? 0) && (final || (downloadedBytes >? total)) then
        if downloadedBytes - total <=? 65536 then total else downloadedBytes
      else downloadedBytes
  | None => downloadedBytes
  end.

(** A server that answers nothing useful to the probe: HEAD is answered 403,
    the ranged GET 200. *)
Definition opaque_world : State :=
  mkState ∅ no_refusals
    (fun _ rq => match rq_method rq with
                 | HEAD => Some (mkResponse 403 false None true None [] false 0)
                 | GET => Some whole_body
                 end)
    [] 0 0 None.

(** A partial file with the first two bytes of the resource, next to an
    unrelated file; the server honours ranges. *)
Definition resume_world : State :=
  mkState {[ "f.part" := [b1; b2]; "notes.txt" := [b6] ]} no_refusals
    (fun _ rq =>
       match rq_range rq with
       | RangeFrom first => Some (ranged [drop (Z.to_nat first) resource] false)
       | _ => Some whole_body
       end)
    [] 0 0 None.

(** A server that cannot be reached; a partial file of two bytes. *)
Definition dead_world : State :=
  mkState {[ "f.part" := [b1; b2] ]} no_refusals (fun _ _ => None) [] 0 0 None.

(** A server that cannot be reached for the first two requests and answers
    the third with status 503; a partial file of two bytes. *)
Definition worsening_world : State :=
  mkState {[ "f.part" := [b1; b2] ]} no_refusals
    (fun n _ => if (n <? 4)%nat then None
                else Some (mkResponse 503 true None false None [] false 0))
    [] 0 0 None.

(** A completed file of three bytes at the start of an attempt, with the
    probe already made: the server supports ranges and the resource has six
    bytes. *)
Definition stalled_world : State :=
  mkState {[ "f" := [b1; b2; b3] ]} no_refusals
    (fun _ rq =>
       match rq_range rq with
       | RangeFrom first => Some (ranged [drop (Z.to_nat first) resource] false)
       | _ => Some whole_body
       end)
    [] 3 0 (Some {| size := Some 6; acceptRanges := true |}).

(** The same file and a server known not to support ranges. *)
Definition rangeless_world : State :=
  mkState {[ "f" := [b1; b2; b3] ]} no_refusals (fun _ _ => Some whole_body)
    [] 3 0 (Some {| size := Some 6; acceptRanges := false |}).

End Download.

(** * Session acquisition *)
Module Session.

(** ** JavaScript values *)

(** The values [JSON.parse] produces, and [undefined].  An object keeps its
    properties as a list, in the order [JSON.stringify] prints them, with one
    entry per name. *)
#[local] Set Warnings "-register-all".
Inductive JValue :=
| JUndefined
| JNull
| JBool (b : bool)
| JNum (z : Z)
| JStr (s : string)
| JArr (l : list JValue)
| JObj (fields : list (string * JValue)).

(** Truthiness: what [if (v)], [!v], [a || b] and [a && b] test. *)
Definition truthy (v : JValue) : bool :=
  match v with
  | JUndefined | JNull => false
  | JBool b => b
  | JNum z => negb (z =? 0)
  | JStr s => negb (String.eqb s "")
  | JArr _ | JObj _ => true
  end.

(** [a || b] *)
Definition js_or (a b : JValue) : JValue := if truthy a then a else b.

(** [v === 'text'] *)
Definition is_string (v : JValue) (text : string) : bool :=
  match v with JStr s => String.eqb s text | _ => false end.

Fixpoint assoc_get (k : string) (fields : list (string * JValue)) : JValue :=
  match fields with
  | [] => JUndefined
  | (k', v) :: rest => if String.eqb k k' then v else assoc_get k rest
  end.

Fixpoint assoc_set (k : string) (v : JValue) (fields : list (string * JValue))
    : list (string * JValue) :=
  match fields with
  | [] => [(k, v)]
  | (k', v') :: rest =>
      if String.eqb k k' then (k, v) :: rest else (k', v') :: assoc_set k v rest
  end.

(** [v.k] and [v?.k] on a value that is not null or undefined, and [v?.k] on
    any value: the own property of a parsed object, [undefined] otherwise.
    Properties that arrays, strings and prototypes carry are not modelled. *)
Definition js_get (v : JValue) (k : string) : JValue :=
  match v with
  | JObj fields => assoc_get k fields
  | _ => JUndefined
  end.

(** Whether an object has a property of its own named [k]. *)
Definition has_own (k : string) (fields : list (string * JValue)) : bool :=
  existsb (fun kv => String.eqb k (fst kv)) fields.

Definition is_digit (a : ascii) : bool :=
  let n := Ascii.N_of_ascii a in ((48 <=? n) && (n <=? 57))%N.

(** The number a string of decimal digits denotes; [None] when another
    character occurs. *)
Fixpoint digits_value (s : string) (acc : N) : option N :=
  match s with
  | EmptyString => Some acc
  | String a rest =>
      if is_digit a then digits_value rest (10 * acc + (Ascii.N_of_ascii a - 48))%N
      else None
  end.

(** A property name that is an array index: decimal digits with no leading
    zero, denoting a number below 2^32 - 1. *)
Definition array_index (k : string) : option nat :=
  match k with
  | EmptyString => None
  | String a rest =>
      if negb (Ascii.eqb a "0") || String.eqb rest "" then
        match digits_value k 0 with
        | Some n => if (n <? 4294967295)%N then Some (N.to_nat n) else None
        | None => None
        end
      else None
  end.

(** [l[i] = v]: the element is replaced, or the array grows to hold it, the
    places in between being holes, which read as [undefined]. *)
Definition set_element (i : nat) (v : JValue) (l : list JValue) : list JValue :=
  if (i <? length l)%nat then <[i := v]> l
  else l ++ repeat JUndefined (i - length l) ++ [v].

(** The place of a new property whose name is the array index [i]: names
    that are array indices come first, in ascending order, and the other
    names follow in the order of their creation; this is the order in which
    [JSON.stringify] prints them. *)
Fixpoint insert_index (i : nat) (k : string) (v : JValue)
    (fields : list (string * JValue)) : list (string * JValue) :=
  match fields with
  | [] => [(k, v)]
  | (k', v') :: rest =>
      match array_index k' with
      | Some j => if (j <? i)%nat then (k', v') :: insert_index i k v rest
                  else (k, v) :: fields
      | None => (k, v) :: fields
      end
  end.

(** [o[k] = v] on the properties of an object: a property that is there gets
    the value and keeps its place, a new one takes the place its name has. *)
Definition obj_set (k : string) (v : JValue) (fields : list (string * JValue))
    : list (string * JValue) :=
  match (if has_own k fields then None else array_index k) with
  | Some i => insert_index i k v fields
  | None => assoc_set k v fields
  end.

(** How an assignment to a property ends. *)
Inductive Assignment :=
| Assigned (o : JValue)      (* the receiver afterwards *)
| ThrowsTypeError
| ThrowsRangeError.

(** [o[k] = { ... }] in a module (strict mode), for a value that is an
    object literal with the properties [literal], as on line 391.
    - On an object the property is set.  The name [__proto__] is special
      unless the object has a property of its own with that name: the
      assignment then goes to the setter of [Object.prototype], which changes
      the prototype and stores no property, so what [JSON.stringify] prints
      stays the same.
    - On an array an index sets an element; the name [length] throws a
      RangeError, since an object literal converts to no valid length; any
      other name (also [__proto__]) leaves the elements, and so what
      [JSON.stringify] prints, unchanged.
    - On anything else the assignment throws a TypeError. *)
Definition js_set (o : JValue) (k : string) (literal : list (string * JValue))
    : Assignment :=
  match o with
  | JObj fields =>
      if String.eqb k "__proto__" && negb (has_own "__proto__" fields)
      then Assigned (JObj fields)
      else Assigned (JObj (obj_set k (JObj literal) fields))
  | JArr l =>
      if String.eqb k "length" then ThrowsRangeError
      else match array_index k with
           | Some i => Assigned (JArr (set_element i (JObj literal) l))
           | None => Assigned (JArr l)
           end
  | _ => ThrowsTypeError
  end.

(** [o.k = v] for a constant name [k] on a value that holds properties of
    its own; other values are left as they are. *)
Definition js_put (o : JValue) (k : string) (v : JValue) : JValue :=
  match o with
  | JObj fields => JObj (assoc_set k v fields)
  | _ => o
  end.

(** [typeof v.slice === 'function'] *)
Definition has_slice (v : JValue) : bool :=
  match v with JStr _ | JArr _ => true | _ => false end.

(** What the language runtime provides.  [converts] tells whether the
    conversion of an object or an array to a string returns: it throws a
    TypeError for an object whose [toString] is not a function, such as the
    parsed [{"toString": 0}].  [trim] and [toLowerCase] are the methods of
    [String.prototype]. *)
Class Runtime := {
  JSON_parse : string -> option JValue;   (* [None]: SyntaxError *)
  JSON_stringify : JValue -> string;
  ToString : JValue -> string;            (* string conversion of a non-string *)
  converts : JValue -> bool;
  trim : string -> string;
  toLowerCase : string -> string
}.

(** ** Strings *)

Definition is_space (a : ascii) : bool :=
  let n := Ascii.N_of_ascii a in
  ((n =? 32) || ((9 <=? n) && (n <=? 13)))%N.

Fixpoint trim_start (s : string) : string :=
  match s with
  | EmptyString => EmptyString
  | String a rest => if is_space a then trim_start rest else s
  end.

Fixpoint trim_end (s : string) : string :=
  match s with
  | EmptyString => EmptyString
  | String a rest =>
      match trim_end rest with
      | EmptyString => if is_space a then EmptyString else String a EmptyString
      | rest' => String a rest'
      end
  end.

(** [s.trim()] for a string whose white space is ASCII. *)
Definition ascii_trim (s : string) : string := trim_end (trim_start s).

Definition lower (a : ascii) : ascii :=
  let n := Ascii.N_of_ascii a in
  if ((65 <=? n) && (n <=? 90))%N then Ascii.ascii_of_N (n + 32) else a.

(** [s.toLowerCase()] for a string whose letters are ASCII. *)
Fixpoint ascii_toLowerCase (s : string) : string :=
  match s with
  | EmptyString => EmptyString
  | String a rest => String (lower a) (ascii_toLowerCase rest)
  end.

(** [s.split(c)[0]] *)
Fixpoint before (c : ascii) (s : string) : string :=
  match s with
  | EmptyString => EmptyString
  | String a rest => if Ascii.eqb a c then EmptyString else String a (before c rest)
  end.

(** [s.indexOf(c)] with the two slices around it: [None] for -1, otherwise
    [(s.slice(0, i), s.slice(i + 1))]. *)
Fixpoint cut_at (c : ascii) (s : string) : option (string * string) :=
  match s with
  | EmptyString => None
  | String a rest =>
      if Ascii.eqb a c then Some (EmptyString, rest)
      else match cut_at c rest with
           | Some (l, r) => Some (String a l, r)
           | None => None
           end
  end.

(** The value of a form field. *)
Fixpoint assoc_get_text (k : string) (fields : list (string * string)) : string :=
  match fields with
  | [] => ""
  | (k', v) :: rest => if String.eqb k k' then v else assoc_get_text k rest
  end.

(** ** SimpleCookieStore (download.mjs 419-433) *)

(** A [Map] from names to values; the list keeps the insertion order, which
    [headerString] follows. *)
Definition CookieStore := list (string * string).

(** [this.map.set(k, v)] *)
Fixpoint map_set (k v : string) (m : CookieStore) : CookieStore :=
  match m with
  | [] => [(k, v)]
  | (k', v') :: rest =>
      if String.eqb k k' then (k, v) :: rest else (k', v') :: map_set k v rest
  end.

(** [get(name)] *)
Fixpoint get (name : string) (m : CookieStore) : option string :=
  match m with
  | [] => None
  | (k, v) :: rest => if String.eqb name k then Some v else get name rest
  end.

Definition setCookieLine `{Runtime} (line : string) (m : CookieStore) : CookieStore :=
  if String.eqb line "" then m
  else
    let seg := before ";"%char line in
    match cut_at "="%char seg with
    | None => m
    | Some (l, r) =>
        let k := trim l in
        let v := trim r in
        if String.eqb k "" then m else map_set k v m
    end.

(** [applySetCookie(arr)]; a missing header is the empty list. *)
Definition applySetCookie `{Runtime} (arr : list string) (m : CookieStore)
    : CookieStore :=
  fold_left (fun acc l => setCookieLine l acc) arr m.

Fixpoint join (sep : string) (parts : list string) : string :=
  match parts with
  | [] => ""
  | [x] => x
  | x :: rest => x +:+ sep +:+ join sep rest
  end.

Definition headerString (m : CookieStore) : string :=
  join "; " (map (fun kv => fst kv +:+ "=" +:+ snd kv) m).

(** [store.get(name) || null] *)
Definition get_or_null (name : string) (m : CookieStore) : JValue :=
  match get name m with
  | Some v => js_or (JStr v) JNull
  | None => JNull
  end.

(** ** The outside world of session acquisition *)

Definition ORIGIN : string := "https://maktabkhooneh.org".
Definition PLACEHOLDER : string := "PUT_YOUR_COOKIE_HERE".

Inductive HttpMethod := HttpGet | HttpPost.

(** A request of [rawRequest]: the [Cookie] and [X-CSRFToken] headers when
    they are set and the form fields of the body before URL encoding. *)
Record RawRequest := mkRaw {
  rr_method : HttpMethod;
  rr_url : string;
  rr_cookie : option string;
  rr_csrf : option JValue;
  rr_form : list (string * string)
}.

(** What [rawRequest] resolves to; [set_cookie] is [headers['set-cookie']]. *)
Record RawResponse := mkRawResponse {
  raw_status : Z;
  set_cookie : list string;
  raw_body : string
}.

Inductive FileOp := OpRead (p : string) | OpWrite (p : string).

Inductive Event :=
| EvCoreData (cookie : option JValue) (referer : string)
| EvRaw (rq : RawRequest)
| EvReadFile (p : string)
| EvWriteFile (p : string) (text : string).

Inductive Error :=
| ErrCredentialsRequired                 (* 'Email & password required for login' *)
| ErrNetwork                             (* a request rejected *)
| ErrCoreData                            (* fetchCoreData threw *)
| ErrTypeError
| ErrRangeError
| ErrCsrfUnavailable                     (* 'Cannot obtain CSRF token' *)
| ErrCheckInvalidJson (status : Z)       (* 'check-active-user invalid JSON status=' *)
| ErrCheckFailed (status message : JValue)  (* 'check-active-user failed status= message=' *)
| ErrUnsupportedFlow (message : JValue)  (* 'Unsupported flow (expected get-pass, got ' *)
| ErrLoginInvalidJson (status : Z)       (* 'login-authentication invalid JSON status=' *)
| ErrLoginFailed (message : JValue)      (* 'login-authentication failed message=' *)
| ErrSessionCookieMissing                (* 'Session cookie missing after login' *)
| ErrIo (op : FileOp).

(** The kinds of authentication error the specification names. *)
Inductive AuthKind := csrf_unavailable | precheck_failed | login_rejected | no_session_cookie.

Definition kind_of (e : Error) : option AuthKind :=
  match e with
  | ErrCsrfUnavailable => Some csrf_unavailable
  | ErrCheckInvalidJson _ | ErrCheckFailed _ _ | ErrUnsupportedFlow _ => Some precheck_failed
  | ErrLoginInvalidJson _ | ErrLoginFailed _ => Some login_rejected
  | ErrSessionCookieMissing => Some no_session_cookie
  | _ => None
  end.

(** The state of a run.  [ACTIVE_COOKIE] is the module variable of that
    name.  [files] holds the text files; [refused] the file operations the
    system refuses; [core_data n cookie referer] is the parsed body
    [fetchCoreData] returns when it is event [n] ([None]: it throws);
    [raw n rq] what [rawRequest] resolves to ([None]: it rejects); [clock n]
    is [new Date().toISOString()] at event [n]. *)
Record State := mkState {
  ACTIVE_COOKIE : JValue;
  files : gmap string string;
  refused : FileOp -> bool;
  core_data : nat -> option JValue -> string -> option JValue;
  raw : nat -> RawRequest -> option RawResponse;
  clock : nat -> string;
  trace : list Event
}.

Definition set_ACTIVE_COOKIE (v : JValue) (s : State) : State :=
  mkState v (files s) (refused s) (core_data s) (raw s) (clock s) (trace s).
Definition set_files (f : gmap string string) (s : State) : State :=
  mkState (ACTIVE_COOKIE s) f (refused s) (core_data s) (raw s) (clock s) (trace s).
Definition log (e : Event) (s : State) : State :=
  mkState (ACTIVE_COOKIE s) (files s) (refused s) (core_data s) (raw s) (clock s)
    (trace s ++ [e]).

Definition SM := M State Error.

(** [fs.promises.readFile(file, 'utf8')] *)
Definition readFile (file : string) : SM string := fun s =>
  let s' := log (EvReadFile file) s in
  if refused s (OpRead file) then (Throw (ErrIo (OpRead file)), s')
  else match files s !! file with
       | Some text => (Ret text, s')
       | None => (Throw (ErrIo (OpRead file)), s')
       end.

(** [fs.promises.writeFile(file, text, 'utf8')] *)
Definition writeFile (file text : string) : SM unit := fun s =>
  let s' := log (EvWriteFile file text) s in
  if refused s (OpWrite file) then (Throw (ErrIo (OpWrite file)), s')
  else (Ret tt, set_files (<[file := text]> (files s)) s').

(** [new Date().toISOString()] *)
Definition now : SM string := fun s => (Ret (clock s (length (trace s))), s).

(** [rawRequest(url, options)] (download.mjs 435-460) *)
Definition rawRequest (rq : RawRequest) : SM RawResponse := fun s =>
  match raw s (length (trace s)) rq with
  | Some r => (Ret r, log (EvRaw rq) s)
  | None => (Throw ErrNetwork, log (EvRaw rq) s)
  end.

(** The [cookie] header [commonHeaders] sets (download.mjs 85-86). *)
Definition cookie_header (COOKIE : string) (active : JValue) : option JValue :=
  let ck := js_or active (JStr COOKIE) in
  if truthy ck && negb (is_string ck PLACEHOLDER) then Some ck else None.

(** [fetchCoreData(referer)] (download.mjs 272-277): the request carries the
    common headers; a failed request, a status that is not a success and a
    body that does not parse all throw. *)
Definition fetchCoreData (COOKIE referer : string) : SM JValue := fun s =>
  let ck := cookie_header COOKIE (ACTIVE_COOKIE s) in
  match core_data s (length (trace s)) ck referer with
  | Some core => (Ret core, log (EvCoreData ck referer) s)
  | None => (Throw ErrCoreData, log (EvCoreData ck referer) s)
  end.

(** The module constant [COOKIE] (download.mjs 54-60), from the two
    environment variables and the file system at start-up. *)
Definition COOKIE_init `{Runtime} (MK_COOKIE MK_COOKIE_FILE : option string)
    (readFileSync : string -> option string) : string :=
  let from_file :=
    match MK_COOKIE_FILE with
    | Some path =>
        if String.eqb path "" then PLACEHOLDER
        else match readFileSync path with
             | Some text => trim text
             | None => PLACEHOLDER
             end
    | None => PLACEHOLDER
    end in
  match MK_COOKIE with
  | Some c =>
      if negb (String.eqb c "") && negb (String.eqb (trim c) "") then trim c
      else from_file
  | None => from_file
  end.

Section Functions.
Context `{Runtime}.

(** ** The session file (download.mjs 368-394) *)

(** The record a legacy file [{ cookie }] is upgraded to. *)
Definition upgraded (cookie : string) (updated : JValue) : JValue :=
  JObj [("users", JObj [("default", JObj [("cookie", JStr cookie); ("updated", updated)])]);
        ("lastUsed", JStr "default")].

(** The body of the [try] block: [None] when control falls out of it. *)
Definition readSessionFile_try (file : string) : SM (option JValue) :=
  do txt <- readFile file;
  match JSON_parse txt with
  | None => throw ErrTypeError
  | Some data =>
      if truthy data && truthy (js_get data "users") then ret (Some data)
      else
        match js_get data "cookie" with
        | JStr c =>
            if truthy data then
              do t <- now;
              ret (Some (upgraded c (js_or (js_get data "updated") (JStr t))))
            else ret None
        | _ => ret None
        end
  end.

(** [readSessionFile(file)]; [JNull] is [null]. *)
Definition readSessionFile (file : string) : SM JValue :=
  do r <- try_ (readSessionFile_try file);
  match r with
  | Some (Some v) => ret v
  | _ => ret JNull
  end.

(** [writeSessionFileMulti(file, email, cookie, existing)]; a null [email]
    is the empty string.  [data.users[key] = ...] changes the value of
    [data.users] in place, which [js_put] on [data] writes out. *)
Definition writeSessionFileMulti (file email : string) (cookie existing : JValue) : SM unit :=
  let key := toLowerCase (trim (if String.eqb email "" then "default" else email)) in
  let data := if truthy existing && truthy (js_get existing "users") then existing
              else JObj [("users", JObj []); ("lastUsed", JStr key)] in
  do t <- now;
  match js_set (js_get data "users") key [("cookie", cookie); ("updated", JStr t)] with
  | ThrowsTypeError => throw ErrTypeError
  | ThrowsRangeError => throw ErrRangeError
  | Assigned users' =>
      let data' := js_put (js_put data "users" users') "lastUsed" (JStr key) in
      do _ <- try_ (writeFile file (JSON_stringify data'));
      ret tt
  end.

(** ** loginWithCredentialsInline (download.mjs 462-570) *)

(** String conversion, as in a template literal or a form field. *)
Definition js_String (v : JValue) : string :=
  match v with JStr s => s | _ => ToString v end.

Definition login_page_request : RawRequest :=
  mkRaw HttpGet (ORIGIN +:+ "/accounts/login/") None None [].

Definition core_data_request : RawRequest :=
  mkRaw HttpGet (ORIGIN +:+ "/api/v1/general/core-data/?profile=1") None None [].

Definition check_request (email : string) (store : CookieStore) (csrf : JValue) : RawRequest :=
  mkRaw HttpPost (ORIGIN +:+ "/api/v1/auth/check-active-user")
    (Some (headerString store)) (Some csrf)
    [("csrfmiddlewaretoken", js_String csrf); ("tessera", email);
     ("g-recaptcha-response", "")].

Definition login_request (email password : string) (store : CookieStore) (csrf : JValue)
    : RawRequest :=
  mkRaw HttpPost (ORIGIN +:+ "/api/v1/auth/login-authentication")
    (Some (headerString store)) (Some csrf)
    [("csrfmiddlewaretoken", js_String csrf); ("tessera", email);
     ("hidden_username", email); ("password", password);
     ("g-recaptcha-response", "")].

(** Steps 0 and 0b, lines 469-491: the cookie jar and the CSRF token. *)
Definition obtain_csrf : SM (CookieStore * JValue) :=
  do r <- rawRequest login_page_request;
  let store := applySetCookie (set_cookie r) [] in
  let csrf := get_or_null "csrftoken" store in
  do sc <- (if truthy csrf then ret (store, csrf)
            else
              do r2 <- rawRequest core_data_request;
              let store2 := applySetCookie (set_cookie r2) store in
              let csrf2 :=
                match JSON_parse (raw_body r2) with
                | Some j2 => js_or (js_or csrf (js_get (js_get j2 "auth") "csrf")) JNull
                | None => csrf
                end in
              let csrf3 := if truthy csrf2 then csrf2 else get_or_null "csrftoken" store2 in
              ret (store2, csrf3));
  let '(store', csrf') := sc in
  if negb (truthy csrf') then throw ErrCsrfUnavailable
  else if negb (has_slice csrf') then throw ErrTypeError
  else ret (store', csrf').


(** Step 1, lines 506-535. *)
Definition check_active_user (email : string) (store : CookieStore) (csrf : JValue)
    : SM CookieStore :=
  do r <- rawRequest (check_request email store csrf);
  let store' := applySetCookie (set_cookie r) store in
  match JSON_parse (raw_body r) with
  | None => throw (ErrCheckInvalidJson (raw_status r))
  | Some jCheck =>
      if negb (truthy jCheck) then throw (ErrCheckInvalidJson (raw_status r))
      else if negb (is_string (js_get jCheck "status") "success")
      then throw (ErrCheckFailed (js_get jCheck "status") (js_get jCheck "message"))
      else if negb (is_string (js_get jCheck "message") "get-pass")
      then throw (ErrUnsupportedFlow (js_get jCheck "message"))
      else ret store'
  end.

(** Step 2, lines 537-561. *)
Definition login_authentication (email password : string) (store : CookieStore)
    (csrf : JValue) : SM CookieStore :=
  do r <- rawRequest (login_request email password store csrf);
  let store' := applySetCookie (set_cookie r) store in
  match JSON_parse (raw_body r) with
  | None => throw (ErrLoginInvalidJson (raw_status r))
  | Some jLogin =>
      if negb (truthy jLogin) then throw (ErrLoginInvalidJson (raw_status r))
      else if negb (is_string (js_get jLogin "status") "success")
      then throw (ErrLoginFailed (js_get jLogin "message"))
      else ret store'
  end.

(** Lines 563-569: the final cookie header. *)
Definition compose_cookie (store : CookieStore) (csrf : JValue) : SM bool :=
  let sessionid := get_or_null "sessionid" store in
  let csrftoken := js_or (get_or_null "csrftoken" store) csrf in
  if negb (truthy sessionid) then throw ErrSessionCookieMissing
  else
    modify (set_ACTIVE_COOKIE
              (JStr ("csrftoken=" +:+ js_String csrftoken +:+ "; sessionid="
                     +:+ js_String sessionid)));;
    ret true.

(** Everything before the final composition: the jar after both POST steps
    reported success, and the token. *)
Definition login_steps (email password : string) : SM (CookieStore * JValue) :=
  if String.eqb email "" || String.eqb password "" then throw ErrCredentialsRequired
  else
    do sc <- obtain_csrf;
    let '(store, csrf) := sc in
    do store1 <- check_active_user email store csrf;
    do store2 <- login_authentication email password store1 csrf;
    ret (store2, csrf).

Definition loginWithCredentialsInline (email password : string) : SM bool :=
  do sc <- login_steps email password;
  compose_cookie (fst sc) (snd sc).

(** ** prepareSession (download.mjs 572-657) *)

Inductive Source := SrcEnv | SrcStoredUser | SrcStoredLast | SrcFreshLogin | SrcNone.

(** The result [{ core, source }]. *)
Record Prepared := mkPrepared { core : JValue; source : Source }.

(** The arguments; a null string is the empty string. *)
Record Args := mkArgs {
  userEmail : string;
  userPassword : string;
  sessionFile : string;
  courseUrl : string;
  forceLogin : bool
}.

(** [!!core?.auth?.details?.is_authenticated] *)
Definition is_authenticated (core : JValue) : bool :=
  truthy (js_get (js_get (js_get core "auth") "details") "is_authenticated").

(** The helper [verify] (lines 574-590); [JNull] is [null]. *)
Definition verify (COOKIE : string) (a : Args) : SM JValue :=
  do r <- try_ (
    do active <- gets ACTIVE_COOKIE;
    if negb (truthy active) then ret JNull
    else
      do core <- fetchCoreData COOKIE
                   (if String.eqb (courseUrl a) "" then ORIGIN else courseUrl a);
      if is_authenticated core then ret core else ret JNull);
  ret (default JNull r).

(** [COOKIE && COOKIE !== 'PUT_YOUR_COOKIE_HERE'] *)
Definition override_present (COOKIE : string) : bool :=
  negb (String.eqb COOKIE "") && negb (String.eqb COOKIE PLACEHOLDER).

(** [userEmail ? userEmail.trim().toLowerCase() : null] *)
Definition desiredUserKey (a : Args) : string :=
  if String.eqb (userEmail a) "" then "" else toLowerCase (trim (userEmail a)).

(** Step 1, lines 592-599: [Some core] when the function returns there. *)
Definition try_override (COOKIE : string) (a : Args) : SM (option JValue) :=
  if override_present COOKIE then
    modify (set_ACTIVE_COOKIE (JStr COOKIE));;
    do core <- verify COOKIE a;
    if truthy core then ret (Some core) else ret None
  else ret None.

(** Step 2a, lines 609-623. *)
Definition try_stored_user (COOKIE : string) (a : Args) (sessionData : JValue)
    : SM (option JValue) :=
  if truthy sessionData && negb (String.eqb (desiredUserKey a) "") && negb (forceLogin a)
  then
    let entry := js_get (js_get sessionData "users") (desiredUserKey a) in
    if truthy entry && truthy (js_get entry "cookie") then
      modify (set_ACTIVE_COOKIE (js_get entry "cookie"));;
      do core <- verify COOKIE a;
      if truthy core then ret (Some core)
      else modify (set_ACTIVE_COOKIE JNull);; ret None
    else ret None
  else ret None.

(** Whether [v] converts to a string, here to a property name. *)
Definition js_converts (v : JValue) : bool :=
  match v with
  | JObj _ | JArr _ => converts v
  | _ => true
  end.

(** Step 2b, lines 624-634.  The test of line 627 reads
    [sessionData.users[key]], which converts [key] to a property name; for a
    [key] that does not convert this throws a TypeError, outside any [try]. *)
Definition try_last_used (COOKIE : string) (a : Args) (sessionData : JValue)
    : SM (option JValue) :=
  if truthy sessionData && String.eqb (desiredUserKey a) "" then
    let key := js_get sessionData "lastUsed" in
    if truthy key then
      if negb (js_converts key) then throw ErrTypeError
      else
        let entry := js_get (js_get sessionData "users") (js_String key) in
        if truthy entry && truthy (js_get entry "cookie") then
          modify (set_ACTIVE_COOKIE (js_get entry "cookie"));;
          do core <- verify COOKIE a;
          if truthy core then ret (Some core) else ret None
        else ret None
    else ret None
  else ret None.

(** Step 3, lines 636-650. *)
Definition try_fresh_login (COOKIE : string) (a : Args) (sessionData : JValue)
    : SM (option JValue) :=
  do active <- gets ACTIVE_COOKIE;
  if negb (String.eqb (desiredUserKey a) "") && negb (String.eqb (userPassword a) "")
     && (negb (truthy active) || forceLogin a)
  then
    catch
      (do _ <- loginWithCredentialsInline (userEmail a) (userPassword a);
       do active' <- gets ACTIVE_COOKIE;
       (if truthy active' && negb (String.eqb (sessionFile a) "")
        then writeSessionFileMulti (sessionFile a) (userEmail a) active' sessionData
        else ret tt);;
       do core <- verify COOKIE a;
       if truthy core then ret (Some core) else ret None)
      (fun _ => ret None)
  else ret None.

Definition prepareSession (COOKIE : string) (a : Args) : SM Prepared :=
  do r1 <- try_override COOKIE a;
  match r1 with
  | Some core => ret (mkPrepared core SrcEnv)
  | None =>
      do sessionData <- (if String.eqb (sessionFile a) "" then ret JNull
                         else readSessionFile (sessionFile a));
      do r2 <- try_stored_user COOKIE a sessionData;
      match r2 with
      | Some core => ret (mkPrepared core SrcStoredUser)
      | None =>
          do r3 <- try_last_used COOKIE a sessionData;
          match r3 with
          | Some core => ret (mkPrepared core SrcStoredLast)
          | None =>
              do r4 <- try_fresh_login COOKIE a sessionData;
              match r4 with
              | Some core => ret (mkPrepared core SrcFreshLogin)
              | None => ret (mkPrepared JNull SrcNone)
              end
          end
      end
  end.

End Functions.

(** ** Example worlds *)

(** A stand-in for [JSON.parse] that knows three bodies. *)
Definition toy_parse (text : string) : option JValue :=
  if String.eqb text "get-pass"
  then Some (JObj [("status", JStr "success"); ("message", JStr "get-pass")])
  else if String.eqb text "get-code"
  then Some (JObj [("status", JStr "success"); ("message", JStr "get-code")])
  else if String.eqb text "success"
  then Some (JObj [("status", JStr "success")])
  else if String.eqb text "legacy"
  then Some (JObj [("cookie", JStr "sessionid=old")])
  else None.

Definition toy_runtime : Runtime :=
  {| JSON_parse := toy_parse; JSON_stringify := fun _ => "saved"; ToString := fun _ => "";
     converts := fun _ => true; trim := ascii_trim; toLowerCase := ascii_toLowerCase |}.

Definition authenticated : JValue :=
  JObj [("auth", JObj [("details", JObj [("is_authenticated", JBool true)])])].
Definition anonymous : JValue :=
  JObj [("auth", JObj [("details", JObj [("is_authenticated", JBool false)])])].

Definition fresh_cookie : string := "csrftoken=tok; sessionid=new".

(** The site: only the cookie of a fresh login is authenticated; the login
    page sets a CSRF cookie, the precheck answers [get-pass] (or [get-code]
    for the account [otp@b.c]), the password step sets the session cookie. *)
Definition site_core_data (n : nat) (cookie : option JValue) (referer : string)
    : option JValue :=
  match cookie with
  | Some (JStr c) => if String.eqb c fresh_cookie then Some authenticated else Some anonymous
  | _ => Some anonymous
  end.

Definition site_raw (n : nat) (rq : RawRequest) : option RawResponse :=
  if String.eqb (rr_url rq) (ORIGIN +:+ "/accounts/login/")
  then Some (mkRawResponse 200 ["csrftoken=tok; Path=/"; "lang=fa"] "")
  else if String.eqb (rr_url rq) (ORIGIN +:+ "/api/v1/auth/check-active-user")
  then Some (mkRawResponse 200 []
               (if String.eqb (assoc_get_text "tessera" (rr_form rq)) "otp@b.c"
                then "get-code" else "get-pass"))
  else if String.eqb (rr_url rq) (ORIGIN +:+ "/api/v1/auth/login-authentication")
  then Some (mkRawResponse 200 ["sessionid=new; HttpOnly"] "success")
  else None.

Definition site (files0 : gmap string string) : State :=
  mkState JNull files0 (fun _ => false) site_core_data site_raw (fun _ => "now") [].

Definition credentials : Args := mkArgs "A@b.c" "pw" "session.json" "" false.

(** The override cookie of a run started with [MK_COOKIE] set. *)
Definition override_cookie : string :=
  @COOKIE_init toy_runtime (Some "  csrftoken=tok; sessionid=new ") None (fun _ => None).

(** ** Further predicates and example worlds *)

(** Whether a character occurs in a string. *)
Fixpoint occurs (c : ascii) (s : string) : bool :=
  match s with
  | EmptyString => false
  | String a rest => Ascii.eqb a c || occurs c rest
  end.

(** A jar as [setCookieLine] builds it: every name once, no empty name. *)
Definition store_ok (m : CookieStore) : Prop :=
  List.NoDup (map fst m) /\ ~ In "" (map fst m).

(** A session record with one user. *)
Definition stored_record : JValue :=
  JObj [("users", JObj [("a@b.c", JObj [("cookie", JStr fresh_cookie);
                                        ("updated", JStr "then")])]);
        ("lastUsed", JStr "a@b.c")].

(** A session record whose cookie the site no longer accepts. *)
Definition stale_record : JValue :=
  JObj [("users", JObj [("a@b.c", JObj [("cookie", JStr "sessionid=old");
                                        ("updated", JStr "then")])]);
        ("lastUsed", JStr "a@b.c")].

(** A stand-in for [JSON.parse] that also knows two stored records, a
    refusal and a body that carries a token. *)
Definition stored_parse (text : string) : option JValue :=
  if String.eqb text "stored" then Some stored_record
  else if String.eqb text "stale" then Some stale_record
  else if String.eqb text "wrong"
  then Some (JObj [("status", JStr "error"); ("message", JStr "wrong-password")])
  else if String.eqb text "token"
  then Some (JObj [("auth", JObj [("csrf", JStr "tok2")])])
  else toy_parse text.



Definition stored_runtime : Runtime :=
  {| JSON_parse := stored_parse; JSON_stringify := fun _ => "saved"; ToString := fun _ => "";
     converts := fun _ => true; trim := ascii_trim; toLowerCase := ascii_toLowerCase |}.

(** A site whose login page sets no cookie and whose core-data body does
    not parse. *)
Definition site_without_csrf : State :=
  mkState JNull ∅ (fun _ => false) site_core_data
    (fun _ _ => Some (mkRawResponse 200 ["lang=fa"] "")) (fun _ => "now") [].

(** A site whose login page sets no CSRF cookie and whose core-data body
    carries the token. *)
Definition site_with_body_token : State :=
  mkState JNull ∅ (fun _ => false) site_core_data
    (fun _ rq =>
       if String.eqb (rr_url rq) (ORIGIN +:+ "/api/v1/general/core-data/?profile=1")
       then Some (mkRawResponse 200 [] "token")
       else Some (mkRawResponse 200 ["lang=fa"] ""))
    (fun _ => "now") [].

(** A site that refuses the password. *)
Definition rejecting_site : State :=
  mkState JNull ∅ (fun _ => false) site_core_data
    (fun n rq =>
       if String.eqb (rr_url rq) (ORIGIN +:+ "/api/v1/auth/login-authentication")
       then Some (mkRawResponse 200 [] "wrong")
       else site_raw n rq)
    (fun _ => "now") [].

(** A disk that refuses every write. *)
Definition read_only_site : State :=
  mkState JNull ∅ (fun op => match op with OpWrite _ => true | OpRead _ => false end)
    site_core_data site_raw (fun _ => "now") [].


(** [ensureCookiePresent()] (download.mjs 113-118): [false] when the process
    exits with status 1. *)
Definition ensureCookiePresent (COOKIE : string) (active : JValue) : bool :=
  (truthy active && negb (is_string active PLACEHOLDER)) || override_present COOKIE.

Definition is_raw (e : Event) : Prop :=
  match e with EvRaw _ => True | _ => False end.

(** From [s] to [s'] at most [n] requests of [rawRequest] were sent and
    nothing else happened. *)
Definition raw_events (n : nat) (s s' : State) : Prop :=
  ACTIVE_COOKIE s' = ACTIVE_COOKIE s
  /\ files s' = files s
  /\ exists evs, trace s' = trace s ++ evs /\ Forall is_raw evs /\ (length evs <= n)%nat.

(** What a step of [prepareSession] hands back when it ends the search. *)
Definition verified (r : option JValue) (s' : State) : Prop :=
  match r with
  | Some core => is_authenticated core = true /\ truthy (ACTIVE_COOKIE s') = true
  | None => True
  end.

(** The referer of the verification request. *)
Definition verify_referer (a : Args) : string :=
  if String.eqb (courseUrl a) "" then ORIGIN else courseUrl a.

(** Whether a value can take a property: an object or an array. *)
Definition takes_properties (v : JValue) : bool :=
  match v with JObj _ | JArr _ => true | _ => false end.

End Session.

(** * The command line and the choice of a video source *)
Module Cli.

(** ** pickBestSource (download.mjs 327-331) *)

(** [hay.includes(needle)] *)
Fixpoint includes (needle hay : string) : bool :=
  String.prefix needle hay
  || match hay with
     | EmptyString => false
     | String _ rest => includes needle rest
     end.

Definition is_digit (a : ascii) : bool :=
  let n := Ascii.N_of_ascii a in ((48 <=? n) && (n <=? 57))%N.

(** [/\/videos\/hq\d+/.test(u)]: the text [/videos/hq] with a digit right
    after it, anywhere in [u]. *)
Fixpoint test_hq_digits (u : string) : bool :=
  (String.prefix "/videos/hq" u
   && match String.get 10 u with Some d => is_digit d | None => false end)
  || match u with
     | EmptyString => false
     | String _ rest => test_hq_digits rest
     end.

(** The callback of [urls.find]. *)
Definition is_hq (u : string) : bool := test_hq_digits u || includes "/videos/hq" u.

(** [pickBestSource(urls)] on an array; [None] is [null]. *)
Definition pickBestSource (urls : list string) : option string :=
  match urls with
  | [] => None
  | first :: _ =>
      match List.find is_hq urls with
      | Some hq => if String.eqb hq "" then Some first else Some hq
      | None => Some first
      end
  end.

(** ** ensureTrailingSlash (download.mjs 234) *)

(** [u.endsWith('/')] *)
Fixpoint endsWith_slash (u : string) : bool :=
  match u with
  | EmptyString => false
  | String a rest =>
      match rest with
      | EmptyString => Ascii.eqb a "/"
      | String _ _ => endsWith_slash rest
      end
  end.

Definition ensureTrailingSlash (u : string) : string :=
  if endsWith_slash u then u else u +:+ "/".

(** ** parseCLI (download.mjs 156-200) *)

(** The record [parseCLI] returns; [None] is [null]. *)
Record Options := mkOptions {
  inputCourseUrl : option string;
  sampleBytesToDownload : Z;
  isVerboseLoggingEnabled : bool;
  userEmail : option string;
  userPassword : option string;
  sessionFile : string;
  forceLogin : bool
}.

Definition set_inputCourseUrl (v : option string) (o : Options) : Options :=
  mkOptions v (sampleBytesToDownload o) (isVerboseLoggingEnabled o) (userEmail o)
    (userPassword o) (sessionFile o) (forceLogin o).
Definition set_sampleBytesToDownload (v : Z) (o : Options) : Options :=
  mkOptions (inputCourseUrl o) v (isVerboseLoggingEnabled o) (userEmail o)
    (userPassword o) (sessionFile o) (forceLogin o).
Definition set_isVerboseLoggingEnabled (v : bool) (o : Options) : Options :=
  mkOptions (inputCourseUrl o) (sampleBytesToDownload o) v (userEmail o)
    (userPassword o) (sessionFile o) (forceLogin o).
Definition set_userEmail (v : option string) (o : Options) : Options :=
  mkOptions (inputCourseUrl o) (sampleBytesToDownload o) (isVerboseLoggingEnabled o) v
    (userPassword o) (sessionFile o) (forceLogin o).
Definition set_userPassword (v : option string) (o : Options) : Options :=
  mkOptions (inputCourseUrl o) (sampleBytesToDownload o) (isVerboseLoggingEnabled o)
    (userEmail o) v (sessionFile o) (forceLogin o).
Definition set_sessionFile (v : string) (o : Options) : Options :=
  mkOptions (inputCourseUrl o) (sampleBytesToDownload o) (isVerboseLoggingEnabled o)
    (userEmail o) (userPassword o) v (forceLogin o).
Definition set_forceLogin (v : bool) (o : Options) : Options :=
  mkOptions (inputCourseUrl o) (sampleBytesToDownload o) (isVerboseLoggingEnabled o)
    (userEmail o) (userPassword o) (sessionFile o) v.

(** The values of the variables before the loop; [DEFAULT_SAMPLE_BYTES] is 0. *)
Definition defaults : Options := mkOptions None 0 false None None "session.json" false.

(** [a.split('=')[1]] for an [a] that holds an [=]: what stands between the
    first [=] and the next one. *)
Definition second_field (a : string) : string :=
  match Session.cut_at "=" a with
  | Some (_, r) => Session.before "=" r
  | None => ""
  end.

(** [!inputCourseUrl] *)
Definition no_url (o : Options) : bool :=
  match inputCourseUrl o with
  | None => true
  | Some u => String.eqb u ""
  end.

Section Parse.

(** [parseInt(v, 10)] as an integer, [None] for NaN.  Numbers beyond the
    range where a double is an exact integer are not modelled. *)
Variable parseInt : string -> option Z.

(** [parseInt(v, 10) || 0] *)
Definition number_or_zero (v : string) : Z := default 0 (parseInt v).

(** The loop over [process.argv.slice(2)]; [None] when [--help] ends the
    process with status 0. *)
Fixpoint parse_args (args : list string) (o : Options) : option Options :=
  match args with
  | [] => Some o
  | a :: rest =>
      if String.eqb a "--help" || String.eqb a "-h" then None
      else if String.eqb a "--user" || String.eqb a "--email" then
        match rest with
        | v :: rest' =>
            if String.eqb v "" then parse_args rest o
            else parse_args rest' (set_userEmail (Some v) o)
        | [] => parse_args rest o
        end
      else if String.prefix "--user=" a then
        parse_args rest (set_userEmail (Some (second_field a)) o)
      else if String.eqb a "--pass" || String.eqb a "--password" then
        match rest with
        | v :: rest' =>
            if String.eqb v "" then parse_args rest o
            else parse_args rest' (set_userPassword (Some v) o)
        | [] => parse_args rest o
        end
      else if String.prefix "--pass=" a then
        parse_args rest (set_userPassword (Some (second_field a)) o)
      else if String.eqb a "--session-file" then
        match rest with
        | v :: rest' =>
            if String.eqb v "" then parse_args rest o
            else parse_args rest' (set_sessionFile v o)
        | [] => parse_args rest o
        end
      else if String.prefix "--session-file=" a then
        parse_args rest (set_sessionFile (second_field a) o)
      else if String.prefix "--sample-bytes=" a then
        parse_args rest (set_sampleBytesToDownload (number_or_zero (second_field a)) o)
      else if String.eqb a "--sample-bytes" then
        match rest with
        | v :: rest' =>
            if String.eqb v "" then parse_args rest o
            else parse_args rest' (set_sampleBytesToDownload (number_or_zero v) o)
        | [] => parse_args rest o
        end
      else if String.eqb a "--verbose" || String.eqb a "-v" then
        parse_args rest (set_isVerboseLoggingEnabled true o)
      else if String.eqb a "--force-login" then
        parse_args rest (set_forceLogin true o)
      else if no_url o then parse_args rest (set_inputCourseUrl (Some a) o)
      else parse_args rest o
  end.

(** [parseCLI()] on the arguments and [process.env.MK_SAMPLE_BYTES]. *)
Definition parseCLI (args : list string) (MK_SAMPLE_BYTES : option string)
    : option Options :=
  match parse_args args defaults with
  | None => None
  | Some o =>
      match MK_SAMPLE_BYTES with
      | Some text =>
          if (sampleBytesToDownload o =? 0) && negb (String.eqb text "")
          then Some (set_sampleBytesToDownload (number_or_zero text) o)
          else Some o
      | None => Some o
      end
  end.

End Parse.

(** Whether an argument is free of any meaning to the loop: it is not
    empty and does not start with a dash. *)
Definition plain (a : string) : bool :=
  match a with
  | EmptyString => false
  | String c _ => negb (Ascii.eqb c "-")
  end.

(** A reading of decimal digits, for the examples. *)
Fixpoint digits (s : string) (acc : Z) : Z :=
  match s with
  | EmptyString => acc
  | String a rest =>
      if is_digit a then digits rest (10 * acc + Z.of_N (Ascii.N_of_ascii a) - 48) else acc
  end.

Definition decimal (s : string) : option Z :=
  match s with
  | EmptyString => None
  | String a _ => if is_digit a then Some (digits s 0) else None
  end.

End Cli.

(** * Facts about the download engine *)
Module DownloadFacts.
Import Download.

(** ** Facts about the limiter *)

Lemma ByteLimit_new_ok (lim : Z) : 0 < lim -> limiter_ok (ByteLimit_new lim).
Proof. unfold limiter_ok; simpl; intros; repeat split; lia. Qed.

Lemma size_of_take {A} (n : nat) (l : list A) :
  size_of (take n l) = Z.min (Z.of_nat n) (size_of l).
Proof. unfold size_of. rewrite length_take. lia. Qed.

Lemma size_of_app {A} (l k : list A) : size_of (l ++ k) = size_of l + size_of k.
Proof. unfold size_of. rewrite length_app. lia. Qed.

Lemma _transform_ok (bl : ByteLimit) (c : chunk) :
  limiter_ok bl ->
  exists bl',
    _transform bl c =
      (take (Z.to_nat (limit bl - seen bl)) c, bl',
       negb (_hit bl) && (seen bl + size_of c >=? limit bl))
    /\ limit bl' = limit bl
    /\ seen bl' = Z.min (limit bl) (seen bl + size_of c)
    /\ limiter_ok bl'.
Proof.
  intros (Hl & Hs & Hh). unfold _transform.
  destruct (limit bl <=? 0) eqn:E0; [lia|].
  destruct (limit bl - seen bl <=? 0) eqn:E1.
  - (* the limit was reached before this chunk *)
    assert (seen bl = limit bl) as Hfull by lia.
    exists bl. replace (Z.to_nat (limit bl - seen bl)) with 0%nat by lia.
    rewrite Hh. replace (seen bl >=? limit bl) with true by lia.
    simpl. repeat split; try sz; try exact Hh.
  - assert (Hh' : _hit bl = false) by (rewrite Hh; lia).
    set (buf := if size_of c >? limit bl - seen bl
                then take (Z.to_nat (limit bl - seen bl)) c else c).
    assert (Hbuf : buf = take (Z.to_nat (limit bl - seen bl)) c).
    { subst buf. destruct (size_of c >? limit bl - seen bl) eqn:E2; [done|].
      symmetry. apply take_ge. unfold size_of in E2. lia. }
    assert (Hsz : seen bl + size_of buf = Z.min (limit bl) (seen bl + size_of c)).
    { rewrite Hbuf, size_of_take. lia. }
    rewrite Hh'. simpl negb. rewrite !andb_true_l.
    destruct (seen bl + size_of buf >=? limit bl) eqn:E3.
    + exists {| limit := limit bl; seen := seen bl + size_of buf; _hit := true |}.
      split; [|unfold limiter_ok; simpl; repeat split; sz].
      f_equal; [f_equal; exact Hbuf | sz].
    + exists {| limit := limit bl; seen := seen bl + size_of buf; _hit := _hit bl |}.
      split; [|unfold limiter_ok; simpl; rewrite ?Hh'; repeat split; sz].
      rewrite Hh'. f_equal; [f_equal; exact Hbuf | sz].
Qed.

(** Fed a whole body, in any split, the limiter lets through exactly its
    first [limit - seen] bytes and raises the signal when the body reaches
    the limit. *)
Lemma feed_all_ok (cs : list chunk) : forall bl,
  limiter_ok bl ->
  exists bl',
    feed_all bl cs =
      (take (Z.to_nat (limit bl - seen bl)) (concat cs), bl',
       negb (_hit bl) && (seen bl + size_of (concat cs) >=? limit bl))
    /\ limit bl' = limit bl
    /\ seen bl' = Z.min (limit bl) (seen bl + size_of (concat cs))
    /\ limiter_ok bl'.
Proof.
  induction cs as [|c cs IH]; intros bl Hok.
  - exists bl. pose proof Hok as (Hl & Hs & Hh). simpl. rewrite take_nil.
    split; [|split; [done | split; [sz | done]]].
    f_equal. rewrite Hh. sz.
  - destruct (_transform_ok bl c Hok) as (bl1 & Ht & Hl1 & Hs1 & Hok1).
    destruct (IH bl1 Hok1) as (bl2 & Hf & Hl2 & Hs2 & Hok2).
    exists bl2. simpl. rewrite Ht, Hf.
    destruct Hok as (Hl & Hs & Hh). destruct Hok1 as (_ & _ & Hh1).
    split; [|split; [lia | split; [rewrite Hs2, Hl1, Hs1, size_of_app; sz | exact Hok2]]].
    rewrite size_of_app, take_app. f_equal; [f_equal|].
    + f_equal. f_equal. rewrite Hl1, Hs1. sz.
    + rewrite Hh1, Hh, Hl1, Hs1. sz.
Qed.

(** After the signal the limiter lets nothing more through, so stopping the
    source at the signal loses nothing. *)
Lemma feed_until_limit_ok (cs : list chunk) : forall bl,
  limiter_ok bl ->
  exists bl',
    feed_until_limit bl cs =
      (take (Z.to_nat (limit bl - seen bl)) (concat cs), bl',
       negb (_hit bl) && (seen bl + size_of (concat cs) >=? limit bl)).
Proof.
  induction cs as [|c cs IH]; intros bl Hok.
  - exists bl. destruct Hok as (Hl & Hs & Hh). simpl. rewrite take_nil.
    f_equal. rewrite Hh. sz.
  - destruct (_transform_ok bl c Hok) as (bl1 & Ht & Hl1 & Hs1 & Hok1).
    simpl. rewrite Ht.
    destruct Hok as (Hl & Hs & Hh).
    destruct (negb (_hit bl) && (seen bl + size_of c >=? limit bl)) eqn:Ef.
    + exists bl1. rewrite size_of_app, take_app.
      replace (Z.to_nat (limit bl - seen bl) - length c)%nat with 0%nat by sz.
      rewrite take_0, app_nil_r. f_equal. sz.
    + destruct (IH bl1 Hok1) as (bl2 & Hf). rewrite Hf. exists bl2.
      destruct Hok1 as (_ & _ & Hh1).
      rewrite size_of_app, take_app, Hl1, Hs1, Hh1.
      f_equal; [f_equal|].
      * f_equal. f_equal. sz.
      * sz.
Qed.

(** ** Facts about paths and primitives *)

Lemma append_nonempty_neq (p q : string) : q <> "" -> p +:+ q <> p.
Proof.
  intros Hq. induction p as [|a p IH]; simpl.
  - exact Hq.
  - intros H. injection H as H. exact (IH H).
Qed.

Lemma tmpPath_neq (filePath : string) : tmpPath filePath <> filePath.
Proof. unfold tmpPath. apply append_nonempty_neq. discriminate. Qed.

(** Unfolding of the monad, one layer at a time. *)
Ltac munfold :=
  unfold bind, ret, throw, try_, catch, gets, modify in *.

(** [finalize] always reports [Downloaded]: the three file-system calls sit
    in [try] blocks whose [catch] is empty. *)
Lemma finalize_returns (filePath : string) (s : State) :
  exists s', finalize filePath s = (Ret Downloaded, s')
             /\ trace s' = trace s /\ fault s' = fault s /\ net s' = net s
             /\ existingTmpSize s' = existingTmpSize s
             /\ existingFinalSize s' = existingFinalSize s
             /\ remoteInfo s' = remoteInfo s.
Proof.
  unfold finalize, rename, copyFile, unlink. munfold.
  repeat (match goal with
          | |- context [if ?b then _ else _] => destruct b eqn:?
          | |- context [match files ?s !! ?p with _ => _ end] => destruct (files s !! p) eqn:?
          end; cbn);
    eexists; (split; [reflexivity|]); cbn; auto 10.
Qed.

(** [finalize] when the rename goes through. *)
Lemma finalize_renamed (filePath : string) (s : State) (c : list byte) :
  fault s (OpRename (tmpPath filePath) filePath) = false ->
  files s !! tmpPath filePath = Some c ->
  exists s', finalize filePath s = (Ret Downloaded, s')
             /\ files s' !! filePath = Some c
             /\ files s' !! tmpPath filePath = None
             /\ trace s' = trace s.
Proof.
  intros Hf Hc. unfold finalize, rename, unlink. munfold.
  rewrite Hf, Hc. cbn.
  assert (Hgone : (<[filePath:=c]> (delete (tmpPath filePath) (files s)))
                    !! tmpPath filePath = None).
  { rewrite lookup_insert_ne by (apply not_eq_sym, tmpPath_neq). apply lookup_delete_eq. }
  destruct (fault s (OpUnlink (tmpPath filePath))); cbn.
  - eexists; split; [reflexivity|]; cbn. rewrite lookup_insert_eq. auto.
  - rewrite Hgone. eexists; split; [reflexivity|]; cbn. rewrite lookup_insert_eq. auto.
Qed.

(** [finalize] when the rename and the copy are both refused. *)
Lemma finalize_refused (filePath : string) (s : State) :
  fault s (OpRename (tmpPath filePath) filePath) = true ->
  fault s (OpCopyFile (tmpPath filePath) filePath) = true ->
  fault s (OpUnlink (tmpPath filePath)) = false ->
  exists s', finalize filePath s = (Ret Downloaded, s')
             /\ files s' = delete (tmpPath filePath) (files s)
             /\ trace s' = trace s.
Proof.
  intros Hr Hc Hu. unfold finalize, rename, copyFile, unlink. munfold.
  rewrite Hr, Hc, Hu. cbn.
  destruct (files s !! tmpPath filePath) eqn:E; cbn.
  - eexists; split; [reflexivity|]; cbn; auto.
  - eexists; split; [reflexivity|]; cbn. split; [|done].
    symmetry. apply delete_id. exact E.
Qed.

(** ** Finalization (claim C10) *)

(** The transfer of one attempt once the response passed the status checks
    and the stream either ends cleanly or is stopped by the sample limit:
    the body is written and the attempt ends in [finalize]. *)
Lemma transfer_finalizes (s : State) (url filePath referer : string)
    (sampleBytes off : Z) (res : Response) :
  net s (length (trace s)) (mkRequest GET url referer (range_header sampleBytes off)) = Some res ->
  ok res = true -> has_body res = true ->
  (off >? 0) && negb (status res =? 206) = false ->
  fault s (OpMkdir filePath) = false ->
  fault s (OpOpenWrite (tmpPath filePath)) = false ->
  (breaks res = false \/ (0 < sampleBytes /\ sampleBytes <= size_of (concat (chunks res)))) ->
  transfer url filePath referer sampleBytes off s
  = finalize filePath (after_transfer s url filePath referer sampleBytes off res).
Proof.
  intros Hnet Hok Hbody Hrange Hmk Hop Hend.
  unfold transfer, fetch. munfold. rewrite Hnet. cbn.
  rewrite Hok, Hbody, Hrange. cbn.
  unfold mkdir_parent, createWriteStream. cbn. rewrite Hmk. cbn. rewrite Hop. cbn.
  unfold pipeline, write, after_transfer, written, sampled. munfold.
  destruct (sampleBytes >? 0) eqn:Es; cbn.
  - (* sampling *)
    destruct (feed_until_limit_ok (chunks res) (ByteLimit_new sampleBytes))
      as (bl' & Hfeed); [apply ByteLimit_new_ok; lia|].
    rewrite Hfeed. cbn. rewrite Z.sub_0_r, Z.add_0_l.
    destruct (size_of (concat (chunks res)) >=? sampleBytes) eqn:Eh; cbn.
    + rewrite lookup_insert_eq, insert_insert_eq. cbn.
      unfold set_files, log. cbn.
      match goal with |- context [finalize filePath ?st] =>
        destruct (finalize filePath st) as [[?|?] ?] end; reflexivity.
    + rewrite lookup_insert_eq, insert_insert_eq. cbn.
      destruct Hend as [Hb | [_ Hge]]; [|lia].
      rewrite Hb. cbn. reflexivity.
  - destruct Hend as [Hb | [Hpos _]]; [|lia].
    rewrite Hb. cbn. rewrite lookup_insert_eq, insert_insert_eq. reflexivity.
Qed.

Lemma statSync_nonneg (p : string) (s : State) : 0 <= default 0 (statSync p s).
Proof. unfold statSync. destruct (files s !! p); cbn; sz. Qed.

Lemma downloadToFile_no_final (s : State) (url filePath referer : string)
    (maxRetries sampleBytes : Z) :
  default 0 (statSync filePath s) = 0 ->
  downloadToFile url filePath referer maxRetries sampleBytes s
  = attempts (Z.to_nat maxRetries) 1 maxRetries url filePath referer sampleBytes
      (at_loop_start s filePath).
Proof.
  intros H0. unfold downloadToFile. munfold. rewrite H0. cbn.
  rewrite andb_false_r. reflexivity.
Qed.

Lemma decide_resumeOffset_no_final (s : State) (url filePath referer : string)
    (sampleBytes : Z) :
  existingFinalSize s <= 0 -> 0 <= existingTmpSize s ->
  decide_resumeOffset url filePath referer sampleBytes s
  = (Ret (if sampleBytes >? 0 then 0 else existingTmpSize s), s).
Proof.
  intros Hf Ht. unfold decide_resumeOffset. munfold.
  destruct (sampleBytes >? 0); [reflexivity|].
  destruct (existingTmpSize s >? 0) eqn:E; [reflexivity|].
  replace (existingFinalSize s >? 0) with false by lia.
  f_equal. f_equal. lia.
Qed.

(** Any iteration of the retry loop whose attempt gets past the status
    checks and whose stream ends cleanly, or is stopped by the sample limit,
    returns [Downloaded], whatever the file system answers to the rename,
    the copy and the unlink. *)
Lemma attempt_downloaded (s s1 : State) (url filePath referer : string)
    (sampleBytes maxRetries k off : Z) (fuel : nat) (res : Response) :
  decide_resumeOffset url filePath referer sampleBytes s = (Ret off, s1) ->
  net s1 (length (trace s1)) (mkRequest GET url referer (range_header sampleBytes off)) = Some res ->
  ok res = true -> has_body res = true ->
  (off >? 0) && negb (status res =? 206) = false ->
  fault s1 (OpMkdir filePath) = false ->
  fault s1 (OpOpenWrite (tmpPath filePath)) = false ->
  (breaks res = false \/ (0 < sampleBytes /\ sampleBytes <= size_of (concat (chunks res)))) ->
  attempts (S fuel) k maxRetries url filePath referer sampleBytes s
  = finalize filePath (after_transfer s1 url filePath referer sampleBytes off res).
Proof.
  intros Hdec Hnet Hok Hbody Hrange Hmk Hop Hend.
  cbn [attempts]. unfold catch, attempt_body, bind. rewrite Hdec.
  rewrite (transfer_finalizes _ _ _ _ _ _ res) by assumption.
  destruct (finalize_returns filePath
              (after_transfer s1 url filePath referer sampleBytes off res))
    as (s2 & Hfin & _).
  rewrite Hfin. reflexivity.
Qed.

(** When only the rename is refused, the fallback copy fills the
    destination and the partial file is unlinked. *)
Lemma finalize_copied (filePath : string) (s : State) (c : list byte) :
  fault s (OpRename (tmpPath filePath) filePath) = true ->
  fault s (OpCopyFile (tmpPath filePath) filePath) = false ->
  fault s (OpUnlink (tmpPath filePath)) = false ->
  files s !! tmpPath filePath = Some c ->
  exists s', finalize filePath s = (Ret Downloaded, s')
             /\ files s' !! filePath = Some c
             /\ files s' !! tmpPath filePath = None.
Proof.
  intros Hr Hc Hu Htmp. unfold finalize, rename, copyFile, unlink. munfold.
  rewrite Hr. cbn. rewrite Hc, Htmp. cbn. rewrite Hu. cbn.
  rewrite lookup_insert_ne by (apply not_eq_sym, tmpPath_neq). rewrite Htmp.
  eexists. split; [reflexivity|]. cbn. split.
  - rewrite lookup_delete_ne by apply tmpPath_neq. apply lookup_insert_eq.
  - apply lookup_delete_eq.
Qed.



(** ** A resume request that is not honoured (claim C4) *)

Lemma decide_resumeOffset_sampling (s : State) (url filePath referer : string)
    (sampleBytes : Z) :
  0 < sampleBytes ->
  decide_resumeOffset url filePath referer sampleBytes s = (Ret 0, s).
Proof.
  intros H. unfold decide_resumeOffset. replace (sampleBytes >? 0) with true by lia.
  reflexivity.
Qed.

Lemma transfer_range_not_honored (s : State) (url filePath referer : string)
    (sampleBytes off : Z) (res : Response) :
  sampleBytes <= 0 -> 0 < off ->
  net s (length (trace s)) (mkRequest GET url referer (RangeFrom off)) = Some res ->
  ok res = true -> has_body res = true -> status res <> 206 ->
  transfer url filePath referer sampleBytes off s
  = (Throw ErrRangeNotHonored, after_range_refusal s url filePath referer off).
Proof.
  intros Hs Hoff Hnet Hok Hbody Hst.
  unfold transfer, fetch, range_header. munfold.
  replace (sampleBytes >? 0) with false by lia.
  replace (off >? 0) with true by lia.
  rewrite Hnet. cbn. rewrite Hok, Hbody. cbn.
  replace (status res =? 206) with false by lia. cbn.
  unfold unlink, after_range_refusal. cbn.
  destruct (fault s (OpUnlink (tmpPath filePath))); cbn; [reflexivity|].
  destruct (files s !! tmpPath filePath) eqn:E; cbn; [reflexivity|].
  rewrite delete_id by exact E. reflexivity.
Qed.

(** C4 (amended).  An attempt that asked for a resume (offset > 0) and got
    a successful response with a body whose status is not 206 unlinks the
    partial file (a refusal of the unlink is swallowed), sets the remembered
    partial size to 0 and fails with the range-not-honoured error; no byte
    of the response is written and no other file changes.  The failure uses
    up exactly one iteration of the retry loop: the loop sleeps and runs
    attempt [k + 1], or rethrows when [k] was the last attempt.  When no
    completed destination file is recorded, the next attempt decides offset
    0 and sends no range header. *)
Theorem range_not_honored_restarts
    (s s1 : State) (url filePath referer : string)
    (sampleBytes maxRetries k off : Z) (fuel : nat) (res : Response) :
  decide_resumeOffset url filePath referer sampleBytes s = (Ret off, s1) ->
  0 < off ->
  net s1 (length (trace s1)) (mkRequest GET url referer (RangeFrom off)) = Some res ->
  ok res = true -> has_body res = true -> status res <> 206 ->
  let s2 := after_range_refusal s1 url filePath referer off in
  let s3 := log (EvSleep (1000 * k)) s2 in
  attempt_body url filePath referer sampleBytes s = (Throw ErrRangeNotHonored, s2)
  /\ existingTmpSize s2 = 0
  /\ (fault s1 (OpUnlink (tmpPath filePath)) = false -> files s2 !! tmpPath filePath = None)
  /\ (fault s1 (OpUnlink (tmpPath filePath)) = true -> files s2 = files s1)
  /\ (forall p, p <> tmpPath filePath -> files s2 !! p = files s1 !! p)
  /\ (k < maxRetries ->
      attempts (S fuel) k maxRetries url filePath referer sampleBytes s
      = attempts fuel (k + 1) maxRetries url filePath referer sampleBytes s3)
  /\ (maxRetries <= k ->
      attempts (S fuel) k maxRetries url filePath referer sampleBytes s
      = (Throw ErrRangeNotHonored, s2))
  /\ (existingFinalSize s1 <= 0 ->
      decide_resumeOffset url filePath referer sampleBytes s3 = (Ret 0, s3)
      /\ range_header sampleBytes 0 = RangeNone).
Proof.
  intros Hdec Hoff Hnet Hok Hbody Hst s2 s3.
  assert (Hs : sampleBytes <= 0).
  { destruct (Z_lt_le_dec 0 sampleBytes) as [Hpos|]; [|assumption].
    rewrite decide_resumeOffset_sampling in Hdec by assumption.
    injection Hdec as <- _. lia. }
  assert (Hbody' : attempt_body url filePath referer sampleBytes s
                   = (Throw ErrRangeNotHonored, s2)).
  { unfold attempt_body, bind. rewrite Hdec.
    apply (transfer_range_not_honored _ _ _ _ _ _ res); assumption. }
  split; [exact Hbody'|]. split; [reflexivity|].
  split; [|split; [|split; [|split; [|split]]]].
  - intros Hu. subst s2. unfold after_range_refusal. cbn. rewrite Hu.
    apply lookup_delete_eq.
  - intros Hu. subst s2. unfold after_range_refusal. cbn. rewrite Hu. reflexivity.
  - intros p Hp. subst s2. unfold after_range_refusal. cbn.
    destruct (fault s1 (OpUnlink (tmpPath filePath))); [reflexivity|].
    apply lookup_delete_ne. congruence.
  - intros Hk. cbn [attempts]. unfold catch. rewrite Hbody'.
    replace (k <? maxRetries) with true by lia. reflexivity.
  - intros Hk. cbn [attempts]. unfold catch. rewrite Hbody'.
    replace (k <? maxRetries) with false by lia. reflexivity.
  - intros Hfin. split.
    + rewrite decide_resumeOffset_no_final; cbn; try lia.
      destruct (sampleBytes >? 0); reflexivity.
    + unfold range_header. replace (sampleBytes >? 0) with false by lia. reflexivity.
Qed.

(** ** The pre-flight check (claim C2) *)

(** The probe does not read or write the variables of [downloadToFile]. *)
Lemma getRemoteSizeAndRanges_locals (s : State) (url referer : string)
    (efs ets : Z) (known : option RemoteInfo) :
  getRemoteSizeAndRanges url referer (with_locals efs ets known s)
  = (fst (getRemoteSizeAndRanges url referer s),
     with_locals efs ets known (snd (getRemoteSizeAndRanges url referer s))).
Proof.
  unfold getRemoteSizeAndRanges, probe_head, probe_get, fetch. munfold. cbn.
  destruct (net s (length (trace s)) _) as [r|]; cbn.
  - destruct (ok r); cbn; [reflexivity|].
    rewrite !length_app. cbn.
    destruct (net s _ _) as [r2|]; cbn; [destruct (status r2 =? 206)|]; reflexivity.
  - rewrite !length_app. cbn.
    destruct (net s _ _) as [r2|]; cbn; [destruct (status r2 =? 206)|]; reflexivity.
Qed.

(** Case analysis on the answer to the second request of the probe. *)
Ltac destruct_second_answer s :=
  match goal with
  | |- context [net s (length (trace s ++ ?l)) ?rq] =>
      let r2 := fresh "r2" in
      destruct (net s (length (trace s ++ l)) rq) as [r2|]; cbn;
      [destruct (status r2 =? 206); cbn|]
  end.

(** The probe never throws, touches no file, and sends a HEAD followed, only
    when the HEAD fails, by one GET for the single byte 0-0. *)
Lemma getRemoteSizeAndRanges_sends (s : State) (url referer : string) :
  exists ri s',
    getRemoteSizeAndRanges url referer s = (Ret ri, s')
    /\ files s' = files s
    /\ (trace s' = trace s ++ [EvFetch (head_request url referer)]
        \/ trace s' = trace s ++ [EvFetch (head_request url referer);
                                  EvFetch (probe_request url referer)])
    /\ (forall r, net s (length (trace s)) (head_request url referer) = Some r ->
                  ok r = true ->
                  trace s' = trace s ++ [EvFetch (head_request url referer)]).
Proof.
  unfold getRemoteSizeAndRanges, probe_head, probe_get, fetch, head_request, probe_request.
  munfold. cbn.
  destruct (net s (length (trace s)) _) as [r|] eqn:E1; cbn.
  - destruct (ok r) eqn:Eok; cbn.
    + do 2 eexists. split; [reflexivity|]. cbn. auto.
    + destruct_second_answer s;
        (do 2 eexists; split; [reflexivity|]; cbn; rewrite <- app_assoc; cbn;
         split; [reflexivity|]; split; [right; reflexivity|];
         intros r' Hr' Hok'; congruence).
  - destruct_second_answer s;
      (do 2 eexists; split; [reflexivity|]; cbn; rewrite <- app_assoc; cbn;
       split; [reflexivity|]; split; [right; reflexivity|];
       intros r' Hr' Hok'; congruence).
Qed.

(** C2 (amended).  A full download whose destination holds a non-empty file
    and whose probe reports a known, non-zero remote size that the local size
    meets or exceeds returns [Exists] before any attempt and leaves every file
    as it was.  The only requests sent are those of the probe: a HEAD and,
    only when the HEAD does not answer with a success status, one GET for the
    single byte 0-0.  No download GET is sent. *)
Theorem complete_file_short_circuits
    (s s1 : State) (url filePath referer : string) (maxRetries sz : Z)
    (c : list byte) (ri : RemoteInfo) :
  files s !! filePath = Some c ->
  0 < size_of c ->
  getRemoteSizeAndRanges url referer s = (Ret ri, s1) ->
  size ri = Some sz -> sz <> 0 -> sz <= size_of c ->
  exists s',
    downloadToFile url filePath referer maxRetries 0 s = (Ret Exists, s')
    /\ files s' = files s
    /\ trace s' = trace s1
    /\ (trace s' = trace s ++ [EvFetch (head_request url referer)]
        \/ trace s' = trace s ++ [EvFetch (head_request url referer);
                                  EvFetch (probe_request url referer)])
    /\ (forall r, net s (length (trace s)) (head_request url referer) = Some r ->
                  ok r = true ->
                  trace s' = trace s ++ [EvFetch (head_request url referer)]).
Proof.
  intros Hc Hpos Hprobe Hsz Hnz Hle.
  destruct (getRemoteSizeAndRanges_sends s url referer)
    as (ri' & s1' & Hprobe' & Hfiles & Htrace & Hhead).
  rewrite Hprobe in Hprobe'. injection Hprobe' as <- <-.
  unfold downloadToFile, statSync. munfold. rewrite Hc. cbn.
  replace (size_of c >? 0) with true by lia. cbn.
  change (set_remoteInfo None
            (set_existingTmpSize (default 0 (size_of <$> files s !! tmpPath filePath))
               (set_existingFinalSize (size_of c) s)))
    with (with_locals (size_of c) (default 0 (size_of <$> files s !! tmpPath filePath)) None s).
  rewrite getRemoteSizeAndRanges_locals, Hprobe. cbn.
  rewrite Hsz. cbn.
  replace (sz =? 0) with false by lia.
  replace (size_of c >=? sz) with true by lia. cbn.
  eexists. split; [reflexivity|]. cbn. auto.
Qed.

(** ** Sampling (claim C1) *)

Lemma take_served (L : Z) (data body : list byte) (brk : bool) :
  body `prefix_of` data ->
  (brk = false -> body = data \/ body = take (Z.to_nat L) data) ->
  brk = false \/ L <= size_of body ->
  take (Z.to_nat L) body = take (Z.to_nat L) data.
Proof.
  intros [k ->] Hclean Hend.
  destruct (Z_le_gt_dec L (size_of body)) as [Hle|Hgt].
  - rewrite take_app_le by sz. reflexivity.
  - destruct Hend as [Hb|]; [|lia].
    destruct (Hclean Hb) as [H|H].
    + rewrite <- H. reflexivity.
    + rewrite H at 1. rewrite take_take. f_equal. lia.
Qed.

(** What a sampling transfer puts into the file is a prefix of the first
    [L] bytes of the resource, and all of the resource when that is shorter
    than [L]. *)
Lemma sampled_prefix (L : Z) (data : list byte) (res : Response) :
  0 < L ->
  concat (chunks res) `prefix_of` data ->
  (breaks res = false ->
   concat (chunks res) = data \/ concat (chunks res) = take (Z.to_nat L) data) ->
  breaks res = false \/ L <= size_of (concat (chunks res)) ->
  sampled L res `prefix_of` take (Z.to_nat L) data
  /\ (size_of data < L -> sampled L res = data)
  /\ (Z.to_nat L <= flushed res -> sampled L res = take (Z.to_nat L) data)%nat.
Proof.
  intros HL Hpre Hclean Hend.
  pose proof (take_served L data _ _ Hpre Hclean Hend) as Htake.
  assert (Hsize : size_of (concat (chunks res)) <= size_of data).
  { destruct Hpre as [k ->]. rewrite size_of_app. sz. }
  unfold sampled. rewrite Htake.
  destruct (size_of (concat (chunks res)) >=? L) eqn:Eh.
  - split; [|split].
    + exists (drop (flushed res) (take (Z.to_nat L) data)). symmetry. apply take_drop.
    + intros Hshort. lia.
    + intros Hall. apply take_ge. rewrite length_take. lia.
  - split; [|split]; [reflexivity | | reflexivity].
    intros Hshort. apply take_ge. sz.
Qed.

(** A sampling attempt whose stream breaks before the limit fails. *)
Lemma transfer_sampling_broken (s : State) (url filePath referer : string)
    (L : Z) (res : Response) :
  0 < L ->
  net s (length (trace s)) (mkRequest GET url referer (range_header L 0)) = Some res ->
  ok res = true -> has_body res = true ->
  fault s (OpMkdir filePath) = false ->
  fault s (OpOpenWrite (tmpPath filePath)) = false ->
  breaks res = true -> size_of (concat (chunks res)) < L ->
  transfer url filePath referer L 0 s
  = (Throw ErrStream, after_transfer s url filePath referer L 0 res).
Proof.
  intros HL Hnet Hok Hbody Hmk Hop Hbrk Hshort.
  unfold transfer, fetch. munfold. rewrite Hnet. cbn.
  rewrite Hok, Hbody. cbn.
  unfold mkdir_parent, createWriteStream. cbn. rewrite Hmk. cbn. rewrite Hop. cbn.
  unfold pipeline, write, after_transfer, written, sampled. munfold.
  replace (L >? 0) with true by lia. cbn.
  destruct (feed_until_limit_ok (chunks res) (ByteLimit_new L))
    as (bl' & Hfeed); [apply ByteLimit_new_ok; lia|].
  rewrite Hfeed. cbn. rewrite Z.sub_0_r, Z.add_0_l.
  replace (size_of (concat (chunks res)) >=? L) with false by lia. cbn.
  rewrite lookup_insert_eq, insert_insert_eq. cbn.
  rewrite Hbrk. reflexivity.
Qed.

(** One sampling attempt: it leaves the world's answers and refusals as
    they were, and if it returns, it returns [Downloaded] with a prefix of
    the first [L] bytes of the resource at the destination. *)
Lemma sampling_attempt (s : State) (url filePath referer : string)
    (L : Z) (data : list byte) :
  0 < L ->
  fault s (OpRename (tmpPath filePath) filePath) = false ->
  serves (net s) L data ->
  exists r s',
    attempt_body url filePath referer L s = (r, s')
    /\ net s' = net s /\ fault s' = fault s
    /\ (forall o, r = Ret o ->
          o = Downloaded
          /\ exists c, files s' !! filePath = Some c /\ sample_of L data c).
Proof.
  intros HL Hren Hsrv.
  unfold attempt_body, bind. rewrite decide_resumeOffset_sampling by assumption.
  destruct (net s (length (trace s)) (mkRequest GET url referer (range_header L 0)))
    as [res|] eqn:Hnet.
  2:{ unfold transfer, fetch. munfold. rewrite Hnet.
      do 2 eexists. split; [reflexivity|]. cbn. repeat split; discriminate. }
  destruct (ok res && has_body res) eqn:Egood.
  2:{ unfold transfer, fetch. munfold. rewrite Hnet. cbn.
      replace (negb (ok res) || negb (has_body res)) with true
        by (destruct (ok res), (has_body res); done).
      do 2 eexists. split; [reflexivity|]. cbn. repeat split; discriminate. }
  apply andb_prop in Egood as [Hok Hbody].
  destruct (fault s (OpMkdir filePath)) eqn:Hmk.
  { unfold transfer, fetch. munfold. rewrite Hnet. cbn. rewrite Hok, Hbody. cbn.
    unfold mkdir_parent. cbn. rewrite Hmk.
    do 2 eexists. split; [reflexivity|]. cbn. repeat split; discriminate. }
  destruct (fault s (OpOpenWrite (tmpPath filePath))) eqn:Hop.
  { unfold transfer, fetch. munfold. rewrite Hnet. cbn. rewrite Hok, Hbody. cbn.
    unfold mkdir_parent, createWriteStream. cbn. rewrite Hmk. cbn. rewrite Hop.
    do 2 eexists. split; [reflexivity|]. cbn. repeat split; discriminate. }
  destruct (Hsrv _ _ _ Hnet Hok Hbody) as [Hpre Hclean].
  assert (Hdone : breaks res = false \/ L <= size_of (concat (chunks res)) ->
            exists r s',
              transfer url filePath referer L 0 s = (r, s')
              /\ net s' = net s /\ fault s' = fault s
              /\ (forall o, r = Ret o ->
                    o = Downloaded
                    /\ exists c, files s' !! filePath = Some c /\ sample_of L data c)).
  { intros Hend.
    rewrite (transfer_finalizes _ _ _ _ _ _ res); try assumption;
      [|reflexivity | destruct Hend; auto].
    set (s1 := after_transfer s url filePath referer L 0 res).
    destruct (finalize_renamed filePath s1 (written s filePath L 0 res))
      as (s' & Hfin & Hdest & _); [assumption | subst s1; cbn; apply lookup_insert_eq |].
    destruct (finalize_returns filePath s1) as (s'' & Hfin' & _ & Hfault & Hnet' & _).
    rewrite Hfin in Hfin'. injection Hfin' as <-.
    exists (Ret Downloaded), s'. repeat split; try assumption; try congruence.
    exists (sampled L res). split.
    - rewrite Hdest. unfold written. replace (L >? 0) with true by lia. reflexivity.
    - destruct (sampled_prefix L data res HL Hpre Hclean Hend) as (Hp & Hs & _).
      split; assumption. }
  destruct (breaks res) eqn:Hbrk;
    [destruct (Z_le_gt_dec L (size_of (concat (chunks res)))) as [Hle|Hgt]|].
  - apply Hdone. right. exact Hle.
  - (* the stream breaks before the limit *)
    rewrite (transfer_sampling_broken _ _ _ _ _ res); try assumption; [|lia].
    do 2 eexists. split; [reflexivity|]. cbn. repeat split; discriminate.
  - apply Hdone. left. reflexivity.
Qed.

(** The retry loop in sampling mode: whichever attempt returns, the
    destination then holds a prefix of the first [L] bytes of the resource. *)
Lemma sampling_attempts (url filePath referer : string) (maxRetries L : Z)
    (data : list byte) (fuel : nat) :
  0 < L ->
  forall (k : Z) (s s' : State),
    fault s (OpRename (tmpPath filePath) filePath) = false ->
    serves (net s) L data ->
    attempts fuel k maxRetries url filePath referer L s = (Ret Downloaded, s') ->
    exists c, files s' !! filePath = Some c /\ sample_of L data c.
Proof.
  intros HL. induction fuel as [|fuel IH]; intros k s s' Hren Hsrv Hrun.
  - cbn in Hrun. discriminate.
  - cbn [attempts] in Hrun. unfold catch in Hrun.
    destruct (sampling_attempt s url filePath referer L data HL Hren Hsrv)
      as (r & s1 & Hatt & Hnet & Hfault & Hret).
    rewrite Hatt in Hrun. destruct r as [o|e].
    + injection Hrun as -> <-. apply (Hret Downloaded eq_refl).
    + destruct (k <? maxRetries); [|discriminate].
      unfold sleep, bind, modify in Hrun.
      apply IH in Hrun; [assumption | |]; cbn.
      * rewrite Hfault. exact Hren.
      * rewrite Hnet. exact Hsrv.
Qed.

(** What does hold of a download with sample limit [L > 0] of a resource
    [data], when the destination holds no completed file and the rename to
    the destination is not refused: the limiter, fed the body in any split,
    lets through exactly its first [L] bytes and raises the stop signal
    exactly when the body reaches [L] bytes; an attempt whose stream ends
    cleanly or is stopped by the limit ends the download with [Downloaded];
    and the destination then holds a prefix of the first [L] bytes of the
    resource, the whole resource when it is shorter than [L]. *)
Lemma sampling_keeps_a_prefix
    (s : State) (url filePath referer : string) (maxRetries L : Z) (data : list byte) :
  0 < L ->
  default 0 (statSync filePath s) = 0 ->
  fault s (OpRename (tmpPath filePath) filePath) = false ->
  serves (net s) L data ->
  (forall cs : list chunk, exists bl',
      feed_all (ByteLimit_new L) cs
      = (take (Z.to_nat L) (concat cs), bl', size_of (concat cs) >=? L))
  /\ (forall s',
        downloadToFile url filePath referer maxRetries L s = (Ret Downloaded, s') ->
        exists c, files s' !! filePath = Some c /\ sample_of L data c)
  /\ (forall res,
        1 <= maxRetries ->
        net s (length (trace s)) (mkRequest GET url referer (RangeSpan 0 (L - 1))) = Some res ->
        ok res = true -> has_body res = true ->
        fault s (OpMkdir filePath) = false ->
        fault s (OpOpenWrite (tmpPath filePath)) = false ->
        (breaks res = false \/ L <= size_of (concat (chunks res))) ->
        exists s',
          downloadToFile url filePath referer maxRetries L s = (Ret Downloaded, s')
          /\ trace s' = trace s ++ [EvFetch (mkRequest GET url referer (RangeSpan 0 (L - 1)))]
          /\ files s' !! filePath = Some (sampled L res)).
Proof.
  intros HL H0 Hren Hsrv. split; [|split].
  - intros cs.
    destruct (feed_all_ok cs (ByteLimit_new L) (ByteLimit_new_ok L HL))
      as (bl' & Hfeed & _).
    exists bl'. rewrite Hfeed. cbn. rewrite Z.sub_0_r. reflexivity.
  - intros s' Hrun. rewrite downloadToFile_no_final in Hrun by assumption.
    apply (sampling_attempts _ _ _ _ _ data) in Hrun; assumption.
  - intros res Hmax Hnet Hok Hbody Hmk Hop Hend.
    rewrite downloadToFile_no_final by assumption.
    destruct (Z.to_nat maxRetries) as [|fuel] eqn:Efuel; [lia|].
    set (s0 := at_loop_start s filePath).
    assert (Hrange : range_header L 0 = RangeSpan 0 (L - 1)).
    { unfold range_header. replace (L >? 0) with true by lia. f_equal. lia. }
    rewrite (attempt_downloaded s0 s0 _ _ _ _ _ _ 0 _ res);
      try assumption; try reflexivity.
    + set (s1 := after_transfer s0 url filePath referer L 0 res).
      destruct (finalize_renamed filePath s1 (written s0 filePath L 0 res))
        as (s' & Hfin & Hdest & _ & Htr);
        [assumption | subst s1; cbn; apply lookup_insert_eq |].
      exists s'. split; [exact Hfin|]. split.
      * rewrite Htr. subst s1. cbn. rewrite Hrange. reflexivity.
      * rewrite Hdest. unfold written. replace (L >? 0) with true by lia. reflexivity.
    + apply decide_resumeOffset_sampling. assumption.
    + rewrite Hrange. exact Hnet.
    + destruct Hend; [left; assumption | right; lia].
Qed.

(** ** What holds of the partial file (around claim C3) *)

(** The first attempt of a full download resumes at the length of the
    partial file. *)
Lemma first_offset_is_partial_length (s : State) (url filePath referer : string)
    (sampleBytes : Z) (c : list byte) :
  sampleBytes <= 0 ->
  default 0 (statSync filePath s) = 0 ->
  files s !! tmpPath filePath = Some c ->
  decide_resumeOffset url filePath referer sampleBytes (at_loop_start s filePath)
  = (Ret (size_of c), at_loop_start s filePath).
Proof.
  intros Hs H0 Hc.
  rewrite decide_resumeOffset_no_final; cbn; [|lia|apply statSync_nonneg].
  replace (sampleBytes >? 0) with false by lia.
  unfold statSync. rewrite Hc. reflexivity.
Qed.

(** A full-download attempt whose stream breaks fails and keeps the partial
    file, with the bytes received so far appended; nothing is deleted. *)
Lemma broken_stream_keeps_partial (s : State) (url filePath referer : string)
    (sampleBytes off : Z) (res : Response) :
  sampleBytes <= 0 ->
  net s (length (trace s)) (mkRequest GET url referer (range_header sampleBytes off)) = Some res ->
  ok res = true -> has_body res = true ->
  (off >? 0) && negb (status res =? 206) = false ->
  fault s (OpMkdir filePath) = false ->
  fault s (OpOpenWrite (tmpPath filePath)) = false ->
  breaks res = true ->
  transfer url filePath referer sampleBytes off s
  = (Throw ErrStream, after_transfer s url filePath referer sampleBytes off res).
Proof.
  intros Hs Hnet Hok Hbody Hrange Hmk Hop Hbrk.
  unfold transfer, fetch. munfold. rewrite Hnet. cbn.
  rewrite Hok, Hbody, Hrange. cbn.
  unfold mkdir_parent, createWriteStream. cbn. rewrite Hmk. cbn. rewrite Hop. cbn.
  unfold pipeline, write, after_transfer, written. munfold.
  replace (sampleBytes >? 0) with false by lia. cbn.
  rewrite Hbrk. cbn. rewrite lookup_insert_eq, insert_insert_eq. reflexivity.
Qed.

(** The [catch] of the loop changes no file: it sleeps and goes on, or
    rethrows. *)
Lemma failed_attempt_keeps_files (s s1 : State) (url filePath referer : string)
    (sampleBytes maxRetries k : Z) (fuel : nat) (e : Error) :
  attempt_body url filePath referer sampleBytes s = (Throw e, s1) ->
  (k < maxRetries ->
   attempts (S fuel) k maxRetries url filePath referer sampleBytes s
   = attempts fuel (k + 1) maxRetries url filePath referer sampleBytes
       (log (EvSleep (1000 * k)) s1))
  /\ (maxRetries <= k ->
      attempts (S fuel) k maxRetries url filePath referer sampleBytes s = (Throw e, s1))
  /\ files (log (EvSleep (1000 * k)) s1) = files s1.
Proof.
  intros Hatt. cbn [attempts]. unfold catch. rewrite Hatt. repeat split.
  - intros Hk. replace (k <? maxRetries) with true by lia. reflexivity.
  - intros Hk. replace (k <? maxRetries) with false by lia. reflexivity.
Qed.

(** ** The statements at concrete worlds *)

(** C1 (the code departs from the claim).  The limiter lets through exactly
    the first [L] bytes and raises its signal when they have passed, and the
    stop is finalized as [Downloaded]; but its callback destroys the source
    in the same call, the pipeline is torn down with the write stream, and
    the bytes that stream had not yet put into the file are lost.  Here the
    server honours the range and sends the three bytes asked for.  When they
    come as one chunk and none is in the file at the stop, the destination
    is left with 0 bytes; when they come as two chunks and the first is in
    the file, with 2 bytes; only when all three were flushed in time does it
    hold the 3 bytes the claim promises. *)
Theorem sampling_drops_unflushed_bytes :
  feed_until_limit (ByteLimit_new 3) [[b1; b2; b3]]
  = ([b1; b2; b3], {| limit := 3; seen := 3; _hit := true |}, true)
  /\
  (let '(r, s') := downloadToFile "u" "f" "ref" 3 3 (sampling_world [[b1; b2; b3]] 0) in
   r = Ret Downloaded
   /\ trace s' = [EvFetch (mkRequest GET "u" "ref" (RangeSpan 0 2))]
   /\ files s' !! "f" = Some []
   /\ files s' !! "f" <> Some (take 3 resource))
  /\
  (let '(r, s') := downloadToFile "u" "f" "ref" 3 3 (sampling_world [[b1; b2]; [b3]] 2) in
   r = Ret Downloaded
   /\ files s' !! "f" = Some [b1; b2]
   /\ files s' !! "f" <> Some (take 3 resource))
  /\
  (let '(r, s') := downloadToFile "u" "f" "ref" 3 3 (sampling_world [[b1; b2]; [b3]] 3) in
   r = Ret Downloaded
   /\ files s' !! "f" = Some (take 3 resource)).
Proof. vm_compute. repeat split; discriminate. Qed.

Lemma complete_file_short_circuits_witness :
  exists s',
    downloadToFile "u" "f" "ref" 3 0 complete_world = (Ret Exists, s')
    /\ files s' = files complete_world
    /\ trace s' = [EvFetch (head_request "u" "ref")].
Proof.
  destruct (complete_file_short_circuits complete_world
              (log (EvFetch (head_request "u" "ref")) complete_world)
              "u" "f" "ref" 3 3 [b1; b2; b3]
              {| size := Some 3; acceptRanges := true |})
    as (s' & Hrun & Hfiles & Htrace & _);
    [reflexivity | reflexivity | reflexivity | reflexivity | discriminate
    | discriminate |].
  exists s'. split; [exact Hrun|]. split; [exact Hfiles | exact Htrace].
Defined.

(** C2, as stated, fails in two ways.  When the HEAD of the probe is refused,
    the probe falls back to a GET for one byte, so [Exists] is returned after
    a GET was sent.  When the probe reports size 0, the size counts as
    unknown: a local file at least as large does not stop the download. *)
Lemma complete_file_probe_sends_get :
  (let '(r, s') := downloadToFile "u" "f" "ref" 2 0 head_refused_world in
   statSync "f" head_refused_world = Some 3
   /\ fst (getRemoteSizeAndRanges "u" "ref" head_refused_world)
      = Ret {| size := Some 3; acceptRanges := true |}
   /\ r = Ret Exists
   /\ trace s' = [EvFetch (head_request "u" "ref"); EvFetch (probe_request "u" "ref")]
   /\ rq_method (probe_request "u" "ref") = GET)
  /\
  (let '(r, s') := downloadToFile "u" "f" "ref" 2 0 zero_length_world in
   statSync "f" zero_length_world = Some 2
   /\ fst (getRemoteSizeAndRanges "u" "ref" zero_length_world)
      = Ret {| size := Some 0; acceptRanges := false |}
   /\ r = Ret Downloaded
   /\ trace s' = [EvFetch (head_request "u" "ref");
                  EvFetch (mkRequest GET "u" "ref" RangeNone)]).
Proof. vm_compute. repeat split. Qed.

Lemma range_not_honored_restarts_witness :
  attempt_body "u" "f" "ref" 0 ignoring_world
  = (Throw ErrRangeNotHonored, after_range_refusal ignoring_world "u" "f" "ref" 2)
  /\ files (after_range_refusal ignoring_world "u" "f" "ref" 2) !! "f.part" = None.
Proof.
  destruct (range_not_honored_restarts ignoring_world ignoring_world
              "u" "f" "ref" 0 3 1 2 2%nat whole_body)
    as (Hthrow & _ & Hgone & _);
    [reflexivity | reflexivity | reflexivity | reflexivity | reflexivity
    | discriminate |].
  split; [exact Hthrow | exact (Hgone eq_refl)].
Defined.

(** C4, as stated, fails in two ways.  A resume request answered with a
    status that is neither 206 nor a success (here 500) fails the attempt
    before the range check: the partial file stays and the next attempt asks
    for the same offset again.  And when a non-empty destination file exists
    next to the partial file, the attempt after a refused range moves the
    destination into the partial slot and resumes from its size (here 1)
    instead of starting from byte 0. *)
Lemma range_refusal_limits :
  (let '(r, s') := downloadToFile "u" "f" "ref" 2 0 failing_world in
   r = Throw (ErrHttp 500)
   /\ files s' !! "f.part" = Some [b1; b2]
   /\ trace s' = [EvFetch (mkRequest GET "u" "ref" (RangeFrom 2));
                  EvSleep 1000;
                  EvFetch (mkRequest GET "u" "ref" (RangeFrom 2))])
  /\
  (let '(r, s') := downloadToFile "u" "f" "ref" 3 0 both_files_world in
   r = Ret Downloaded
   /\ trace s' = [EvFetch (head_request "u" "ref");
                  EvFetch (mkRequest GET "u" "ref" (RangeFrom 2));
                  EvSleep 1000;
                  EvFetch (mkRequest GET "u" "ref" (RangeFrom 1));
                  EvSleep 2000;
                  EvFetch (mkRequest GET "u" "ref" RangeNone)]).
Proof. vm_compute. repeat split. Qed.



(** C3 (the code departs from the claim).  [existingTmpSize] is read once,
    before the retry loop.  In the first run the partial file holds 2 bytes,
    the first attempt resumes at offset 2 and appends 1 byte before its stream
    breaks: the partial file now holds 3 bytes, but the second attempt again
    decides offset 2, asks for [bytes=2-] and appends the answer.  The
    destination ends up with byte 3 twice, 7 bytes for a resource of 6.  In
    the second run there is no partial file at the start; after the first
    attempt broke, the partial file holds 2 bytes, and the second attempt
    decides offset 0 and sends no range header. *)
Theorem stale_resume_offset :
  (let s0 := at_loop_start flaky_world "f" in
   let '(r1, s1) := attempt_body "u" "f" "ref" 0 s0 in
   r1 = Throw ErrStream
   /\ files s1 !! "f.part" = Some [b1; b2; b3]
   /\ fst (decide_resumeOffset "u" "f" "ref" 0 (log (EvSleep 1000) s1)) = Ret 2)
  /\
  (let '(r, s') := downloadToFile "u" "f" "ref" 3 0 flaky_world in
   r = Ret Downloaded
   /\ trace s' = [EvFetch (mkRequest GET "u" "ref" (RangeFrom 2));
                  EvSleep 1000;
                  EvFetch (mkRequest GET "u" "ref" (RangeFrom 2))]
   /\ files s' !! "f" = Some [b1; b2; b3; b3; b4; b5; b6]
   /\ files s' !! "f" <> Some resource)
  /\
  (let s0 := at_loop_start restart_world "f" in
   let '(r1, s1) := attempt_body "u" "f" "ref" 0 s0 in
   r1 = Throw ErrStream
   /\ files s1 !! "f.part" = Some [b1; b2]
   /\ fst (decide_resumeOffset "u" "f" "ref" 0 (log (EvSleep 1000) s1)) = Ret 0).
Proof. vm_compute. repeat split. discriminate. Qed.

End DownloadFacts.

(** * Facts about session acquisition *)
Module SessionFacts.
Import Session.

Ltac munfold :=
  unfold bind, ret, throw, try_, catch, gets, modify in *.

Section Facts.
Context `{Runtime}.

Lemma cookie_header_override (COOKIE : string) :
  override_present COOKIE = true ->
  cookie_header COOKIE (JStr COOKIE) = Some (JStr COOKIE).
Proof.
  unfold override_present, cookie_header, js_or. cbn.
  intros [H1 H2]%andb_prop. rewrite H1. cbn. rewrite H1, H2. reflexivity.
Qed.

Lemma is_authenticated_truthy (core : JValue) :
  is_authenticated core = true -> truthy core = true.
Proof. destruct core; cbn; intros; try discriminate; reflexivity. Qed.

(** C8.  When an override cookie is present and verifies, [prepareSession]
    returns at step 1 with source [env] and that cookie as the active
    session, whatever the session file holds: the only event of the run is
    the verification request, no file is read or written. *)
Theorem override_wins (COOKIE : string) (a : Args) (s : State) (profile : JValue) :
  override_present COOKIE = true ->
  core_data s (length (trace s)) (Some (JStr COOKIE))
    (if String.eqb (courseUrl a) "" then ORIGIN else courseUrl a) = Some profile ->
  is_authenticated profile = true ->
  exists s',
    prepareSession COOKIE a s = (Ret (mkPrepared profile SrcEnv), s')
    /\ ACTIVE_COOKIE s' = JStr COOKIE
    /\ files s' = files s
    /\ trace s' = trace s ++ [EvCoreData (Some (JStr COOKIE))
                                (if String.eqb (courseUrl a) "" then ORIGIN else courseUrl a)].
Proof.
  intros Hover Hcore Hauth.
  unfold prepareSession, try_override, verify, fetchCoreData. munfold.
  rewrite Hover. cbn.
  pose proof Hover as [H1 H2]%andb_prop. rewrite H1. cbn.
  rewrite (cookie_header_override COOKIE Hover), Hcore. cbn.
  rewrite Hauth. cbn. rewrite (is_authenticated_truthy _ Hauth).
  eexists. split; [reflexivity|]. cbn. auto.
Qed.

(** C9.  [readSessionFile] never throws.  A file that cannot be read or does
    not parse gives null; a parsed value with a [users] entry is returned as
    it is; a parsed value without one whose [cookie] is a string is upgraded
    to a record whose only user is [default], with that cookie, and whose
    [lastUsed] is [default]. *)
Theorem readSessionFile_fails_soft (file : string) (s : State) :
  (exists v s', readSessionFile file s = (Ret v, s'))
  /\ (refused s (OpRead file) = true \/ files s !! file = None ->
      fst (readSessionFile file s) = Ret JNull)
  /\ (forall txt,
        refused s (OpRead file) = false -> files s !! file = Some txt ->
        (JSON_parse txt = None -> fst (readSessionFile file s) = Ret JNull)
        /\ (forall data,
              JSON_parse txt = Some data ->
              (truthy (js_get data "users") = true ->
               fst (readSessionFile file s) = Ret data)
              /\ (forall c,
                    truthy (js_get data "users") = false ->
                    js_get data "cookie" = JStr c ->
                    exists v,
                      fst (readSessionFile file s) = Ret v
                      /\ v = upgraded c
                               (js_or (js_get data "updated")
                                  (JStr (clock s (length (trace s ++ [EvReadFile file])))))
                      /\ js_get (js_get (js_get v "users") "default") "cookie" = JStr c
                      /\ js_get v "lastUsed" = JStr "default"))).
Proof.
  unfold readSessionFile, readSessionFile_try, readFile, now. munfold.
  split; [|split].
  - destruct (refused s (OpRead file)); cbn; [eauto|].
    destruct (files s !! file) as [txt|]; cbn; [|eauto].
    destruct (JSON_parse txt) as [data|]; cbn; [|eauto].
    destruct (truthy data && truthy (js_get data "users")); cbn; [eauto|].
    destruct (js_get data "cookie"); cbn; eauto.
    destruct (truthy data); cbn; eauto.
  - intros [-> | ->]; cbn; [reflexivity|].
    destruct (refused s (OpRead file)); reflexivity.
  - intros txt -> ->. cbn. split.
    + intros ->. reflexivity.
    + intros data ->. cbn. split.
      * intros Hu. rewrite Hu.
        assert (truthy data = true) as ->
            by (destruct data; cbn in Hu; try discriminate; reflexivity).
        reflexivity.
      * intros c Hu Hc. rewrite Hu, andb_false_r, Hc.
        assert (truthy data = true) as ->
            by (destruct data; cbn in Hc; try discriminate; reflexivity).
        cbn. eexists. split; [reflexivity|]. cbn. auto.
Qed.

(** The login steps never touch [ACTIVE_COOKIE]: it is assigned on line
    567 only, after every check. *)
Ltac case_all :=
  repeat match goal with
         | |- context [match ?x with _ => _ end] => destruct x eqn:?; cbn
         end.

Lemma obtain_csrf_active (s : State) :
  ACTIVE_COOKIE (snd (obtain_csrf s)) = ACTIVE_COOKIE s.
Proof.
  unfold obtain_csrf, rawRequest. munfold.
  destruct (raw s (length (trace s)) login_page_request) as [r|]; cbn; [|reflexivity].
  destruct (truthy (get_or_null "csrftoken" (applySetCookie (set_cookie r) []))) eqn:E;
    cbn.
  - rewrite E. cbn. destruct (has_slice _); reflexivity.
  - destruct (raw s _ core_data_request) as [r2|]; cbn; [|reflexivity].
    destruct (negb (truthy _)); cbn; [reflexivity|].
    destruct (negb (has_slice _)); reflexivity.
Qed.

Lemma check_active_user_active (email : string) (store : CookieStore) (csrf : JValue)
    (s : State) :
  ACTIVE_COOKIE (snd (check_active_user email store csrf s)) = ACTIVE_COOKIE s.
Proof.
  unfold check_active_user, rawRequest. munfold.
  destruct (raw s _ _) as [r|]; cbn; [|reflexivity].
  destruct (JSON_parse (raw_body r)) as [j|]; cbn; [|reflexivity].
  destruct (negb (truthy j)); cbn; [reflexivity|].
  destruct (negb (is_string (js_get j "status") "success")); cbn; [reflexivity|].
  destruct (negb (is_string (js_get j "message") "get-pass")); reflexivity.
Qed.

Lemma login_authentication_sends (email password : string) (store : CookieStore)
    (csrf : JValue) (s : State) :
  ACTIVE_COOKIE (snd (login_authentication email password store csrf s)) = ACTIVE_COOKIE s
  /\ trace (snd (login_authentication email password store csrf s))
     = trace s ++ [EvRaw (login_request email password store csrf)].
Proof.
  unfold login_authentication, rawRequest. munfold.
  destruct (raw s _ _) as [r|]; cbn; [|auto].
  destruct (JSON_parse (raw_body r)) as [j|]; cbn; [|auto].
  destruct (negb (truthy j)); cbn; [auto|].
  destruct (negb (is_string (js_get j "status") "success")); cbn; auto.
Qed.

Lemma compose_cookie_trace (store : CookieStore) (csrf : JValue) (s : State) :
  trace (snd (compose_cookie store csrf s)) = trace s.
Proof.
  unfold compose_cookie. munfold.
  destruct (negb (truthy (get_or_null "sessionid" store))); reflexivity.
Qed.

Lemma login_steps_active (email password : string) (s : State) :
  ACTIVE_COOKIE (snd (login_steps email password s)) = ACTIVE_COOKIE s.
Proof.
  unfold login_steps.
  destruct (String.eqb email "" || String.eqb password ""); [reflexivity|].
  unfold bind at 1.
  pose proof (obtain_csrf_active s) as H0.
  destruct (obtain_csrf s) as [[[store csrf]|e] s1]; cbn in *; [|exact H0].
  unfold bind at 1.
  pose proof (check_active_user_active email store csrf s1) as H1.
  destruct (check_active_user email store csrf s1) as [[store1|e] s2]; cbn in *;
    [|congruence].
  unfold bind at 1.
  pose proof (login_authentication_sends email password store1 csrf s2) as [H2 _].
  destruct (login_authentication email password store1 csrf s2) as [[store2|e] s3];
    cbn in *; congruence.
Qed.


Lemma eqb_empty_false (x : string) : x <> "" -> String.eqb x "" = false.
Proof. intros Hx. apply String.eqb_neq. exact Hx. Qed.


(** C7.  When both POST steps reported success, the login fails with the
    missing-session-cookie error if the jar holds no [sessionid] cookie (or
    holds it with an empty value, which the source does not tell from a
    missing one); otherwise [ACTIVE_COOKIE] becomes exactly
    [csrftoken=...; sessionid=...], built from the CSRF cookie of the jar (or
    the token, when the jar has none) and the session cookie: no other cookie
    of the jar appears in it. *)
Theorem session_cookie_composed (email password : string) (s s3 : State)
    (store : CookieStore) (csrf : JValue) :
  login_steps email password s = (Ret (store, csrf), s3) ->
  (get "sessionid" store = None \/ get "sessionid" store = Some "" ->
   loginWithCredentialsInline email password s = (Throw ErrSessionCookieMissing, s3)
   /\ kind_of ErrSessionCookieMissing = Some no_session_cookie
   /\ ACTIVE_COOKIE s3 = ACTIVE_COOKIE s)
  /\ (forall sid,
        get "sessionid" store = Some sid -> sid <> "" ->
        let tok := match get "csrftoken" store with
                   | Some t => if String.eqb t "" then js_String csrf else t
                   | None => js_String csrf
                   end in
        loginWithCredentialsInline email password s
        = (Ret true,
           set_ACTIVE_COOKIE (JStr ("csrftoken=" +:+ tok +:+ "; sessionid=" +:+ sid)) s3)).
Proof.
  intros Hsteps.
  assert (Hactive : ACTIVE_COOKIE s3 = ACTIVE_COOKIE s).
  { pose proof (login_steps_active email password s) as Ha.
    rewrite Hsteps in Ha. exact Ha. }
  unfold loginWithCredentialsInline, bind. rewrite Hsteps. cbn [fst snd].
  unfold compose_cookie, get_or_null, js_or. munfold. split.
  - intros [-> | ->]; cbn; auto.
  - intros sid -> Hsid. cbn. rewrite (eqb_empty_false _ Hsid). cbn.
    destruct (get "csrftoken" store) as [t|]; cbn;
      [destruct (String.eqb t "") eqn:Et; cbn; rewrite ?Et; cbn|];
      rewrite ?(eqb_empty_false _ Hsid); reflexivity.
Qed.

(** ** The fresh-login step where its guard lets it run (around claim C5) *)

Lemma assoc_get_set (k : string) (v : JValue) (fields : list (string * JValue)) :
  assoc_get k (assoc_set k v fields) = v.
Proof.
  induction fields as [|[k' v'] rest IH]; cbn.
  - rewrite String.eqb_refl. reflexivity.
  - destruct (String.eqb k k') eqn:E; cbn.
    + rewrite String.eqb_refl. reflexivity.
    + rewrite E. exact IH.
Qed.

Lemma assoc_get_set_other (k k' : string) (v : JValue) (fields : list (string * JValue)) :
  k' <> k -> assoc_get k' (assoc_set k v fields) = assoc_get k' fields.
Proof.
  intros Hne. apply String.eqb_neq in Hne.
  induction fields as [|[k0 v0] rest IH]; cbn.
  - rewrite Hne. reflexivity.
  - destruct (String.eqb k k0) eqn:E; cbn.
    + apply String.eqb_eq in E. subst k0. rewrite Hne. reflexivity.
    + destruct (String.eqb k' k0); [reflexivity | exact IH].
Qed.

(** A login that returns has set [ACTIVE_COOKIE] to a non-empty string. *)
Lemma login_sets_cookie (email password : string) (s s1 : State) (b : bool) :
  loginWithCredentialsInline email password s = (Ret b, s1) ->
  truthy (ACTIVE_COOKIE s1) = true.
Proof.
  unfold loginWithCredentialsInline, bind.
  destruct (login_steps email password s) as [[[store csrf]|e] s3]; [|discriminate].
  cbn [fst snd]. unfold compose_cookie. munfold.
  destruct (negb (truthy (get_or_null "sessionid" store))); [discriminate|].
  intros Heq. injection Heq as _ <-. reflexivity.
Qed.

(** Step 3 when [ACTIVE_COOKIE] is empty or [forceLogin] is set: the login
    runs, the cookie is written to the session file and verification is
    tried once more; success gives the verified profile. *)
Lemma fresh_login_verified (COOKIE : string) (a : Args) (sessionData profile : JValue)
    (s s1 s2 s3 : State) :
  desiredUserKey a <> "" -> userPassword a <> "" -> sessionFile a <> "" ->
  (truthy (ACTIVE_COOKIE s) = false \/ forceLogin a = true) ->
  loginWithCredentialsInline (userEmail a) (userPassword a) s = (Ret true, s1) ->
  writeSessionFileMulti (sessionFile a) (userEmail a) (ACTIVE_COOKIE s1) sessionData s1
  = (Ret tt, s2) ->
  verify COOKIE a s2 = (Ret profile, s3) ->
  truthy profile = true ->
  try_fresh_login COOKIE a sessionData s = (Ret (Some profile), s3).
Proof.
  intros Hkey Hpw Hfile Hguard Hlogin Hwrite Hverify Hprofile.
  unfold try_fresh_login. munfold.
  rewrite (eqb_empty_false _ Hkey), (eqb_empty_false _ Hpw). cbn.
  replace (negb (truthy (ACTIVE_COOKIE s)) || forceLogin a) with true
    by (destruct Hguard as [-> | ->]; [reflexivity | apply eq_sym, orb_true_r]).
  rewrite Hlogin. rewrite (login_sets_cookie _ _ _ _ _ Hlogin).
  rewrite (eqb_empty_false _ Hfile). cbn [andb negb].
  rewrite Hwrite, Hverify, Hprofile. reflexivity.
Qed.

End Facts.

(** ** The statements at concrete worlds *)

Lemma COOKIE_init_env :
  @COOKIE_init toy_runtime (Some "  csrftoken=tok; sessionid=new ") None (fun _ => None)
  = fresh_cookie
  /\ @COOKIE_init toy_runtime None (Some "cookie.txt")
       (fun _ => Some " csrftoken=tok; sessionid=new ") = fresh_cookie
  /\ @COOKIE_init toy_runtime None (Some "cookie.txt") (fun _ => None) = PLACEHOLDER
  /\ @COOKIE_init toy_runtime (Some "   ") None (fun _ => None) = PLACEHOLDER.
Proof. vm_compute. repeat split. Qed.

Lemma override_wins_witness :
  exists s',
    @prepareSession toy_runtime override_cookie credentials
      (site {[ "session.json" := "legacy" ]})
    = (Ret (mkPrepared authenticated SrcEnv), s')
    /\ ACTIVE_COOKIE s' = JStr fresh_cookie
    /\ trace s' = [EvCoreData (Some (JStr fresh_cookie)) ORIGIN].
Proof.
  destruct (@override_wins toy_runtime override_cookie credentials
              (site {[ "session.json" := "legacy" ]}) authenticated)
    as (s' & Hrun & Hactive & _ & Htrace);
    [reflexivity | reflexivity | reflexivity |].
  exists s'. split; [exact Hrun|]. split; [exact Hactive | exact Htrace].
Defined.

Lemma readSessionFile_fails_soft_witness :
  fst (@readSessionFile toy_runtime "session.json" (site {[ "session.json" := "legacy" ]}))
  = Ret (upgraded "sessionid=old" (JStr "now"))
  /\ fst (@readSessionFile toy_runtime "session.json" (site ∅)) = Ret JNull.
Proof.
  split.
  - destruct (@readSessionFile_fails_soft toy_runtime "session.json"
                (site {[ "session.json" := "legacy" ]})) as (_ & _ & Hparsed).
    destruct (Hparsed "legacy" eq_refl eq_refl) as (_ & Hdata).
    destruct (Hdata (JObj [("cookie", JStr "sessionid=old")]) eq_refl) as (_ & Hlegacy).
    destruct (Hlegacy "sessionid=old" eq_refl eq_refl) as (v & Hrun & -> & _).
    exact Hrun.
  - destruct (@readSessionFile_fails_soft toy_runtime "session.json" (site ∅))
      as (_ & Hio & _).
    apply Hio. right. reflexivity.
Defined.


Lemma session_cookie_composed_witness :
  exists s3,
    @loginWithCredentialsInline toy_runtime "A@b.c" "pw" (site ∅)
    = (Ret true, set_ACTIVE_COOKIE (JStr "csrftoken=tok; sessionid=new") s3)
    /\ @login_steps toy_runtime "A@b.c" "pw" (site ∅)
       = (Ret ([("csrftoken", "tok"); ("lang", "fa"); ("sessionid", "new")], JStr "tok"), s3).
Proof.
  eexists. split; [|reflexivity].
  destruct (@session_cookie_composed toy_runtime "A@b.c" "pw" (site ∅) _
              [("csrftoken", "tok"); ("lang", "fa"); ("sessionid", "new")] (JStr "tok")
              eq_refl) as (_ & Hset).
  exact (Hset "new" eq_refl ltac:(discriminate)).
Defined.

(** C5 (the code departs from the claim).  An override cookie that fails
    verification stays in [ACTIVE_COOKIE], and step 3 logs in only when
    [ACTIVE_COOKIE] is empty or [forceLogin] is set.  Here a user and a
    password are supplied, no session is verified, and the site would accept
    the login; yet no login request is sent and the result is [none].  The
    same run without the stale override, or with [forceLogin], logs in and
    ends verified with source [fresh-login]. *)
Theorem stale_override_blocks_login :
  (let run := @prepareSession toy_runtime "sessionid=old" credentials (site ∅) in
   fst run = Ret (mkPrepared JNull SrcNone)
   /\ ACTIVE_COOKIE (snd run) = JStr "sessionid=old"
   /\ trace (snd run) = [EvCoreData (Some (JStr "sessionid=old")) ORIGIN;
                         EvReadFile "session.json"])
  /\ fst (@prepareSession toy_runtime PLACEHOLDER credentials (site ∅))
     = Ret (mkPrepared authenticated SrcFreshLogin)
  /\ fst (@prepareSession toy_runtime "sessionid=old"
            (mkArgs "A@b.c" "pw" "session.json" "" true) (site ∅))
     = Ret (mkPrepared authenticated SrcFreshLogin).
Proof. vm_compute. repeat split. Qed.

End SessionFacts.

(** * Further facts about the download engine *)
Module DownloadExtras.
Import Download DownloadFacts.

(** ** The limiter with no limit *)

(** X6.  A limiter built with a limit of 0 or less lets every chunk through
    unchanged and never raises the stop signal. *)
Theorem ByteLimit_without_limit (lim : Z) (cs : list chunk) :
  lim <= 0 ->
  feed_all (ByteLimit_new lim) cs = (concat cs, ByteLimit_new lim, false)
  /\ feed_until_limit (ByteLimit_new lim) cs = (concat cs, ByteLimit_new lim, false).
Proof.
  intros Hlim.
  assert (Hstep : forall c, _transform (ByteLimit_new lim) c = (c, ByteLimit_new lim, false)).
  { intros c. unfold _transform. cbn. replace (lim <=? 0) with true by lia. reflexivity. }
  split; induction cs as [|c cs IH]; cbn [feed_all feed_until_limit concat];
    try reflexivity; rewrite Hstep, IH; reflexivity.
Qed.

Lemma ByteLimit_without_limit_witness :
  feed_all (ByteLimit_new 0) [[b1; b2]; [b3]] = ([b1; b2; b3], ByteLimit_new 0, false).
Proof. exact (proj1 (ByteLimit_without_limit 0 [[b1; b2]; [b3]] ltac:(discriminate))). Defined.

(** ** The pre-flight check in sampling mode *)

(** X1.  A sampling download whose destination already holds a non-empty
    file returns [Exists] at once: no request is sent, no file is touched,
    the state is what it was. *)
Theorem sampling_skips_existing_file
    (s : State) (url filePath referer : string) (maxRetries L : Z) (c : list byte) :
  0 < L -> files s !! filePath = Some c -> 0 < size_of c ->
  downloadToFile url filePath referer maxRetries L s = (Ret Exists, s).
Proof.
  intros HL Hc Hpos. unfold downloadToFile, statSync. munfold. rewrite Hc. cbn.
  replace (size_of c >? 0) with true by lia.
  replace (L >? 0) with true by lia. reflexivity.
Qed.

Lemma sampling_skips_existing_file_witness :
  downloadToFile "u" "f" "ref" 3 2 complete_world = (Ret Exists, complete_world).
Proof.
  apply (sampling_skips_existing_file complete_world "u" "f" "ref" 3 2 [b1; b2; b3]);
    reflexivity.
Defined.

(** ** A loop with no attempts *)

(** X4.  With an attempt budget below 1 and no completed file at the
    destination, the loop body never runs: the function returns [undefined]
    and sends nothing. *)
Theorem no_attempt_budget
    (s : State) (url filePath referer : string) (maxRetries sampleBytes : Z) :
  maxRetries < 1 ->
  default 0 (statSync filePath s) = 0 ->
  exists s',
    downloadToFile url filePath referer maxRetries sampleBytes s = (Ret Undefined, s')
    /\ trace s' = trace s /\ files s' = files s.
Proof.
  intros Hmax H0. rewrite downloadToFile_no_final by assumption.
  replace (Z.to_nat maxRetries) with 0%nat by lia.
  eexists. split; [reflexivity|]. cbn. auto.
Qed.

Lemma no_attempt_budget_witness :
  exists s',
    downloadToFile "u" "f" "ref" 0 0 plain_world = (Ret Undefined, s')
    /\ trace s' = [] /\ files s' = ∅.
Proof.
  apply (no_attempt_budget plain_world "u" "f" "ref" 0 0); reflexivity.
Defined.

(** ** Resuming *)

(** X2.  A full download that finds a non-empty partial file of [K] bytes
    asks for [bytes=K-]; when the answer is 206 and its stream ends cleanly,
    the destination receives the partial bytes followed by the body, and the
    partial file is gone.  So a partial file holding the first [K] bytes of a
    resource, resumed against a server that sends the rest, gives the
    resource itself. *)
Theorem resume_appends_the_rest
    (s : State) (url filePath referer : string) (maxRetries : Z)
    (c : list byte) (res : Response) :
  1 <= maxRetries ->
  default 0 (statSync filePath s) = 0 ->
  files s !! tmpPath filePath = Some c -> 0 < size_of c ->
  net s (length (trace s)) (mkRequest GET url referer (RangeFrom (size_of c))) = Some res ->
  ok res = true -> has_body res = true -> status res = 206 -> breaks res = false ->
  fault s (OpMkdir filePath) = false ->
  fault s (OpOpenWrite (tmpPath filePath)) = false ->
  fault s (OpRename (tmpPath filePath) filePath) = false ->
  exists s',
    downloadToFile url filePath referer maxRetries 0 s = (Ret Downloaded, s')
    /\ files s' !! filePath = Some (c ++ concat (chunks res))
    /\ files s' !! tmpPath filePath = None
    /\ trace s' = trace s ++ [EvFetch (mkRequest GET url referer (RangeFrom (size_of c)))]
    /\ (forall (data : list byte) (K : nat),
          c = take K data -> concat (chunks res) = drop K data ->
          files s' !! filePath = Some data).
Proof.
  intros Hmax H0 Hc Hpos Hnet Hok Hbody Hst Hbrk Hmk Hop Hren.
  rewrite downloadToFile_no_final by assumption.
  destruct (Z.to_nat maxRetries) as [|fuel] eqn:Efuel; [lia|].
  set (s0 := at_loop_start s filePath).
  assert (Hdec : decide_resumeOffset url filePath referer 0 s0 = (Ret (size_of c), s0)).
  { apply first_offset_is_partial_length; [lia | assumption | assumption]. }
  assert (Hrange : range_header 0 (size_of c) = RangeFrom (size_of c)).
  { unfold range_header. cbn. replace (size_of c >? 0) with true by lia. reflexivity. }
  rewrite (attempt_downloaded s0 s0 _ _ _ _ _ _ (size_of c) _ res); try assumption.
  2:{ rewrite Hrange. exact Hnet. }
  2:{ rewrite Hst. cbn. apply andb_false_r. }
  2:{ left. exact Hbrk. }
  set (s1 := after_transfer s0 url filePath referer 0 (size_of c) res).
  assert (Hw : written s0 filePath 0 (size_of c) res = c ++ concat (chunks res)).
  { unfold written. cbn. replace (size_of c =? 0) with false by lia.
    subst s0. cbn. rewrite Hc. reflexivity. }
  destruct (finalize_renamed filePath s1 (c ++ concat (chunks res)))
    as (s' & Hfin & Hdest & Htmp & Htr).
  { exact Hren. }
  { subst s1. unfold after_transfer, set_files. cbn [files]. rewrite Hw.
    apply lookup_insert_eq. }
  exists s'. split; [exact Hfin|]. split; [exact Hdest|]. split; [exact Htmp|]. split.
  - rewrite Htr, <- Hrange. reflexivity.
  - intros data K -> Hrest. rewrite Hdest, Hrest, take_drop. reflexivity.
Qed.

Lemma resume_appends_the_rest_witness :
  exists s',
    downloadToFile "u" "f" "ref" 3 0 resume_world = (Ret Downloaded, s')
    /\ files s' !! "f" = Some resource.
Proof.
  destruct (resume_appends_the_rest resume_world "u" "f" "ref" 3 [b1; b2]
              (ranged [[b3; b4; b5; b6]] false))
    as (s' & Hrun & _ & _ & _ & Hdata);
    [discriminate | reflexivity | reflexivity | reflexivity | reflexivity
    | reflexivity | reflexivity | reflexivity | reflexivity | reflexivity
    | reflexivity | reflexivity |].
  exists s'. split; [exact Hrun|].
  exact (Hdata resource 2%nat eq_refl eq_refl).
Defined.

(** X7.  An attempt that finds no partial file but a completed file of [F]
    bytes, with a server known to support ranges, moves the completed file
    into the partial slot and asks for [bytes=F-]; a clean 206 answer leaves
    the old bytes followed by the body at the destination.  The attempt
    records the moved file as the partial file and forgets the completed
    one. *)
Theorem stalled_file_is_resumed
    (s : State) (url filePath referer : string) (c : list byte)
    (ri : RemoteInfo) (res : Response) :
  existingTmpSize s <= 0 -> existingFinalSize s = size_of c -> 0 < size_of c ->
  remoteInfo s = Some ri -> acceptRanges ri = true ->
  files s !! filePath = Some c ->
  fault s (OpRename filePath (tmpPath filePath)) = false ->
  net s (length (trace s)) (mkRequest GET url referer (RangeFrom (size_of c))) = Some res ->
  ok res = true -> has_body res = true -> status res = 206 -> breaks res = false ->
  fault s (OpMkdir filePath) = false ->
  fault s (OpOpenWrite (tmpPath filePath)) = false ->
  fault s (OpRename (tmpPath filePath) filePath) = false ->
  exists s',
    attempt_body url filePath referer 0 s = (Ret Downloaded, s')
    /\ files s' !! filePath = Some (c ++ concat (chunks res))
    /\ files s' !! tmpPath filePath = None
    /\ existingTmpSize s' = size_of c /\ existingFinalSize s' = 0
    /\ trace s' = trace s ++ [EvFetch (mkRequest GET url referer (RangeFrom (size_of c)))].
Proof.
  intros Hets Hefs Hpos Hri Hacc Hc Hmv Hnet Hok Hbody Hst Hbrk Hmk Hop Hren.
  set (s1 := set_existingFinalSize 0
               (set_existingTmpSize (size_of c)
                  (set_files (<[tmpPath filePath := c]> (delete filePath (files s))) s))).
  assert (Hdec : decide_resumeOffset url filePath referer 0 s = (Ret (size_of c), s1)).
  { unfold decide_resumeOffset, rename. munfold. cbn.
    replace (existingTmpSize s >? 0) with false by lia.
    rewrite Hefs. replace (size_of c >? 0) with true by lia.
    rewrite Hri. cbn. rewrite Hacc, Hmv, Hc. reflexivity. }
  assert (Hrange : range_header 0 (size_of c) = RangeFrom (size_of c)).
  { unfold range_header. cbn. replace (size_of c >? 0) with true by lia. reflexivity. }
  unfold attempt_body, bind. rewrite Hdec.
  rewrite (transfer_finalizes s1 _ _ _ _ _ res); try assumption.
  2:{ rewrite Hrange. exact Hnet. }
  2:{ rewrite Hst. cbn. apply andb_false_r. }
  2:{ left. exact Hbrk. }
  set (s2 := after_transfer s1 url filePath referer 0 (size_of c) res).
  assert (Hw : written s1 filePath 0 (size_of c) res = c ++ concat (chunks res)).
  { unfold written. cbn. replace (size_of c =? 0) with false by lia.
    rewrite lookup_insert_eq. reflexivity. }
  destruct (finalize_renamed filePath s2 (c ++ concat (chunks res)))
    as (s' & Hfin & Hdest & Htmp & Htr).
  { exact Hren. }
  { subst s2. unfold after_transfer, set_files. cbn [files]. rewrite Hw.
    apply lookup_insert_eq. }
  destruct (finalize_returns filePath s2) as (s'' & Hfin' & _ & _ & _ & Hets' & Hefs' & _).
  rewrite Hfin in Hfin'. injection Hfin' as <-.
  exists s'. split; [exact Hfin|]. split; [exact Hdest|]. split; [exact Htmp|].
  split; [rewrite Hets'; reflexivity|]. split; [rewrite Hefs'; reflexivity|].
  rewrite Htr, <- Hrange. reflexivity.
Qed.

Lemma stalled_file_is_resumed_witness :
  exists s',
    attempt_body "u" "f" "ref" 0 stalled_world = (Ret Downloaded, s')
    /\ files s' !! "f" = Some resource
    /\ files s' !! "f.part" = None.
Proof.
  destruct (stalled_file_is_resumed stalled_world "u" "f" "ref" [b1; b2; b3]
              {| size := Some 6; acceptRanges := true |} (ranged [[b4; b5; b6]] false))
    as (s' & Hrun & Hdest & Htmp & _);
    [discriminate | reflexivity | reflexivity | reflexivity | reflexivity
    | reflexivity | reflexivity | reflexivity | reflexivity | reflexivity
    | reflexivity | reflexivity | reflexivity | reflexivity | reflexivity |].
  exists s'. split; [exact Hrun|]. split; [exact Hdest | exact Htmp].
Defined.

(** X8.  Under the same conditions with a server known not to support
    ranges, the attempt starts from byte 0 with no range header, leaves the
    completed file in place while it writes, and replaces it with the body on
    success. *)
Theorem stalled_file_is_replaced
    (s : State) (url filePath referer : string) (ri : RemoteInfo) (res : Response) :
  existingTmpSize s <= 0 -> 0 < existingFinalSize s ->
  remoteInfo s = Some ri -> acceptRanges ri = false ->
  net s (length (trace s)) (mkRequest GET url referer RangeNone) = Some res ->
  ok res = true -> has_body res = true -> breaks res = false ->
  fault s (OpMkdir filePath) = false ->
  fault s (OpOpenWrite (tmpPath filePath)) = false ->
  fault s (OpRename (tmpPath filePath) filePath) = false ->
  exists s',
    attempt_body url filePath referer 0 s = (Ret Downloaded, s')
    /\ files s' !! filePath = Some (concat (chunks res))
    /\ files s' !! tmpPath filePath = None
    /\ trace s' = trace s ++ [EvFetch (mkRequest GET url referer RangeNone)].
Proof.
  intros Hets Hefs Hri Hacc Hnet Hok Hbody Hbrk Hmk Hop Hren.
  assert (Hdec : decide_resumeOffset url filePath referer 0 s = (Ret 0, s)).
  { unfold decide_resumeOffset. munfold. cbn.
    replace (existingTmpSize s >? 0) with false by lia.
    replace (existingFinalSize s >? 0) with true by lia.
    rewrite Hri. cbn. rewrite Hacc. reflexivity. }
  unfold attempt_body, bind. rewrite Hdec.
  rewrite (transfer_finalizes s _ _ _ _ _ res); try assumption; try reflexivity.
  2:{ left. exact Hbrk. }
  set (s2 := after_transfer s url filePath referer 0 0 res).
  destruct (finalize_renamed filePath s2 (concat (chunks res)))
    as (s' & Hfin & Hdest & Htmp & Htr).
  { exact Hren. }
  { subst s2. cbn. apply lookup_insert_eq. }
  exists s'. split; [exact Hfin|]. split; [exact Hdest|]. split; [exact Htmp|].
  rewrite Htr. reflexivity.
Qed.

Lemma stalled_file_is_replaced_witness :
  exists s',
    attempt_body "u" "f" "ref" 0 rangeless_world = (Ret Downloaded, s')
    /\ files s' !! "f" = Some resource.
Proof.
  destruct (stalled_file_is_replaced rangeless_world "u" "f" "ref"
              {| size := Some 6; acceptRanges := false |} whole_body)
    as (s' & Hrun & Hdest & _);
    [discriminate | reflexivity | reflexivity | reflexivity | reflexivity
    | reflexivity | reflexivity | reflexivity | reflexivity | reflexivity
    | reflexivity |].
  exists s'. split; [exact Hrun | exact Hdest].
Defined.

(** ** The attempt budget and the back-off *)

Lemma backoff_trace_length (rq : Request) (fuel : nat) :
  forall k, length (backoff_trace rq (S fuel) k) = S (2 * fuel).
Proof.
  induction fuel as [|fuel IH]; intros k; [reflexivity|].
  change (backoff_trace rq (S (S fuel)) k)
    with (EvFetch rq :: EvSleep (1000 * k) :: backoff_trace rq (S fuel) (k + 1)).
  cbn [length]. rewrite IH. lia.
Qed.

(** The last event of a run of failed attempts is the request of the last
    attempt. *)
Lemma backoff_trace_last (rq : Request) (pre : list Event) (fuel : nat) :
  forall k,
    nth_error (pre ++ backoff_trace rq (S fuel) k) (length pre + 2 * fuel)
    = Some (EvFetch rq).
Proof.
  revert pre. induction fuel as [|fuel IH]; intros pre k.
  - rewrite Nat.add_0_r. rewrite nth_error_app2 by lia.
    rewrite Nat.sub_diag. reflexivity.
  - change (backoff_trace rq (S (S fuel)) k)
      with ([EvFetch rq; EvSleep (1000 * k)] ++ backoff_trace rq (S fuel) (k + 1)).
    rewrite app_assoc.
    replace (length pre + 2 * S fuel)%nat
      with (length (pre ++ [EvFetch rq; EvSleep (1000 * k)]) + 2 * fuel)%nat
      by (rewrite length_app; cbn; lia).
    apply IH.
Qed.

(** An attempt that gets no usable answer fails at line 746 or 747 and
    changes nothing but the trace. *)
Lemma unanswered_attempt (s : State) (url filePath referer : string) (sampleBytes : Z) :
  never_answers (net s) ->
  existingFinalSize s <= 0 -> 0 <= existingTmpSize s ->
  let off := if sampleBytes >? 0 then 0 else existingTmpSize s in
  let rq := mkRequest GET url referer (range_header sampleBytes off) in
  attempt_body url filePath referer sampleBytes s
  = (Throw (failure_of (net s (length (trace s)) rq)), log (EvFetch rq) s).
Proof.
  intros Hnever Hf Ht off rq.
  unfold attempt_body, bind. rewrite decide_resumeOffset_no_final by assumption.
  fold off. unfold transfer, fetch. munfold. fold rq.
  destruct (net s (length (trace s)) rq) as [res|] eqn:Hnet; [|reflexivity].
  pose proof (Hnever _ _ _ Hnet) as Hbad. cbn.
  replace (negb (ok res) || negb (has_body res)) with true
    by (destruct (ok res), (has_body res); cbn in *; congruence).
  reflexivity.
Qed.

Lemma unanswered_attempts (url filePath referer : string) (sampleBytes maxRetries : Z)
    (fuel : nat) :
  forall (k : Z) (s : State),
    never_answers (net s) ->
    existingFinalSize s <= 0 -> 0 <= existingTmpSize s ->
    Z.of_nat (S fuel) = maxRetries - k + 1 ->
    let off := if sampleBytes >? 0 then 0 else existingTmpSize s in
    let rq := mkRequest GET url referer (range_header sampleBytes off) in
    exists s',
      attempts (S fuel) k maxRetries url filePath referer sampleBytes s
      = (Throw (failure_of (net s (length (trace s) + 2 * fuel)%nat rq)), s')
      /\ trace s' = trace s ++ backoff_trace rq (S fuel) k
      /\ files s' = files s.
Proof.
  induction fuel as [|fuel IH]; intros k s Hnever Hf Ht Hfuel off rq.
  - cbn [attempts]. unfold catch.
    rewrite (unanswered_attempt s url filePath referer sampleBytes Hnever Hf Ht).
    replace (k <? maxRetries) with false by lia.
    fold off. fold rq. rewrite Nat.add_0_r.
    eexists. split; [reflexivity|]. cbn. auto.
  - cbn [attempts]. unfold catch.
    rewrite (unanswered_attempt s url filePath referer sampleBytes Hnever Hf Ht).
    replace (k <? maxRetries) with true by lia.
    fold off. fold rq. unfold sleep, bind, modify.
    destruct (IH (k + 1) (log (EvSleep (1000 * k)) (log (EvFetch rq) s)))
      as (s' & Hrun & Htr & Hfiles); try assumption; [lia|].
    exists s'. split; [|split; [|exact Hfiles]].
    + refine (eq_trans Hrun _). cbn [net trace log existingTmpSize]. fold off. fold rq.
      do 3 f_equal. rewrite !length_app. cbn [length]. f_equal. lia.
    + rewrite Htr. cbn [trace log]. rewrite <- !app_assoc. reflexivity.
Qed.

(** X3.  When the destination holds no completed file and no request gets a
    usable answer (the fetch rejects, or the status is not a success, or the
    body is missing), a download with attempt budget [n >= 1] sends the same
    GET exactly [n] times, sleeps [1000 * k] milliseconds after attempt [k]
    for every [k < n], and then fails with the error of the last attempt:
    the rejection of its fetch, or [HTTP] with the status of its answer.
    The partial file and every other file are left as they were. *)
Theorem attempts_exhausted_with_linear_backoff
    (s : State) (url filePath referer : string) (maxRetries sampleBytes : Z) :
  1 <= maxRetries ->
  default 0 (statSync filePath s) = 0 ->
  never_answers (net s) ->
  let off := if sampleBytes >? 0 then 0 else default 0 (statSync (tmpPath filePath) s) in
  let rq := mkRequest GET url referer (range_header sampleBytes off) in
  let last := (length (trace s) + 2 * (Z.to_nat maxRetries - 1))%nat in
  exists s',
    downloadToFile url filePath referer maxRetries sampleBytes s
    = (Throw (failure_of (net s last rq)), s')
    /\ trace s' = trace s ++ backoff_trace rq (Z.to_nat maxRetries) 1
    /\ nth_error (trace s') last = Some (EvFetch rq)
    /\ length (trace s') = Datatypes.S last
    /\ files s' = files s.
Proof.
  intros Hmax H0 Hnever off rq last.
  rewrite downloadToFile_no_final by assumption.
  destruct (Z.to_nat maxRetries) as [|fuel] eqn:Efuel; [lia|].
  destruct (unanswered_attempts url filePath referer sampleBytes maxRetries fuel 1
              (at_loop_start s filePath)) as (s' & Hrun & Htr & Hfiles);
    cbn; try assumption; try lia; [apply statSync_nonneg|].
  cbn [net trace at_loop_start set_remoteInfo set_existingTmpSize set_existingFinalSize
         existingTmpSize files] in Hrun, Htr, Hfiles.
  fold off in Hrun, Htr. fold rq in Hrun, Htr.
  assert (Hlast : last = (length (trace s) + 2 * fuel)%nat) by (subst last; lia).
  exists s'. split; [rewrite Hlast; exact Hrun|].
  split; [exact Htr|]. split; [|split; [|exact Hfiles]].
  - rewrite Htr, Hlast. apply backoff_trace_last.
  - rewrite Htr, Hlast, length_app, backoff_trace_length. lia.
Qed.

Lemma attempts_exhausted_with_linear_backoff_witness :
  (exists s',
     downloadToFile "u" "f" "ref" 3 0 dead_world = (Throw ErrFetch, s')
     /\ trace s' = [EvFetch (mkRequest GET "u" "ref" (RangeFrom 2)); EvSleep 1000;
                    EvFetch (mkRequest GET "u" "ref" (RangeFrom 2)); EvSleep 2000;
                    EvFetch (mkRequest GET "u" "ref" (RangeFrom 2))]
     /\ files s' !! "f.part" = Some [b1; b2])
  /\ (exists s',
        downloadToFile "u" "f" "ref" 3 0 worsening_world = (Throw (ErrHttp 503), s')
        /\ trace s' = [EvFetch (mkRequest GET "u" "ref" (RangeFrom 2)); EvSleep 1000;
                       EvFetch (mkRequest GET "u" "ref" (RangeFrom 2)); EvSleep 2000;
                       EvFetch (mkRequest GET "u" "ref" (RangeFrom 2))]).
Proof.
  split.
  - destruct (attempts_exhausted_with_linear_backoff dead_world "u" "f" "ref" 3 0)
      as (s' & Hrun & Htr & _ & _ & Hfiles);
      [discriminate | reflexivity | intros n rq res Hnet; discriminate Hnet |].
    exists s'.
    split; [exact Hrun|]. split; [exact Htr|]. rewrite Hfiles. reflexivity.
  - destruct (attempts_exhausted_with_linear_backoff worsening_world "u" "f" "ref" 3 0)
      as (s' & Hrun & Htr & _);
      [discriminate | reflexivity
      | intros n rq res Hnet; unfold worsening_world in Hnet; cbn [net] in Hnet;
        destruct (n <? 4)%nat;
        [discriminate Hnet | injection Hnet as <-; reflexivity] |].
    exists s'. split; [exact Hrun | exact Htr].
Defined.

(** ** Files the download does not own *)

Lemma same_elsewhere_refl (filePath : string) (s : State) : same_elsewhere filePath s s.
Proof. intros p _ _. reflexivity. Qed.

Lemma same_elsewhere_files (filePath : string) (s s' : State) :
  files s' = files s -> same_elsewhere filePath s s'.
Proof. intros H p _ _. rewrite H. reflexivity. Qed.

Lemma same_elsewhere_trans (filePath : string) (s1 s2 s3 : State) :
  same_elsewhere filePath s1 s2 -> same_elsewhere filePath s2 s3 ->
  same_elsewhere filePath s1 s3.
Proof. intros H12 H23 p Hp Hq. rewrite (H23 p Hp Hq). apply H12; assumption. Qed.

Section Keeps.
Variable filePath : string.

Lemma keeps_ret {A} (a : A) : keeps_elsewhere filePath (ret a).
Proof. intros s. apply same_elsewhere_refl. Qed.

Lemma keeps_throw {A} (e : Error) : keeps_elsewhere filePath (throw (A := A) e).
Proof. intros s. apply same_elsewhere_refl. Qed.

Lemma keeps_gets {A} (f : State -> A) : keeps_elsewhere filePath (gets f).
Proof. intros s. apply same_elsewhere_refl. Qed.

Lemma keeps_modify (f : State -> State) :
  (forall s, files (f s) = files s) -> keeps_elsewhere filePath (modify f).
Proof. intros Hf s. apply same_elsewhere_files, Hf. Qed.

Lemma keeps_bind {A B} (m : D A) (k : A -> D B) :
  keeps_elsewhere filePath m -> (forall a, keeps_elsewhere filePath (k a)) ->
  keeps_elsewhere filePath (bind m k).
Proof.
  intros Hm Hk s. unfold bind. specialize (Hm s).
  destruct (m s) as [[a|e] s1]; cbn in *; [|exact Hm].
  eapply same_elsewhere_trans; [exact Hm | apply Hk].
Qed.

Lemma keeps_try {A} (m : D A) :
  keeps_elsewhere filePath m -> keeps_elsewhere filePath (try_ m).
Proof.
  intros Hm s. unfold try_. specialize (Hm s).
  destruct (m s) as [[a|e] s1]; exact Hm.
Qed.

Lemma keeps_catch {A} (m : D A) (h : Error -> D A) :
  keeps_elsewhere filePath m -> (forall e, keeps_elsewhere filePath (h e)) ->
  keeps_elsewhere filePath (catch m h).
Proof.
  intros Hm Hh s. unfold catch. specialize (Hm s).
  destruct (m s) as [[a|e] s1]; cbn in *; [exact Hm|].
  eapply same_elsewhere_trans; [exact Hm | apply Hh].
Qed.

(** A file-system call whose paths are the destination or the partial file. *)
Ltac owned_paths :=
  intros s; unfold rename, copyFile, unlink, createWriteStream, write, modify;
  repeat match goal with
         | |- context [if ?b then _ else _] => destruct b
         | |- context [match files s !! ?p with _ => _ end] => destruct (files s !! p)
         end;
  intros p Hp Hq; cbn;
  rewrite ?lookup_insert_ne, ?lookup_delete_ne by congruence; reflexivity.

Lemma keeps_rename_in : keeps_elsewhere filePath (rename filePath (tmpPath filePath)).
Proof. owned_paths. Qed.

Lemma keeps_rename_out : keeps_elsewhere filePath (rename (tmpPath filePath) filePath).
Proof. owned_paths. Qed.

Lemma keeps_copyFile : keeps_elsewhere filePath (copyFile (tmpPath filePath) filePath).
Proof. owned_paths. Qed.

Lemma keeps_unlink : keeps_elsewhere filePath (unlink (tmpPath filePath)).
Proof. owned_paths. Qed.

Lemma keeps_createWriteStream (truncate : bool) :
  keeps_elsewhere filePath (createWriteStream (tmpPath filePath) truncate).
Proof. owned_paths. Qed.

Lemma keeps_write (data : list byte) :
  keeps_elsewhere filePath (write (tmpPath filePath) data).
Proof. owned_paths. Qed.

Lemma keeps_mkdir_parent : keeps_elsewhere filePath (mkdir_parent filePath).
Proof. intros s. unfold mkdir_parent. destruct (fault s _); apply same_elsewhere_refl. Qed.

Lemma keeps_fetch (rq : Request) : keeps_elsewhere filePath (fetch rq).
Proof.
  intros s. unfold fetch. destruct (net s _ _); apply same_elsewhere_files; reflexivity.
Qed.

Lemma keeps_sleep (ms : Z) : keeps_elsewhere filePath (sleep ms).
Proof. intros s. apply same_elsewhere_files. reflexivity. Qed.

Lemma keeps_probe (url referer : string) :
  keeps_elsewhere filePath (getRemoteSizeAndRanges url referer).
Proof.
  intros s. destruct (getRemoteSizeAndRanges_sends s url referer) as (ri & s' & Hrun & Hf & _).
  rewrite Hrun. apply same_elsewhere_files. exact Hf.
Qed.

(** Structural descent through a monadic term. *)
Ltac keeps_step :=
  match goal with
  | |- keeps_elsewhere _ (bind _ _) => apply keeps_bind; [|intros ?]
  | |- keeps_elsewhere _ (try_ _) => apply keeps_try
  | |- keeps_elsewhere _ (catch _ _) => apply keeps_catch; [|intros ?]
  | |- keeps_elsewhere _ (ret _) => apply keeps_ret
  | |- keeps_elsewhere _ (throw _) => apply keeps_throw
  | |- keeps_elsewhere _ (gets _) => apply keeps_gets
  | |- keeps_elsewhere _ (modify _) => apply keeps_modify; intros ?; reflexivity
  | |- keeps_elsewhere _ (rename filePath _) => apply keeps_rename_in
  | |- keeps_elsewhere _ (rename (tmpPath filePath) _) => apply keeps_rename_out
  | |- keeps_elsewhere _ (copyFile _ _) => apply keeps_copyFile
  | |- keeps_elsewhere _ (unlink _) => apply keeps_unlink
  | |- keeps_elsewhere _ (createWriteStream _ _) => apply keeps_createWriteStream
  | |- keeps_elsewhere _ (write _ _) => apply keeps_write
  | |- keeps_elsewhere _ (mkdir_parent _) => apply keeps_mkdir_parent
  | |- keeps_elsewhere _ (fetch _) => apply keeps_fetch
  | |- keeps_elsewhere _ (sleep _) => apply keeps_sleep
  | |- keeps_elsewhere _ (getRemoteSizeAndRanges _ _) => apply keeps_probe
  | |- keeps_elsewhere _ (if ?b then _ else _) => destruct b
  | |- keeps_elsewhere _ (match ?x with _ => _ end) => destruct x
  | |- keeps_elsewhere _ (let '(_, _) := ?x in _) => destruct x
  end.

Lemma keeps_finalize : keeps_elsewhere filePath (finalize filePath).
Proof. unfold finalize. repeat keeps_step. Qed.

Lemma keeps_decide_resumeOffset (url referer : string) (sampleBytes : Z) :
  keeps_elsewhere filePath (decide_resumeOffset url filePath referer sampleBytes).
Proof. unfold decide_resumeOffset. repeat keeps_step. Qed.

Lemma keeps_pipeline (sampleBytes : Z) (res : Response) :
  keeps_elsewhere filePath (pipeline filePath sampleBytes res).
Proof.
  unfold pipeline. destruct (sampleBytes >? 0).
  - destruct (feed_until_limit _ _) as [[out bl] fired].
    repeat (keeps_step || apply keeps_finalize).
  - repeat keeps_step.
Qed.

Lemma keeps_transfer (url referer : string) (sampleBytes off : Z) :
  keeps_elsewhere filePath (transfer url filePath referer sampleBytes off).
Proof.
  unfold transfer. repeat (keeps_step || apply keeps_finalize || apply keeps_pipeline).
Qed.

Lemma keeps_attempts (url referer : string) (sampleBytes maxRetries : Z) (fuel : nat) :
  forall k, keeps_elsewhere filePath
              (attempts fuel k maxRetries url filePath referer sampleBytes).
Proof.
  induction fuel as [|fuel IH]; intros k; cbn [attempts].
  - apply keeps_ret.
  - apply keeps_catch.
    + unfold attempt_body. apply keeps_bind;
        [apply keeps_decide_resumeOffset | intros off; apply keeps_transfer].
    + intros e. destruct (k <? maxRetries); [|apply keeps_throw].
      apply keeps_bind; [apply keeps_sleep | intros _; apply IH].
Qed.

Lemma keeps_downloadToFile (url referer : string) (maxRetries sampleBytes : Z) :
  keeps_elsewhere filePath (downloadToFile url filePath referer maxRetries sampleBytes).
Proof. unfold downloadToFile. repeat (keeps_step || apply keeps_attempts). Qed.

End Keeps.

(** X5.  Whatever the server and the file system do and however the download
    ends, [downloadToFile] changes no file other than the destination and
    its partial file. *)
Theorem downloadToFile_owns_two_paths
    (s : State) (url filePath referer : string) (maxRetries sampleBytes : Z) (p : string) :
  p <> filePath -> p <> tmpPath filePath ->
  files (snd (downloadToFile url filePath referer maxRetries sampleBytes s)) !! p
  = files s !! p.
Proof.
  intros Hp Hq.
  apply (keeps_downloadToFile filePath url referer maxRetries sampleBytes s p Hp Hq).
Qed.

Lemma downloadToFile_owns_two_paths_witness :
  files (snd (downloadToFile "u" "f" "ref" 3 0 resume_world)) !! "notes.txt" = Some [b6].
Proof.
  rewrite (downloadToFile_owns_two_paths resume_world "u" "f" "ref" 3 0 "notes.txt");
    [reflexivity | discriminate | discriminate].
Defined.

(** ** The probe *)

(** X9.  [getRemoteSizeAndRanges] never throws and touches no file.  It
    reports range support only on evidence: a successful HEAD whose
    [accept-ranges] mentions bytes, or a 206 answer to the one-byte GET.  When
    the HEAD gives no success and the GET gives no 206, the size is unknown
    and ranges count as unsupported. *)
Theorem probe_is_soft (s : State) (url referer : string) :
  exists ri s',
    getRemoteSizeAndRanges url referer s = (Ret ri, s')
    /\ files s' = files s
    /\ (acceptRanges ri = true ->
        (exists r, net s (length (trace s)) (head_request url referer) = Some r
                   /\ ok r = true /\ accept_ranges_bytes r = true)
        \/ (exists r2, net s (Datatypes.S (length (trace s))) (probe_request url referer) = Some r2
                       /\ status r2 = 206))
    /\ ((forall r, net s (length (trace s)) (head_request url referer) = Some r ->
                   ok r = false) ->
        (forall r2, net s (Datatypes.S (length (trace s))) (probe_request url referer) = Some r2 ->
                    status r2 <> 206) ->
        ri = {| size := None; acceptRanges := false |}).
Proof.
  unfold getRemoteSizeAndRanges, probe_head, probe_get, fetch, head_request, probe_request.
  munfold. cbn.
  assert (Hlen : length (trace s ++ [EvFetch (mkRequest HEAD url referer RangeNone)])
                 = Datatypes.S (length (trace s))) by (rewrite length_app; cbn; lia).
  destruct (net s (length (trace s)) (mkRequest HEAD url referer RangeNone)) as [r|] eqn:E1;
    cbn; [destruct (ok r) eqn:Eok; cbn|].
  - do 2 eexists. split; [reflexivity|]. cbn. split; [reflexivity|]. split.
    + intros Hacc. left. eauto.
    + intros Hhead _. specialize (Hhead r eq_refl). congruence.
  - rewrite Hlen.
    destruct (net s (Datatypes.S (length (trace s))) (mkRequest GET url referer (RangeSpan 0 0)))
      as [r2|] eqn:E2; cbn; [destruct (status r2 =? 206) eqn:E206; cbn|];
      (do 2 eexists; split; [reflexivity|]; cbn; split; [reflexivity|]; split;
       [intros Hacc; first [discriminate | right; exists r2; split; [reflexivity | lia]]
       | intros _ Hget; first [reflexivity | exfalso; apply (Hget r2 eq_refl); lia]]).
  - rewrite Hlen.
    destruct (net s (Datatypes.S (length (trace s))) (mkRequest GET url referer (RangeSpan 0 0)))
      as [r2|] eqn:E2; cbn; [destruct (status r2 =? 206) eqn:E206; cbn|];
      (do 2 eexists; split; [reflexivity|]; cbn; split; [reflexivity|]; split;
       [intros Hacc; first [discriminate | right; exists r2; split; [reflexivity | lia]]
       | intros _ Hget; first [reflexivity | exfalso; apply (Hget r2 eq_refl); lia]]).
Qed.

Lemma probe_is_soft_witness :
  fst (getRemoteSizeAndRanges "u" "ref" opaque_world)
  = Ret {| size := None; acceptRanges := false |}.
Proof.
  destruct (probe_is_soft opaque_world "u" "ref") as (ri & s' & Hrun & _ & _ & Hnone).
  rewrite Hrun. cbn. f_equal. apply Hnone.
  - intros r Hr. injection Hr as <-. reflexivity.
  - intros r2 Hr2. injection Hr2 as <-. discriminate.
Defined.

(** ** The progress line *)

(** X10.  The expected total of a resumed transfer is the size of the whole
    resource whichever header carries it: the total of [content-range], or
    the offset plus the content length.  What the progress line shows never
    exceeds a known, non-zero total by 64 KiB or less: such an overflow is
    shown as the total, and the final render shows the total also when fewer
    bytes arrived. *)
Theorem progress_totals (offset total downloaded : Z) (final : bool) :
  0 < offset -> offset < total ->
  expectedTotal 0 offset (Some total) (Some (total - offset)) = Some total
  /\ expectedTotal 0 offset None (Some (total - offset)) = Some total
  /\ (downloaded <= total + 65536 ->
      shownDownloaded final downloaded (Some total) <= total)
  /\ (downloaded <= total + 65536 ->
      shownDownloaded true downloaded (Some total) = total)
  /\ (total + 65536 < downloaded ->
      shownDownloaded final downloaded (Some total) = downloaded).
Proof.
  intros Hoff Htot. unfold expectedTotal, shownDownloaded. cbn.
  replace (total - offset =? 0) with false by lia.
  replace (offset >? 0) with true by lia.
  replace (total =? 0) with false by lia. cbn.
  repeat split.
  - f_equal. lia.
  - intros H. destruct final; cbn;
      [|destruct (downloaded >? total) eqn:E];
      try (replace (downloaded - total <=? 65536) with true by lia); lia.
  - intros H. replace (downloaded - total <=? 65536) with true by lia. reflexivity.
  - intros H. replace (downloaded - total <=? 65536) with false by lia.
    destruct (final || (downloaded >? total)); reflexivity.
Qed.

Lemma progress_totals_witness :
  expectedTotal 0 2 None (Some 4) = Some 6
  /\ shownDownloaded true 5 (Some 6) = 6.
Proof.
  destruct (progress_totals 2 6 5 true) as (_ & Hlen & _ & Hfinal & _);
    [reflexivity | reflexivity |].
  split; [exact Hlen | apply Hfinal; discriminate].
Defined.

End DownloadExtras.

(** * Further facts about session acquisition *)
Module SessionExtras.
Import Session SessionFacts.

(** ** The cookie jar *)

Lemma occurs_append (c : ascii) (a b : string) :
  occurs c (a +:+ b) = occurs c a || occurs c b.
Proof.
  induction a as [|x a IH]; simpl; [reflexivity|].
  rewrite IH. apply orb_assoc.
Qed.

Lemma before_absent (c : ascii) (a : string) : occurs c a = false -> before c a = a.
Proof.
  induction a as [|x a IH]; simpl; [reflexivity|].
  intros [Hx Ha]%orb_false_elim. rewrite Hx, IH by exact Ha. reflexivity.
Qed.

Lemma before_append (c : ascii) (a b : string) :
  occurs c a = false -> before c (a +:+ String c b) = a.
Proof.
  induction a as [|x a IH]; simpl.
  - intros _. rewrite Ascii.eqb_refl. reflexivity.
  - intros [Hx Ha]%orb_false_elim. rewrite Hx, IH by exact Ha. reflexivity.
Qed.

Lemma before_prefix (c : ascii) (a b : string) :
  occurs c a = false -> before c (a +:+ b) = a +:+ before c b.
Proof.
  induction a as [|x a IH]; simpl.
  - reflexivity.
  - intros [Hx Ha]%orb_false_elim. rewrite Hx, IH by exact Ha. reflexivity.
Qed.

Lemma cut_at_append (c : ascii) (a b : string) :
  occurs c a = false -> cut_at c (a +:+ String c b) = Some (a, b).
Proof.
  induction a as [|x a IH]; simpl.
  - intros _. rewrite Ascii.eqb_refl. reflexivity.
  - intros [Hx Ha]%orb_false_elim. rewrite Hx, IH by exact Ha. reflexivity.
Qed.

Lemma cut_at_absent (c : ascii) (a : string) : occurs c a = false -> cut_at c a = None.
Proof.
  induction a as [|x a IH]; simpl; [reflexivity|].
  intros [Hx Ha]%orb_false_elim. rewrite Hx, IH by exact Ha. reflexivity.
Qed.

Lemma get_map_set (k v : string) (m : CookieStore) : get k (map_set k v m) = Some v.
Proof.
  induction m as [|[k' v'] m IH]; cbn.
  - rewrite String.eqb_refl. reflexivity.
  - destruct (String.eqb k k') eqn:E; cbn.
    + rewrite String.eqb_refl. reflexivity.
    + rewrite E. exact IH.
Qed.

Lemma get_map_set_other (k k' v : string) (m : CookieStore) :
  k' <> k -> get k' (map_set k v m) = get k' m.
Proof.
  intros Hne. apply String.eqb_neq in Hne.
  induction m as [|[k0 v0] m IH]; cbn.
  - rewrite Hne. reflexivity.
  - destruct (String.eqb k k0) eqn:E; cbn.
    + apply String.eqb_eq in E. subst k0. rewrite Hne. reflexivity.
    + destruct (String.eqb k' k0); [reflexivity | exact IH].
Qed.

Lemma append_empty_r (a : string) : a +:+ "" = a.
Proof.
  induction a as [|x a IH]; [reflexivity|].
  change (String x (a +:+ "") = String x a). f_equal. exact IH.
Qed.

Lemma append_shift (a b c : string) (x : ascii) :
  a +:+ String x (b +:+ c) = (a +:+ String x b) +:+ c.
Proof.
  induction a as [|y a IH]; [reflexivity|].
  change (String y (a +:+ String x (b +:+ c)) = String y ((a +:+ String x b) +:+ c)).
  f_equal. exact IH.
Qed.

Lemma append_empty_inv (a b : string) : a +:+ b = "" -> a = "".
Proof. destruct a; [reflexivity | discriminate]. Qed.

Section Jar.
Context `{Runtime}.

(** X11.  A header line [name=value] followed by nothing or by [;]
    attributes stores the trimmed value under the trimmed name, replacing
    what the jar held under that name and leaving every other cookie as it
    was; the value may itself contain [=]. *)
Theorem setCookieLine_stores (name value attrs : string) (m : CookieStore) :
  occurs "=" name = false -> occurs ";" name = false -> occurs ";" value = false ->
  trim name <> "" ->
  (attrs = "" \/ exists rest, attrs = String ";" rest) ->
  let line := name +:+ String "=" (value +:+ attrs) in
  get (trim name) (setCookieLine line m) = Some (trim value)
  /\ (forall k, k <> trim name -> get k (setCookieLine line m) = get k m).
Proof.
  intros Heq Hsemi Hsemiv Hname Hattrs line.
  assert (Hline : String.eqb line "" = false).
  { apply String.eqb_neq. subst line. destruct name; discriminate. }
  assert (Hseg : before ";" line = name +:+ String "=" value).
  { subst line. destruct Hattrs as [-> | [rest ->]].
    - rewrite append_empty_r.
      apply before_absent. rewrite occurs_append. simpl. rewrite Hsemi, Hsemiv. reflexivity.
    - rewrite append_shift.
      apply before_append. rewrite occurs_append. simpl. rewrite Hsemi, Hsemiv. reflexivity. }
  unfold setCookieLine. rewrite Hline, Hseg, (cut_at_append "=" name value Heq).
  rewrite (proj2 (String.eqb_neq _ _) Hname). split.
  - apply get_map_set.
  - intros k Hk. apply get_map_set_other. exact Hk.
Qed.

(** X12.  A line that is empty, or has no [=] before its first [;], or has
    only white space before its [=], leaves the jar as it was: nothing is
    stored and nothing is thrown. *)
Theorem setCookieLine_ignores_malformed (line : string) (m : CookieStore) :
  (line = "" -> setCookieLine line m = m)
  /\ (occurs "=" (before ";" line) = false -> setCookieLine line m = m)
  /\ (forall blank rest,
        occurs "=" blank = false -> occurs ";" blank = false -> trim blank = "" ->
        line = blank +:+ String "=" rest ->
        setCookieLine line m = m).
Proof.
  split; [|split].
  - intros ->. reflexivity.
  - intros Hno. unfold setCookieLine. rewrite (cut_at_absent _ _ Hno).
    destruct (String.eqb line ""); reflexivity.
  - intros blank rest Heq Hsemi Hblank ->. unfold setCookieLine.
    destruct (String.eqb (blank +:+ String "=" rest) ""); [reflexivity|].
    rewrite (before_prefix _ _ _ Hsemi).
    change (before ";" (String "=" rest)) with (String "=" (before ";" rest)).
    rewrite (cut_at_append _ _ _ Heq), Hblank. reflexivity.
Qed.

Lemma In_map_set (k v k' : string) (m : CookieStore) :
  In k' (map fst (map_set k v m)) <-> k' = k \/ In k' (map fst m).
Proof.
  induction m as [|[k0 v0] m IH]; simpl.
  - intuition.
  - destruct (String.eqb k k0) eqn:E; simpl.
    + apply String.eqb_eq in E. subst k0. intuition.
    + rewrite IH. intuition.
Qed.

Lemma NoDup_map_set (k v : string) (m : CookieStore) :
  List.NoDup (map fst m) -> List.NoDup (map fst (map_set k v m)).
Proof.
  induction m as [|[k0 v0] m IH]; simpl; intros Hnd.
  - constructor; [intros [] | constructor].
  - inversion Hnd as [|? ? Hnotin Hnd']; subst.
    destruct (String.eqb k k0) eqn:E; simpl.
    + apply String.eqb_eq in E. subst k0. constructor; assumption.
    + constructor; [|apply IH; assumption].
      rewrite In_map_set. intros [-> | Hin]; [|contradiction].
      rewrite String.eqb_refl in E. discriminate.
Qed.

Lemma setCookieLine_ok (line : string) (m : CookieStore) :
  store_ok m -> store_ok (setCookieLine line m).
Proof.
  intros [Hnd Hne]. unfold setCookieLine.
  destruct (String.eqb line ""); [split; assumption|].
  destruct (cut_at "=" (before ";" line)) as [[l r]|]; [|split; assumption].
  destruct (String.eqb (trim l) "") eqn:E; [split; assumption|].
  apply String.eqb_neq in E. split.
  - apply NoDup_map_set. exact Hnd.
  - rewrite In_map_set. intros [Heq | Hin]; [congruence | contradiction].
Qed.

(** X13.  However many header lines are applied, and whatever they hold, the
    jar keeps every cookie name once and never holds an empty name. *)
Theorem applySetCookie_keeps_names_unique (arr : list string) (m : CookieStore) :
  store_ok m -> store_ok (applySetCookie arr m).
Proof.
  unfold applySetCookie. revert m.
  induction arr as [|line arr IH]; simpl; intros m Hok; [exact Hok|].
  apply IH, setCookieLine_ok, Hok.
Qed.

End Jar.

Lemma setCookieLine_stores_witness :
  get "sessionid" (@setCookieLine toy_runtime " sessionid = a=b ; Path=/; HttpOnly"
                     [("sessionid", "old"); ("lang", "fa")]) = Some "a=b"
  /\ get "lang" (@setCookieLine toy_runtime " sessionid = a=b ; Path=/; HttpOnly"
                   [("sessionid", "old"); ("lang", "fa")]) = Some "fa".
Proof.
  destruct (@setCookieLine_stores toy_runtime " sessionid " " a=b " "; Path=/; HttpOnly"
              [("sessionid", "old"); ("lang", "fa")])
    as (Hget & Hother);
    [reflexivity | reflexivity | reflexivity | discriminate | right; eauto |].
  split; [exact Hget | exact (Hother "lang" ltac:(discriminate))].
Defined.

Lemma setCookieLine_ignores_malformed_witness :
  @setCookieLine toy_runtime "HttpOnly; a=b" [("lang", "fa")] = [("lang", "fa")]
  /\ @setCookieLine toy_runtime "  =value" [("lang", "fa")] = [("lang", "fa")].
Proof.
  destruct (@setCookieLine_ignores_malformed toy_runtime "HttpOnly; a=b" [("lang", "fa")])
    as (_ & Hnoeq & _).
  destruct (@setCookieLine_ignores_malformed toy_runtime "  =value" [("lang", "fa")])
    as (_ & _ & Hblank).
  split; [apply Hnoeq; reflexivity|].
  apply (Hblank "  " "value"); reflexivity.
Defined.

Lemma applySetCookie_keeps_names_unique_witness :
  store_ok (@applySetCookie toy_runtime ["a=1"; "b=2"; "a=3; Path=/"; "=x"] []).
Proof.
  apply (@applySetCookie_keeps_names_unique toy_runtime). split; [constructor | intros []].
Defined.

(** ** The cookie header and the guard of [main] *)

(** X14.  [commonHeaders] sends a cookie only when it is non-empty and not
    the placeholder: the active cookie when there is one, else the override.
    Whenever a cookie is sent the guard [ensureCookiePresent] passes; the
    guard passes without a cookie being sent only when the active cookie is
    the placeholder itself. *)
Theorem cookie_header_sound (COOKIE : string) (active : JValue) :
  (forall ck, cookie_header COOKIE active = Some ck ->
     truthy ck = true /\ is_string ck PLACEHOLDER = false
     /\ ck = (if truthy active then active else JStr COOKIE)
     /\ ensureCookiePresent COOKIE active = true)
  /\ (cookie_header COOKIE active = None -> ensureCookiePresent COOKIE active = true ->
      active = JStr PLACEHOLDER).
Proof.
  unfold cookie_header, ensureCookiePresent, override_present, js_or. split.
  - intros ck. destruct (truthy active) eqn:Ea.
    + rewrite Ea. cbn [andb].
      destruct (is_string active PLACEHOLDER) eqn:Ep; cbn; [discriminate|].
      intros [= <-]. auto.
    + cbn [truthy is_string andb orb].
      destruct (negb (String.eqb COOKIE "")) eqn:Ec; cbn; [|discriminate].
      destruct (String.eqb COOKIE PLACEHOLDER) eqn:Ep; cbn; [discriminate|].
      intros [= <-]. cbn. rewrite Ep, Ec. auto.
  - destruct (truthy active) eqn:Ea.
    + rewrite Ea. cbn [andb].
      destruct (is_string active PLACEHOLDER) eqn:Ep; cbn; [|discriminate].
      intros _ _. destruct active; cbn in Ep; try discriminate.
      apply String.eqb_eq in Ep. congruence.
    + cbn [truthy is_string andb orb].
      destruct (negb (String.eqb COOKIE "")); cbn; [|discriminate].
      destruct (String.eqb COOKIE PLACEHOLDER); cbn; discriminate.
Qed.

Lemma cookie_header_sound_witness :
  cookie_header override_cookie (JStr PLACEHOLDER) = None
  /\ ensureCookiePresent override_cookie (JStr PLACEHOLDER) = true
  /\ JStr PLACEHOLDER = JStr PLACEHOLDER.
Proof.
  split; [reflexivity|]. split; [reflexivity|].
  destruct (cookie_header_sound override_cookie (JStr PLACEHOLDER)) as [_ Hguard].
  apply Hguard; reflexivity.
Defined.

(** ** The login flow as a whole *)

Section Login.
Context `{Runtime}.

Lemma raw_events_refl (n : nat) (s : State) : raw_events n s s.
Proof.
  repeat split. exists []. rewrite app_nil_r. repeat split; [constructor | cbn; lia].
Qed.

Lemma raw_events_step (n : nat) (rq : RawRequest) (s : State) :
  raw_events (Datatypes.S n) s (log (EvRaw rq) s).
Proof.
  repeat split. exists [EvRaw rq]. repeat split; [|cbn; lia].
  constructor; [exact I | constructor].
Qed.

Lemma raw_events_trans (n m : nat) (s1 s2 s3 : State) :
  raw_events n s1 s2 -> raw_events m s2 s3 -> raw_events (n + m) s1 s3.
Proof.
  intros (Ha1 & Hf1 & evs1 & Ht1 & Hr1 & Hl1) (Ha2 & Hf2 & evs2 & Ht2 & Hr2 & Hl2).
  split; [congruence|]. split; [congruence|].
  exists (evs1 ++ evs2). split; [rewrite Ht2, Ht1, app_assoc; reflexivity|].
  split; [apply Forall_app; split; assumption|].
  rewrite length_app. lia.
Qed.

Lemma raw_events_le (n m : nat) (s s' : State) :
  (n <= m)%nat -> raw_events n s s' -> raw_events m s s'.
Proof.
  intros Hle (Ha & Hf & evs & Ht & Hr & Hl).
  repeat split; try assumption. exists evs. repeat split; [assumption.. | lia].
Qed.

Lemma rawRequest_snd (rq : RawRequest) (s : State) :
  snd (rawRequest rq s) = log (EvRaw rq) s.
Proof. unfold rawRequest. destruct (raw s _ rq); reflexivity. Qed.

Lemma obtain_csrf_events (s : State) : raw_events 2 s (snd (obtain_csrf s)).
Proof.
  unfold obtain_csrf, rawRequest. munfold.
  destruct (raw s (length (trace s)) login_page_request) as [r|]; cbn;
    [|apply (raw_events_step 1)].
  destruct (truthy (get_or_null "csrftoken" (applySetCookie (set_cookie r) []))) eqn:E;
    cbn.
  - rewrite E. cbn. destruct (has_slice _); apply (raw_events_step 1).
  - assert (Htwo : raw_events 2 s
                     (log (EvRaw core_data_request) (log (EvRaw login_page_request) s))).
    { apply (raw_events_trans 1 1 _ (log (EvRaw login_page_request) s));
        apply (raw_events_step 0). }
    destruct (raw s _ core_data_request) as [r2|]; cbn; [|exact Htwo].
    destruct (negb (truthy _)); cbn; [exact Htwo|].
    destruct (negb (has_slice _)); exact Htwo.
Qed.

Lemma check_active_user_events (email : string) (store : CookieStore) (csrf : JValue)
    (s : State) :
  raw_events 1 s (snd (check_active_user email store csrf s)).
Proof.
  unfold check_active_user, rawRequest. munfold.
  destruct (raw s _ _) as [r|]; cbn; [|apply (raw_events_step 0)].
  destruct (JSON_parse (raw_body r)) as [j|]; cbn; [|apply (raw_events_step 0)].
  destruct (negb (truthy j)); cbn; [apply (raw_events_step 0)|].
  destruct (negb (is_string (js_get j "status") "success")); cbn;
    [apply (raw_events_step 0)|].
  destruct (negb (is_string (js_get j "message") "get-pass")); apply (raw_events_step 0).
Qed.

Lemma login_authentication_events (email password : string) (store : CookieStore)
    (csrf : JValue) (s : State) :
  raw_events 1 s (snd (login_authentication email password store csrf s)).
Proof.
  unfold login_authentication, rawRequest. munfold.
  destruct (raw s _ _) as [r|]; cbn; [|apply (raw_events_step 0)].
  destruct (JSON_parse (raw_body r)) as [j|]; cbn; [|apply (raw_events_step 0)].
  destruct (negb (truthy j)); cbn; [apply (raw_events_step 0)|].
  destruct (negb (is_string (js_get j "status") "success")); apply (raw_events_step 0).
Qed.

Lemma login_steps_events (email password : string) (s : State) :
  raw_events 4 s (snd (login_steps email password s)).
Proof.
  unfold login_steps.
  destruct (String.eqb email "" || String.eqb password ""); [apply raw_events_refl|].
  unfold bind at 1.
  pose proof (obtain_csrf_events s) as H0.
  destruct (obtain_csrf s) as [[[store csrf]|e] s1]; cbn in *;
    [|apply (raw_events_le 2); [lia | exact H0]].
  unfold bind at 1.
  pose proof (check_active_user_events email store csrf s1) as H1.
  destruct (check_active_user email store csrf s1) as [[store1|e] s2]; cbn in *;
    [|apply (raw_events_le (2 + 1)); [lia | exact (raw_events_trans _ _ _ _ _ H0 H1)]].
  unfold bind at 1.
  pose proof (login_authentication_events email password store1 csrf s2) as H2.
  pose proof (raw_events_trans _ _ _ _ _ (raw_events_trans _ _ _ _ _ H0 H1) H2) as H3.
  destruct (login_authentication email password store1 csrf s2) as [[store2|e] s3];
    cbn in *; exact H3.
Qed.

Lemma get_or_null_truthy (name : string) (store : CookieStore) :
  truthy (get_or_null name store) = true ->
  exists v, v <> "" /\ get_or_null name store = JStr v.
Proof.
  unfold get_or_null, js_or.
  destruct (get name store) as [v|]; cbn; [|discriminate].
  destruct (String.eqb v "") eqn:E; cbn; [discriminate|].
  intros _. exists v. split; [apply String.eqb_neq; exact E | reflexivity].
Qed.

(** X15.  A login sends at most four requests and touches no file.  When it
    fails, for whatever reason, the active cookie is what it was; with an
    empty e-mail or password it fails before any request.  When it returns,
    the result is [true] and the active cookie is a [csrftoken=...;
    sessionid=...] pair with a non-empty session identifier. *)
Theorem login_is_all_or_nothing (email password : string) (s : State) :
  let run := loginWithCredentialsInline email password s in
  files (snd run) = files s
  /\ (exists evs, trace (snd run) = trace s ++ evs /\ Forall is_raw evs
                  /\ (length evs <= 4)%nat)
  /\ (forall e, fst run = Throw e -> ACTIVE_COOKIE (snd run) = ACTIVE_COOKIE s)
  /\ (email = "" \/ password = "" -> run = (Throw ErrCredentialsRequired, s))
  /\ (forall b, fst run = Ret b ->
        b = true
        /\ exists tok sid,
             sid <> ""
             /\ ACTIVE_COOKIE (snd run)
                = JStr ("csrftoken=" +:+ tok +:+ "; sessionid=" +:+ sid)).
Proof.
  cbn zeta. unfold loginWithCredentialsInline, bind.
  pose proof (login_steps_events email password s) as (Ha & Hf & Hev).
  assert (Hcred : email = "" \/ password = "" ->
                  login_steps email password s = (Throw ErrCredentialsRequired, s)).
  { unfold login_steps. intros [-> | ->]; [reflexivity|].
    rewrite orb_true_r. reflexivity. }
  destruct (login_steps email password s) as [[[store csrf]|e] s3]; cbn [fst snd] in *.
  - unfold compose_cookie. munfold.
    destruct (truthy (get_or_null "sessionid" store)) eqn:Et; cbn.
    + destruct (get_or_null_truthy _ _ Et) as (sid & Hsid & ->).
      split; [assumption|]. split; [assumption|]. split; [discriminate|].
      split; [intros Hc; apply Hcred in Hc; discriminate|].
      intros b [= <-]. split; [reflexivity|].
      eexists _, sid. split; [exact Hsid | reflexivity].
    + split; [assumption|]. split; [assumption|]. split; [intros; assumption|].
      split; [intros Hc; apply Hcred in Hc; discriminate | discriminate].
  - split; [assumption|]. split; [assumption|]. split; [intros; assumption|].
    split; [|discriminate].
    intros Hc. apply Hcred in Hc. injection Hc as -> ->. reflexivity.
Qed.

End Login.

Lemma login_is_all_or_nothing_witness :
  fst (@loginWithCredentialsInline stored_runtime "A@b.c" "pw" rejecting_site)
  = Throw (ErrLoginFailed (JStr "wrong-password"))
  /\ ACTIVE_COOKIE (snd (@loginWithCredentialsInline stored_runtime "A@b.c" "pw"
                           rejecting_site)) = JNull
  /\ @loginWithCredentialsInline stored_runtime "A@b.c" "" rejecting_site
     = (Throw ErrCredentialsRequired, rejecting_site).
Proof.
  destruct (@login_is_all_or_nothing stored_runtime "A@b.c" "pw" rejecting_site)
    as (_ & _ & Hthrow & _).
  destruct (@login_is_all_or_nothing stored_runtime "A@b.c" "" rejecting_site)
    as (_ & _ & _ & Hcred & _).
  split; [reflexivity|]. split; [exact (Hthrow _ eq_refl)|].
  apply Hcred. right. reflexivity.
Defined.

(** ** Where the CSRF token comes from *)

Section Csrf.
Context `{Runtime}.

(** X16.  The token is the [csrftoken] cookie of the login page when that
    page sets one, and then no second request is sent.  Otherwise the
    core-data endpoint is asked: a token in its body is taken first, then a
    [csrftoken] cookie it sets; when neither is there the login fails with
    the CSRF error after exactly these two requests. *)
Theorem csrf_token_sources (s : State) (r : RawResponse) :
  raw s (length (trace s)) login_page_request = Some r ->
  let store := applySetCookie (set_cookie r) [] in
  let s1 := log (EvRaw login_page_request) s in
  let s2 := log (EvRaw core_data_request) s1 in
  (forall t, get "csrftoken" store = Some t -> t <> "" ->
     obtain_csrf s = (Ret (store, JStr t), s1))
  /\ ((get "csrftoken" store = None \/ get "csrftoken" store = Some "") ->
      forall r2, raw s (length (trace s1)) core_data_request = Some r2 ->
        let store2 := applySetCookie (set_cookie r2) store in
        (forall j tok,
           JSON_parse (raw_body r2) = Some j ->
           js_get (js_get j "auth") "csrf" = JStr tok -> tok <> "" ->
           obtain_csrf s = (Ret (store2, JStr tok), s2))
        /\ ((JSON_parse (raw_body r2) = None
             \/ exists j, JSON_parse (raw_body r2) = Some j
                          /\ truthy (js_get (js_get j "auth") "csrf") = false) ->
            (forall t, get "csrftoken" store2 = Some t -> t <> "" ->
               obtain_csrf s = (Ret (store2, JStr t), s2))
            /\ ((get "csrftoken" store2 = None \/ get "csrftoken" store2 = Some "") ->
                obtain_csrf s = (Throw ErrCsrfUnavailable, s2)
                /\ kind_of ErrCsrfUnavailable = Some csrf_unavailable))).
Proof.
  intros Hr store s1 s2.
  unfold obtain_csrf, rawRequest. munfold. rewrite Hr. cbn. fold store s1.
  split.
  - intros t Ht Hne. unfold get_or_null, js_or. rewrite Ht. cbn.
    repeat (rewrite (eqb_empty_false _ Hne); cbn). reflexivity.
  - intros Hnone r2 Hr2.
    assert (Hfalsy : get_or_null "csrftoken" store = JNull).
    { unfold get_or_null, js_or. destruct Hnone as [-> | ->]; reflexivity. }
    rewrite Hfalsy. cbn.
    rewrite Hr2. cbn. fold s2. split.
    + intros j tok -> Htok Hne. rewrite Htok. unfold js_or. cbn.
      repeat (rewrite (eqb_empty_false _ Hne); cbn). reflexivity.
    + intros Hbody.
      assert (Hf : match JSON_parse (raw_body r2) with
                   | Some j2 => js_or (js_get (js_get j2 "auth") "csrf") JNull
                   | None => JNull
                   end = JNull).
      { destruct Hbody as [-> | (j & -> & Hf)]; [reflexivity|].
        unfold js_or. rewrite Hf. reflexivity. }
      rewrite Hf. cbn. split.
      * intros t Ht Hne. unfold get_or_null, js_or. rewrite Ht. cbn.
        repeat (rewrite (eqb_empty_false _ Hne); cbn). reflexivity.
      * intros Hnone2. split; [|reflexivity].
        unfold get_or_null, js_or. destruct Hnone2 as [-> | ->]; reflexivity.
Qed.

End Csrf.

Lemma csrf_token_sources_witness :
  @obtain_csrf stored_runtime site_with_body_token
  = (Ret ([("lang", "fa")], JStr "tok2"),
     log (EvRaw core_data_request) (log (EvRaw login_page_request) site_with_body_token))
  /\ @obtain_csrf stored_runtime site_without_csrf
     = (Throw ErrCsrfUnavailable,
        log (EvRaw core_data_request) (log (EvRaw login_page_request) site_without_csrf)).
Proof.
  split.
  - destruct (@csrf_token_sources stored_runtime site_with_body_token
                (mkRawResponse 200 ["lang=fa"] "") eq_refl) as (_ & Hfallback).
    destruct (Hfallback (or_introl eq_refl) (mkRawResponse 200 [] "token") eq_refl)
      as (Hbody & _).
    exact (Hbody (JObj [("auth", JObj [("csrf", JStr "tok2")])]) "tok2" eq_refl eq_refl
             ltac:(discriminate)).
  - destruct (@csrf_token_sources stored_runtime site_without_csrf
                (mkRawResponse 200 ["lang=fa"] "") eq_refl) as (_ & Hfallback).
    destruct (Hfallback (or_introl eq_refl) (mkRawResponse 200 ["lang=fa"] "") eq_refl)
      as (_ & Hnobody).
    destruct (Hnobody (or_introl eq_refl)) as (_ & Hnone).
    destruct (Hnone (or_introl eq_refl)) as (Hrun & _).
    exact Hrun.
Defined.

(** ** Verification and the search for a session *)

Section Prepare.
Context `{Runtime}.

(** What [verify] does, case by case. *)
Lemma verify_run (COOKIE : string) (a : Args) (s : State) :
  verify COOKIE a s
  = if truthy (ACTIVE_COOKIE s) then
      let ck := cookie_header COOKIE (ACTIVE_COOKIE s) in
      (Ret match core_data s (length (trace s)) ck (verify_referer a) with
           | Some core => if is_authenticated core then core else JNull
           | None => JNull
           end,
       log (EvCoreData ck (verify_referer a)) s)
    else (Ret JNull, s).
Proof.
  unfold verify, fetchCoreData, verify_referer. munfold.
  destruct (truthy (ACTIVE_COOKIE s)); cbn; [|reflexivity].
  destruct (core_data s _ _ _) as [core|]; cbn; [|reflexivity].
  destruct (is_authenticated core); reflexivity.
Qed.

(** X17.  [verify] never throws and changes neither the active cookie nor
    any file.  Without an active cookie it sends nothing and answers null;
    otherwise it sends one core-data request.  What it answers is null or a
    profile that says [is_authenticated]: a failed request, an unparsable
    answer and an anonymous profile all give null. *)
Theorem verify_is_soft (COOKIE : string) (a : Args) (s : State) :
  exists v s',
    verify COOKIE a s = (Ret v, s')
    /\ (v = JNull \/ is_authenticated v = true)
    /\ ACTIVE_COOKIE s' = ACTIVE_COOKIE s
    /\ files s' = files s
    /\ (truthy (ACTIVE_COOKIE s) = false -> v = JNull /\ s' = s)
    /\ (truthy (ACTIVE_COOKIE s) = true ->
        trace s' = trace s ++ [EvCoreData (cookie_header COOKIE (ACTIVE_COOKIE s))
                                  (verify_referer a)]).
Proof.
  rewrite verify_run.
  destruct (truthy (ACTIVE_COOKIE s)) eqn:Ea; cbn zeta.
  - eexists _, _. split; [reflexivity|].
    split; [|repeat split; discriminate].
    destruct (core_data s _ _ _) as [core|]; [|left; reflexivity].
    destruct (is_authenticated core) eqn:Eo; [right; exact Eo | left; reflexivity].
  - eexists _, _. split; [reflexivity|]. repeat split; try discriminate. left. reflexivity.
Qed.

(** A verification that answers a profile vouches for the active cookie. *)
Lemma verify_verified (COOKIE : string) (a : Args) (s s' : State) (v : JValue) :
  verify COOKIE a s = (Ret v, s') -> truthy v = true ->
  verified (Some v) s' /\ ACTIVE_COOKIE s' = ACTIVE_COOKIE s.
Proof.
  rewrite verify_run.
  destruct (truthy (ACTIVE_COOKIE s)) eqn:Ea; cbn zeta.
  - intros [= <- <-] Hv. cbn. split; [|reflexivity]. split; [|exact Ea].
    destruct (core_data s _ _ _) as [core|]; [|discriminate].
    destruct (is_authenticated core) eqn:Eo; [exact Eo | discriminate].
  - intros [= <- <-]. discriminate.
Qed.

Lemma verify_returns (COOKIE : string) (a : Args) (s : State) :
  exists v s', verify COOKIE a s = (Ret v, s').
Proof.
  rewrite verify_run. destruct (truthy (ACTIVE_COOKIE s)); cbn zeta; eauto.
Qed.


(** After [verify], a step answers the profile when it is truthy. *)
Lemma verify_then (COOKIE : string) (a : Args) (s : State) (fallback : SM (option JValue)) :
  (forall s', exists s'', fallback s' = (Ret None, s'')) ->
  exists r s',
    (do core <- verify COOKIE a; if truthy core then ret (Some core) else fallback) s
    = (Ret r, s')
    /\ verified r s'.
Proof.
  intros Hfb. unfold bind.
  destruct (verify_returns COOKIE a s) as (v & s1 & Hv). rewrite Hv.
  destruct (truthy v) eqn:Ev.
  - exists (Some v), s1. split; [reflexivity|].
    apply (verify_verified _ _ _ _ _ Hv Ev).
  - destruct (Hfb s1) as (s2 & ->). exists None, s2. split; [reflexivity | exact I].
Qed.

Lemma ret_None_returns (s' : State) :
  exists s'', (ret None : SM (option JValue)) s' = (Ret None, s'').
Proof. eexists. reflexivity. Qed.




Lemma try_fresh_login_verified (COOKIE : string) (a : Args) (d : JValue) (s : State) :
  exists r s', try_fresh_login COOKIE a d s = (Ret r, s') /\ verified r s'.
Proof.
  unfold try_fresh_login. unfold bind at 1, gets.
  destruct (_ && _ && _); [|exists None, s; split; [reflexivity | exact I]].
  unfold catch, bind at 1.
  destruct (loginWithCredentialsInline (userEmail a) (userPassword a) s) as [[b|e] s1];
    [|exists None, s1; split; [reflexivity | exact I]].
  unfold bind at 1. cbn beta iota. unfold bind at 1.
  match goal with
  | |- context [?m s1] =>
      match m with
      | (if _ then _ else _) => destruct (m s1) as [[[]|e] s2]
      end
  end; [|exists None, s2; split; [reflexivity | exact I]].
  destruct (verify_then COOKIE a s2 (ret None) ret_None_returns) as (r & s3 & Hrun & Hok).
  rewrite Hrun. exists r, s3. split; [reflexivity | exact Hok].
Qed.



End Prepare.


(** ** Stored sessions *)

Section Stored.
Context `{Runtime}.

Lemma truthy_get (v : JValue) (k : string) :
  truthy (js_get v k) = true -> truthy v = true.
Proof. destruct v; cbn; intros; try discriminate; reflexivity. Qed.

(** Reading a file that holds a record with a [users] entry. *)
Lemma readSessionFile_run (file txt : string) (data : JValue) (s : State) :
  refused s (OpRead file) = false -> files s !! file = Some txt ->
  JSON_parse txt = Some data -> truthy (js_get data "users") = true ->
  readSessionFile file s = (Ret data, log (EvReadFile file) s).
Proof.
  intros Hr Hf Hp Hu.
  unfold readSessionFile, readSessionFile_try, readFile. munfold.
  rewrite Hr, Hf. cbn. rewrite Hp. cbn. rewrite Hu, (truthy_get _ _ Hu). reflexivity.
Qed.

(** The start of [prepareSession] when there is no override and the session
    file holds a record: the record is read and nothing else has happened. *)
Lemma prepareSession_reads (COOKIE : string) (a : Args) (s : State) (txt : string)
    (data : JValue) :
  override_present COOKIE = false ->
  sessionFile a <> "" ->
  refused s (OpRead (sessionFile a)) = false ->
  files s !! sessionFile a = Some txt ->
  JSON_parse txt = Some data ->
  truthy (js_get data "users") = true ->
  prepareSession COOKIE a s
  = (do r2 <- try_stored_user COOKIE a data;
     match r2 with
     | Some core => ret (mkPrepared core SrcStoredUser)
     | None =>
         do r3 <- try_last_used COOKIE a data;
         match r3 with
         | Some core => ret (mkPrepared core SrcStoredLast)
         | None =>
             do r4 <- try_fresh_login COOKIE a data;
             match r4 with
             | Some core => ret (mkPrepared core SrcFreshLogin)
             | None => ret (mkPrepared JNull SrcNone)
             end
         end
     end) (log (EvReadFile (sessionFile a)) s).
Proof.
  intros Hover Hfile Hr Hf Hp Hu.
  unfold prepareSession, try_override. rewrite Hover.
  unfold bind at 1, ret at 1. cbn beta iota.
  rewrite (eqb_empty_false _ Hfile).
  unfold bind at 1. rewrite (readSessionFile_run _ _ _ _ Hr Hf Hp Hu). reflexivity.
Qed.

(** Step 2a when the record has a cookie for the user. *)
Lemma try_stored_user_run (COOKIE : string) (a : Args) (data ck : JValue) (s : State) :
  truthy (js_get data "users") = true ->
  desiredUserKey a <> "" -> forceLogin a = false ->
  js_get (js_get (js_get data "users") (desiredUserKey a)) "cookie" = ck ->
  truthy ck = true ->
  let s1 := set_ACTIVE_COOKIE ck s in
  let s2 := log (EvCoreData (cookie_header COOKIE ck) (verify_referer a)) s1 in
  try_stored_user COOKIE a data s
  = match core_data s (length (trace s)) (cookie_header COOKIE ck) (verify_referer a) with
    | Some core =>
        if is_authenticated core then (Ret (Some core), s2)
        else (Ret None, set_ACTIVE_COOKIE JNull s2)
    | None => (Ret None, set_ACTIVE_COOKIE JNull s2)
    end.
Proof.
  intros Hu Hkey Hforce Hck Htruthy s1 s2.
  unfold try_stored_user.
  rewrite (truthy_get _ _ Hu), (eqb_empty_false _ Hkey), Hforce. cbn [andb negb].
  rewrite Hck, Htruthy.
  assert (Hentry : truthy (js_get (js_get data "users") (desiredUserKey a)) = true).
  { apply (truthy_get _ "cookie"). rewrite Hck. exact Htruthy. }
  rewrite Hentry. cbn [andb].
  unfold bind at 1, modify. unfold bind at 1. rewrite verify_run.
  change (ACTIVE_COOKIE (set_ACTIVE_COOKIE ck s)) with ck. rewrite Htruthy. cbn zeta.
  change (core_data (set_ACTIVE_COOKIE ck s)) with (core_data s).
  change (trace (set_ACTIVE_COOKIE ck s)) with (trace s).
  fold s1. fold s2.
  destruct (core_data s _ _ _) as [core|]; [|reflexivity].
  destruct (is_authenticated core) eqn:Eo; [|reflexivity].
  rewrite (is_authenticated_truthy _ Eo). reflexivity.
Qed.

Lemma desiredUserKey_named (a : Args) :
  userEmail a <> "" ->
  desiredUserKey a = toLowerCase (trim (userEmail a)).
Proof.
  intros Hemail. unfold desiredUserKey. rewrite (eqb_empty_false _ Hemail). reflexivity.
Qed.




(** The events of a run are only ever added to. *)
Lemma verify_extends (COOKIE : string) (a : Args) (s : State) :
  exists evs, trace (snd (verify COOKIE a s)) = trace s ++ evs.
Proof.
  rewrite verify_run. destruct (truthy (ACTIVE_COOKIE s)); cbn zeta.
  - eexists. reflexivity.
  - exists []. rewrite app_nil_r. reflexivity.
Qed.

Lemma writeSessionFileMulti_extends (file email : string) (cookie existing : JValue)
    (s : State) :
  exists evs, trace (snd (writeSessionFileMulti file email cookie existing s))
              = trace s ++ evs.
Proof.
  unfold writeSessionFileMulti, now, writeFile. munfold.
  destruct (js_set _ _ _) as [users'| |]; try (exists []; rewrite app_nil_r; reflexivity).
  destruct (refused s (OpWrite file)); eexists; reflexivity.
Qed.

Lemma obtain_csrf_first (s : State) :
  exists evs, trace (snd (obtain_csrf s)) = trace s ++ EvRaw login_page_request :: evs.
Proof.
  unfold obtain_csrf, rawRequest. munfold.
  destruct (raw s (length (trace s)) login_page_request) as [r|]; cbn;
    [|eexists; reflexivity].
  destruct (truthy (get_or_null "csrftoken" (applySetCookie (set_cookie r) []))) eqn:E;
    cbn.
  - rewrite E. cbn. destruct (has_slice _); eexists; reflexivity.
  - assert (Htwo : exists evs,
               trace s ++ [EvRaw login_page_request] ++ [EvRaw core_data_request]
               = trace s ++ EvRaw login_page_request :: evs) by (eexists; reflexivity).
    destruct (raw s _ core_data_request) as [r2|]; cbn; rewrite <- ?app_assoc;
      [|exact Htwo].
    destruct (negb (truthy _)); cbn; rewrite <- ?app_assoc; [exact Htwo|].
    destruct (negb (has_slice _)); cbn; rewrite <- ?app_assoc; exact Htwo.
Qed.

Lemma login_starts (email password : string) (s : State) :
  email <> "" -> password <> "" ->
  exists evs, trace (snd (loginWithCredentialsInline email password s))
              = trace s ++ EvRaw login_page_request :: evs.
Proof.
  intros He Hp. unfold loginWithCredentialsInline, login_steps.
  rewrite (eqb_empty_false _ He), (eqb_empty_false _ Hp). cbn [orb].
  unfold bind at 1. unfold bind at 1.
  destruct (obtain_csrf_first s) as (evs0 & H0).
  destruct (obtain_csrf s) as [[[store csrf]|e] s1]; cbn [snd] in *;
    [|exists evs0; exact H0].
  unfold bind at 1.
  destruct (check_active_user_events email store csrf s1) as (_ & _ & evs1 & H1 & _).
  destruct (check_active_user email store csrf s1) as [[store1|e] s2]; cbn [snd] in *;
    [|exists (evs0 ++ evs1); rewrite H1, H0, <- app_assoc; reflexivity].
  unfold bind at 1.
  destruct (login_authentication_events email password store1 csrf s2)
    as (_ & _ & evs2 & H2 & _).
  assert (H3 : forall s3, trace s3 = trace s2 ++ evs2 ->
               trace s3 = trace s ++ EvRaw login_page_request :: (evs0 ++ evs1 ++ evs2)).
  { intros s3 ->. rewrite H1, H0, <- !app_assoc. reflexivity. }
  destruct (login_authentication email password store1 csrf s2) as [[store2|e] s3];
    cbn [fst snd] in *; [|eexists; apply H3, H2].
  unfold ret. cbn beta iota. cbn [fst snd]. rewrite compose_cookie_trace. eexists. apply H3, H2.
Qed.

(** Step 3 when its guard passes: the first thing it does is to ask for
    the login page. *)
Lemma try_fresh_login_starts (COOKIE : string) (a : Args) (d : JValue) (s : State) :
  userEmail a <> "" -> toLowerCase (trim (userEmail a)) <> "" -> userPassword a <> "" ->
  (truthy (ACTIVE_COOKIE s) = false \/ forceLogin a = true) ->
  exists evs, trace (snd (try_fresh_login COOKIE a d s))
              = trace s ++ EvRaw login_page_request :: evs.
Proof.
  intros Hemail Hkey Hpw Hguard.
  unfold try_fresh_login. unfold bind at 1, gets.
  rewrite (desiredUserKey_named a Hemail), (eqb_empty_false _ Hkey), (eqb_empty_false _ Hpw).
  replace (negb (truthy (ACTIVE_COOKIE s)) || forceLogin a) with true
    by (destruct Hguard as [-> | ->]; [reflexivity | apply eq_sym, orb_true_r]).
  cbn [negb andb].
  unfold catch, bind at 1.
  destruct (login_starts (userEmail a) (userPassword a) s Hemail Hpw) as (evs0 & H0).
  destruct (loginWithCredentialsInline (userEmail a) (userPassword a) s) as [[b|e] s1];
    cbn [snd] in *; [|exists evs0; exact H0].
  unfold bind at 1. cbn beta iota. unfold bind at 1.
  match goal with
  | |- context [?m s1] =>
      match m with
      | (if ?c then _ else _) =>
          assert (Hw : exists evs, trace (snd (m s1)) = trace s1 ++ evs)
            by (destruct c;
                [apply writeSessionFileMulti_extends
                | exists []; rewrite app_nil_r; reflexivity]);
          destruct Hw as (evs1 & H1);
          destruct (m s1) as [[[]|e] s2]
      end
  end; cbn [snd] in *;
    [|exists (evs0 ++ evs1); unfold ret; cbn [snd]; rewrite H1, H0, <- app_assoc;
      reflexivity].
  unfold bind at 1.
  destruct (verify_extends COOKIE a s2) as (evs2 & H2).
  destruct (verify COOKIE a s2) as [[v|e] s3]; cbn [snd] in *.
  - exists (evs0 ++ evs1 ++ evs2).
    destruct (truthy v); unfold ret; cbn [snd]; rewrite H2, H1, H0, <- !app_assoc;
      reflexivity.
  - exists (evs0 ++ evs1 ++ evs2). unfold ret. cbn [snd].
    rewrite H2, H1, H0, <- !app_assoc. reflexivity.
Qed.

(** X21.  A stored cookie of the named user that fails verification is
    cleared, so it does not stand in the way of a login: when a password is
    given, the run goes on to ask for the login page right after the failed
    verification. *)
Theorem stale_stored_session_cleared (COOKIE : string) (a : Args) (s : State)
    (txt : string) (data ck : JValue) :
  override_present COOKIE = false ->
  sessionFile a <> "" ->
  refused s (OpRead (sessionFile a)) = false ->
  files s !! sessionFile a = Some txt ->
  JSON_parse txt = Some data ->
  truthy (js_get data "users") = true ->
  userEmail a <> "" -> toLowerCase (trim (userEmail a)) <> "" -> userPassword a <> "" ->
  forceLogin a = false ->
  js_get (js_get (js_get data "users") (toLowerCase (trim (userEmail a)))) "cookie" = ck ->
  truthy ck = true ->
  let answer := core_data s (length (trace s ++ [EvReadFile (sessionFile a)]))
                  (cookie_header COOKIE ck) (verify_referer a) in
  (answer = None \/ exists profile, answer = Some profile /\ is_authenticated profile = false) ->
  let s3 := set_ACTIVE_COOKIE JNull
              (log (EvCoreData (cookie_header COOKIE ck) (verify_referer a))
                 (set_ACTIVE_COOKIE ck (log (EvReadFile (sessionFile a)) s))) in
  (exists r4 s',
     try_fresh_login COOKIE a data s3 = (Ret r4, s')
     /\ prepareSession COOKIE a s
        = (Ret match r4 with
               | Some core => mkPrepared core SrcFreshLogin
               | None => mkPrepared JNull SrcNone
               end, s'))
  /\ exists evs,
       trace (snd (prepareSession COOKIE a s))
       = trace s ++ [EvReadFile (sessionFile a);
                     EvCoreData (cookie_header COOKIE ck) (verify_referer a);
                     EvRaw login_page_request] ++ evs.
Proof.
  intros Hover Hfile Hr Hf Hp Hu Hemail Hkey Hpw Hforce Hck Htruthy answer Hfail s3.
  pose proof (desiredUserKey_named a Hemail) as Hd.
  destruct (try_fresh_login_verified COOKIE a data s3) as (r4 & s' & Hrun4 & _).
  assert (Hrun : prepareSession COOKIE a s
                 = (Ret match r4 with
                        | Some core => mkPrepared core SrcFreshLogin
                        | None => mkPrepared JNull SrcNone
                        end, s')).
  { rewrite (prepareSession_reads _ _ _ _ _ Hover Hfile Hr Hf Hp Hu).
    unfold bind at 1.
    rewrite (try_stored_user_run COOKIE a data ck); try assumption;
      [|rewrite Hd; assumption..].
    change (trace (log (EvReadFile (sessionFile a)) s))
      with (trace s ++ [EvReadFile (sessionFile a)]).
    change (core_data (log (EvReadFile (sessionFile a)) s)) with (core_data s).
    assert (Hskip : forall s0, try_last_used COOKIE a data s0 = (Ret None, s0)).
    { intros s0. unfold try_last_used.
      rewrite Hd, (eqb_empty_false _ Hkey), andb_false_r. reflexivity. }
    destruct Hfail as [Ha | (profile & Ha & Hauth)]; unfold answer in Ha;
      rewrite Ha, ?Hauth; fold s3; unfold bind at 1; rewrite Hskip; unfold bind at 1;
      rewrite Hrun4; destruct r4; reflexivity. }
  split; [exists r4, s'; split; [exact Hrun4 | exact Hrun]|].
  destruct (try_fresh_login_starts COOKIE a data s3 Hemail Hkey Hpw (or_introl eq_refl))
    as (evs & Htr).
  rewrite Hrun4 in Htr. rewrite Hrun. cbn [snd] in *.
  exists evs. rewrite Htr. cbn. rewrite <- !app_assoc. reflexivity.
Qed.

End Stored.



Lemma stale_stored_session_cleared_witness :
  fst (@prepareSession stored_runtime PLACEHOLDER credentials
         (site {[ "session.json" := "stale" ]}))
  = Ret (mkPrepared authenticated SrcFreshLogin)
  /\ exists evs,
       trace (snd (@prepareSession stored_runtime PLACEHOLDER credentials
                     (site {[ "session.json" := "stale" ]})))
       = [EvReadFile "session.json"; EvCoreData (Some (JStr "sessionid=old")) ORIGIN;
          EvRaw login_page_request] ++ evs.
Proof.
  destruct (@stale_stored_session_cleared stored_runtime PLACEHOLDER credentials
              (site {[ "session.json" := "stale" ]}) "stale" stale_record
              (JStr "sessionid=old"))
    as ((r4 & s' & Hlogin & Hrun) & Htrace);
    [reflexivity | discriminate | reflexivity | reflexivity | reflexivity | reflexivity
    | discriminate | discriminate | discriminate | reflexivity | reflexivity | reflexivity
    | right; exists anonymous; split; reflexivity |].
  split; [|exact Htrace].
  rewrite Hrun. injection Hlogin as <- _. reflexivity.
Defined.

(** ** Writing the session file *)

Section Writing.
Context `{Runtime}.

Lemma has_own_false (k k' : string) (v' : JValue) (fields : list (string * JValue)) :
  has_own k ((k', v') :: fields) = false ->
  String.eqb k k' = false /\ has_own k fields = false.
Proof. unfold has_own. cbn. apply orb_false_elim. Qed.

Lemma assoc_get_insert_index (i : nat) (k : string) (v : JValue)
    (fields : list (string * JValue)) :
  has_own k fields = false -> assoc_get k (insert_index i k v fields) = v.
Proof.
  induction fields as [|[k' v'] rest IH]; intros Hown; cbn [insert_index].
  - cbn. rewrite String.eqb_refl. reflexivity.
  - destruct (has_own_false _ _ _ _ Hown) as [Hne Hrest].
    destruct (array_index k') as [j|]; [destruct (j <? i)%nat|];
      cbn [assoc_get fst snd]; rewrite ?String.eqb_refl, ?Hne; auto.
Qed.

Lemma assoc_get_insert_index_other (i : nat) (k k' : string) (v : JValue)
    (fields : list (string * JValue)) :
  k' <> k -> assoc_get k' (insert_index i k v fields) = assoc_get k' fields.
Proof.
  intros Hne. apply String.eqb_neq in Hne.
  induction fields as [|[k0 v0] rest IH]; cbn [insert_index].
  - cbn. rewrite Hne. reflexivity.
  - destruct (array_index k0) as [j|]; [destruct (j <? i)%nat|];
      cbn [assoc_get fst snd]; rewrite ?Hne; try reflexivity.
    destruct (String.eqb k' k0); [reflexivity | exact IH].
Qed.

Lemma assoc_get_obj_set (k : string) (v : JValue) (fields : list (string * JValue)) :
  assoc_get k (obj_set k v fields) = v.
Proof.
  unfold obj_set. destruct (has_own k fields) eqn:Hown; [apply assoc_get_set|].
  destruct (array_index k); [apply assoc_get_insert_index, Hown | apply assoc_get_set].
Qed.

Lemma assoc_get_obj_set_other (k k' : string) (v : JValue)
    (fields : list (string * JValue)) :
  k' <> k -> assoc_get k' (obj_set k v fields) = assoc_get k' fields.
Proof.
  intros Hne. unfold obj_set.
  destruct (if has_own k fields then None else array_index k);
    [apply assoc_get_insert_index_other | apply assoc_get_set_other]; exact Hne.
Qed.

(** X22.  Writing an entry into a record that is missing, or whose [users] is
    an object, under a key other than [__proto__]: the file receives the
    record with the cookie stored under the trimmed, lower-cased e-mail
    address ([default] when there is none), which also becomes [lastUsed];
    the entries of other users stay. *)
Theorem session_entry_written (file email : string) (cookie existing : JValue)
    (s : State) :
  let key := toLowerCase (trim (if String.eqb email "" then "default" else email)) in
  (existing = JNull
   \/ exists fields us, existing = JObj fields /\ assoc_get "users" fields = JObj us) ->
  key <> "__proto__" ->
  refused s (OpWrite file) = false ->
  exists data,
    writeSessionFileMulti file email cookie existing s
    = (Ret tt, set_files (<[file := JSON_stringify data]> (files s))
                 (log (EvWriteFile file (JSON_stringify data)) s))
    /\ js_get (js_get (js_get data "users") key) "cookie" = cookie
    /\ js_get data "lastUsed" = JStr key
    /\ (forall other, other <> key ->
          js_get (js_get data "users") other = js_get (js_get existing "users") other).
Proof.
  intros key Hex Hkey Hw.
  apply String.eqb_neq in Hkey.
  unfold writeSessionFileMulti, now, writeFile. munfold. fold key.
  assert (Hdone : forall fields us,
            assoc_get "users" fields = JObj us ->
            let data := js_put (js_put (JObj fields) "users"
                                  (JObj (obj_set key
                                           (JObj [("cookie", cookie);
                                                  ("updated",
                                                   JStr (clock s (length (trace s))))])
                                           us)))
                          "lastUsed" (JStr key) in
            js_get (js_get (js_get data "users") key) "cookie" = cookie
            /\ js_get data "lastUsed" = JStr key
            /\ (forall other, other <> key ->
                  js_get (js_get data "users") other = assoc_get other us)).
  { intros fields us Hus. cbn.
    rewrite assoc_get_set.
    rewrite !(assoc_get_set_other "lastUsed" "users") by discriminate.
    rewrite !assoc_get_set. cbn. rewrite assoc_get_obj_set. cbn.
    repeat split. intros other Hne. apply assoc_get_obj_set_other. exact Hne. }
  destruct Hex as [-> | (fields & us & -> & Hus)].
  - cbn [truthy andb js_get assoc_get String.eqb Ascii.eqb Bool.eqb js_set has_own existsb negb].
    rewrite Hkey. cbn [andb]. rewrite Hw.
    eexists. split; [reflexivity|].
    apply (Hdone [("users", JObj []); ("lastUsed", JStr key)] []). reflexivity.
  - cbn [truthy andb js_get]. rewrite Hus. cbn [truthy andb js_get].
    rewrite Hus. cbn [js_set]. rewrite Hkey. cbn [andb]. rewrite Hw.
    eexists. split; [reflexivity|].
    destruct (Hdone fields us Hus) as (Hc & Hl & Ho).
    split; [exact Hc|]. split; [exact Hl|]. exact Ho.
Qed.

(** X23.  [writeSessionFileMulti] fails in two ways only, both before
    anything is written: with a TypeError when the [users] entry of the
    record it was given is a truthy value that is neither an object nor an
    array, and with a RangeError when that entry is an array and the key is
    [length].  In every other case it returns, also when the disk refuses the
    write, and then the file system is unchanged.  No other file is ever
    touched. *)
Theorem writeSessionFileMulti_outcomes (file email : string) (cookie existing : JValue)
    (s : State) :
  let run := writeSessionFileMulti file email cookie existing s in
  let users := js_get existing "users" in
  let key := toLowerCase (trim (if String.eqb email "" then "default" else email)) in
  (truthy users = true /\ takes_properties users = false ->
   run = (Throw ErrTypeError, s))
  /\ ((exists l, users = JArr l) /\ key = "length" -> run = (Throw ErrRangeError, s))
  /\ (truthy users = false \/ (exists us, users = JObj us)
      \/ ((exists l, users = JArr l) /\ key <> "length") ->
      fst run = Ret tt)
  /\ (refused s (OpWrite file) = true -> files (snd run) = files s)
  /\ (forall p, p <> file -> files (snd run) !! p = files s !! p).
Proof.
  cbn zeta. unfold writeSessionFileMulti, now, writeFile. munfold.
  set (key := toLowerCase (trim (if String.eqb email "" then "default" else email))).
  assert (Hwrite : forall text,
             let run := (if refused s (OpWrite file)
                         then (@Ret Error unit tt, log (EvWriteFile file text) s)
                         else (Ret tt, set_files (<[file:=text]> (files s))
                                         (log (EvWriteFile file text) s)))
             in fst run = Ret tt
                /\ (refused s (OpWrite file) = true -> files (snd run) = files s)
                /\ (forall p, p <> file -> files (snd run) !! p = files s !! p)).
  { intros text. destruct (refused s (OpWrite file)); cbn; repeat split; try discriminate.
    intros p Hp. apply lookup_insert_ne. congruence. }
  destruct (truthy (js_get existing "users")) eqn:Eu.
  - rewrite (truthy_get _ _ Eu). cbn [andb].
    destruct (js_get existing "users") as [| |b|z|t|l|us] eqn:Eusers;
      cbn in Eu; try discriminate Eu; cbn [js_set takes_properties].
    1-3: (split; [reflexivity|]; split; [intros [[? [=]] _]|];
          split; [intros [[=] | [[? [=]] | [[? [=]] _]]]|]; split; intros; reflexivity).
    + (* an array *)
      destruct (String.eqb key "length") eqn:Ek.
      * apply String.eqb_eq in Ek.
        split; [intros [_ [=]]|]. split; [reflexivity|].
        split; [intros [[=] | [[? [=]] | [_ Hne]]]; contradiction|].
        split; intros; reflexivity.
      * apply String.eqb_neq in Ek.
        split; [intros [_ [=]]|]. split; [intros [_ Hlen]; contradiction|].
        destruct (array_index key); cbn;
          match goal with
          | |- context [EvWriteFile file ?text] =>
              destruct (Hwrite text) as (Hret & Hrefused & Hframe)
          end;
          destruct (refused s (OpWrite file)); cbn in *; auto.
    + (* an object *)
      split; [intros [_ [=]]|]. split; [intros [[? [=]] _]|].
      destruct (String.eqb key "__proto__" && negb (has_own "__proto__" us)); cbn;
        match goal with
        | |- context [EvWriteFile file ?text] =>
            destruct (Hwrite text) as (Hret & Hrefused & Hframe)
        end;
        destruct (refused s (OpWrite file)); cbn in *; auto.
  - rewrite andb_false_r. cbn [js_get assoc_get String.eqb js_set Ascii.eqb Bool.eqb].
    split; [intros [[=] _]|].
    assert (Hno : forall l, js_get existing "users" <> JArr l).
    { intros l Hl. rewrite Hl in Eu. discriminate. }
    split; [intros [[l Hl] _]; destruct (Hno l Hl)|].
    destruct (String.eqb key "__proto__" && negb (has_own "__proto__" [])); cbn;
      match goal with
      | |- context [EvWriteFile file ?text] =>
          destruct (Hwrite text) as (Hret & Hrefused & Hframe)
      end;
      destruct (refused s (OpWrite file)); cbn in *; auto.
Qed.

End Writing.

Lemma writeSessionFileMulti_outcomes_witness :
  @writeSessionFileMulti toy_runtime "session.json" "a@b.c" (JStr fresh_cookie)
    (JObj [("users", JNum 5)]) (site ∅)
  = (Throw ErrTypeError, site ∅)
  /\ @writeSessionFileMulti toy_runtime "session.json" "Length" (JStr fresh_cookie)
       (JObj [("users", JArr [])]) (site ∅)
     = (Throw ErrRangeError, site ∅)
  /\ fst (@writeSessionFileMulti toy_runtime "session.json" "a@b.c" (JStr fresh_cookie)
            JNull read_only_site) = Ret tt
  /\ files (snd (@writeSessionFileMulti toy_runtime "session.json" "a@b.c"
                   (JStr fresh_cookie) JNull read_only_site)) = files read_only_site.
Proof.
  destruct (@writeSessionFileMulti_outcomes toy_runtime "session.json" "a@b.c"
              (JStr fresh_cookie) (JObj [("users", JNum 5)]) (site ∅))
    as (Htype & _).
  destruct (@writeSessionFileMulti_outcomes toy_runtime "session.json" "Length"
              (JStr fresh_cookie) (JObj [("users", JArr [])]) (site ∅))
    as (_ & Hrange & _).
  destruct (@writeSessionFileMulti_outcomes toy_runtime "session.json" "a@b.c"
              (JStr fresh_cookie) JNull read_only_site)
    as (_ & _ & Hret & Hrefused & _).
  split; [apply Htype; split; reflexivity|].
  split; [apply Hrange; split; [exists []|]; reflexivity|].
  split; [apply Hret; left; reflexivity | apply Hrefused; reflexivity].
Defined.

Lemma session_entry_written_witness :
  exists data,
    @writeSessionFileMulti toy_runtime "session.json" " A@B.c " (JStr fresh_cookie) JNull
      (site ∅)
    = (Ret tt, set_files {[ "session.json" := "saved" ]}
                 (log (EvWriteFile "session.json" "saved") (site ∅)))
    /\ js_get (js_get (js_get data "users") "a@b.c") "cookie" = JStr fresh_cookie
    /\ js_get data "lastUsed" = JStr "a@b.c".
Proof.
  destruct (@session_entry_written toy_runtime "session.json" " A@B.c "
              (JStr fresh_cookie) JNull (site ∅))
    as (data & Hrun & Hcookie & Hlast & _);
    [left; reflexivity | discriminate | reflexivity |].
  exists data. split; [exact Hrun|]. split; [exact Hcookie | exact Hlast].
Defined.

End SessionExtras.

(** * Facts about the command line and the choice of a video source *)
Module CliExtras.
Import Cli.

(** ** pickBestSource *)

Lemma test_hq_digits_includes (u : string) :
  test_hq_digits u = true -> includes "/videos/hq" u = true.
Proof.
  induction u as [|a u IH].
  - cbn. discriminate.
  - cbn [test_hq_digits includes].
    intros [[Hp _]%andb_prop | Hrest]%orb_prop.
    + rewrite Hp. reflexivity.
    + rewrite (IH Hrest). apply orb_true_r.
Qed.

Lemma is_hq_includes (u : string) : is_hq u = includes "/videos/hq" u.
Proof.
  unfold is_hq. destruct (test_hq_digits u) eqn:E; [|reflexivity].
  rewrite (test_hq_digits_includes _ E). reflexivity.
Qed.

Lemma find_first {A : Type} (f : A -> bool) (pre : list A) (u : A) (post : list A) :
  f u = true -> (forall x, In x pre -> f x = false) ->
  List.find f (pre ++ u :: post) = Some u.
Proof.
  intros Hu. induction pre as [|x pre IH]; cbn; intros Hpre.
  - rewrite Hu. reflexivity.
  - rewrite (Hpre x) by (left; reflexivity). apply IH.
    intros y Hy. apply Hpre. right. exact Hy.
Qed.

Lemma find_nothing {A : Type} (f : A -> bool) (l : list A) :
  (forall x, In x l -> f x = false) -> List.find f l = None.
Proof.
  induction l as [|x l IH]; cbn; intros Hl; [reflexivity|].
  rewrite (Hl x) by (left; reflexivity). apply IH.
  intros y Hy. apply Hl. right. exact Hy.
Qed.

Lemma includes_nonempty (u : string) : includes "/videos/hq" u = true -> u <> "".
Proof. intros Hu ->. discriminate Hu. Qed.

(** X24.  [pickBestSource] answers null for an empty list only, and otherwise
    one of the given URLs: the first one that contains [/videos/hq] when
    there is one, else the first of the list.  The test for digits after
    [hq] changes nothing. *)
Theorem pickBestSource_prefers_hq (urls : list string) :
  (pickBestSource urls = None <-> urls = [])
  /\ (forall r, pickBestSource urls = Some r -> In r urls)
  /\ (forall pre u post,
        urls = pre ++ u :: post ->
        includes "/videos/hq" u = true ->
        (forall x, In x pre -> includes "/videos/hq" x = false) ->
        pickBestSource urls = Some u)
  /\ (forall first rest,
        urls = first :: rest ->
        (forall x, In x urls -> includes "/videos/hq" x = false) ->
        pickBestSource urls = Some first).
Proof.
  split; [|split; [|split]].
  - destruct urls as [|first rest]; [split; reflexivity|].
    unfold pickBestSource. split; [|discriminate].
    destruct (List.find is_hq (first :: rest)) as [hq|]; [|discriminate].
    destruct (String.eqb hq ""); discriminate.
  - intros r. destruct urls as [|first rest]; [discriminate|].
    unfold pickBestSource.
    destruct (List.find is_hq (first :: rest)) as [hq|] eqn:E.
    + destruct (String.eqb hq "").
      * intros [= <-]. left. reflexivity.
      * intros [= <-]. apply (List.find_some _ _ E).
    + intros [= <-]. left. reflexivity.
  - intros pre u post -> Hu Hpre.
    assert (Hfind : List.find is_hq (pre ++ u :: post) = Some u).
    { apply find_first; [rewrite is_hq_includes; exact Hu|].
      intros x Hx. rewrite is_hq_includes. apply Hpre, Hx. }
    unfold pickBestSource. rewrite Hfind.
    rewrite (proj2 (String.eqb_neq u "") (includes_nonempty u Hu)).
    destruct pre; reflexivity.
  - intros first rest -> Hnone.
    unfold pickBestSource. rewrite find_nothing; [reflexivity|].
    intros x Hx. rewrite is_hq_includes. apply Hnone, Hx.
Qed.

(** ** ensureTrailingSlash *)

Lemma endsWith_slash_append (u : string) : endsWith_slash (u +:+ "/") = true.
Proof.
  induction u as [|a u IH]; [reflexivity|].
  change (String a u +:+ "/") with (String a (u +:+ "/")).
  cbn [endsWith_slash]. destruct (u +:+ "/") eqn:E; [|exact IH].
  destruct u; discriminate E.
Qed.

(** X25.  A URL that ends with a slash is left alone and any other gets
    one, so the result always ends with a slash and normalising twice is the
    same as normalising once. *)
Theorem ensureTrailingSlash_idempotent (u : string) :
  endsWith_slash (ensureTrailingSlash u) = true
  /\ ensureTrailingSlash (ensureTrailingSlash u) = ensureTrailingSlash u
  /\ (endsWith_slash u = true -> ensureTrailingSlash u = u)
  /\ (endsWith_slash u = false -> ensureTrailingSlash u = u +:+ "/").
Proof.
  assert (Hends : endsWith_slash (ensureTrailingSlash u) = true).
  { unfold ensureTrailingSlash. destruct (endsWith_slash u) eqn:E;
      [exact E | apply endsWith_slash_append]. }
  split; [exact Hends|]. split.
  - unfold ensureTrailingSlash at 1. rewrite Hends. reflexivity.
  - unfold ensureTrailingSlash. split; intros ->; reflexivity.
Qed.

(** ** parseCLI *)

Section Parsing.
Variable parseInt : string -> option Z.

Lemma second_field_value (flag v : string) :
  Session.occurs "=" flag = false -> Session.occurs "=" v = false ->
  second_field (flag +:+ String "=" v) = v.
Proof.
  intros Hflag Hv. unfold second_field.
  rewrite (SessionExtras.cut_at_append _ _ _ Hflag).
  apply SessionExtras.before_absent, Hv.
Qed.

Lemma prefix_append (flag v : string) : String.prefix flag (flag +:+ v) = true.
Proof.
  induction flag as [|a flag IH]; [destruct v; reflexivity|].
  simpl. destruct (ascii_dec a a) as [_|Hne]; [exact IH | contradiction Hne; reflexivity].
Qed.

(** The tests of the loop on an argument [a] that starts with known text. *)
Ltac settle a :=
  repeat match goal with
         | |- context [String.eqb a ?lit] => change (String.eqb a lit) with false
         | |- context [String.prefix ?lit a] =>
             first [ change (String.prefix lit a) with false
                   | rewrite (prefix_append lit) ]
         end.

(** X26.  An option and its value can be given as two arguments or as one
    joined by [=]: for a value that is not empty and holds no [=], the two
    spellings of [--user], [--pass], [--session-file] and [--sample-bytes]
    are read alike, and [--email] and [--password] are read as [--user] and
    [--pass]. *)
Theorem parse_args_spellings (v : string) (rest : list string) (o : Options) :
  v <> "" -> Session.occurs "=" v = false ->
  parse_args parseInt ("--user" :: v :: rest) o
  = parse_args parseInt (("--user=" +:+ v) :: rest) o
  /\ parse_args parseInt ("--pass" :: v :: rest) o
     = parse_args parseInt (("--pass=" +:+ v) :: rest) o
  /\ parse_args parseInt ("--session-file" :: v :: rest) o
     = parse_args parseInt (("--session-file=" +:+ v) :: rest) o
  /\ parse_args parseInt ("--sample-bytes" :: v :: rest) o
     = parse_args parseInt (("--sample-bytes=" +:+ v) :: rest) o
  /\ parse_args parseInt ("--email" :: v :: rest) o
     = parse_args parseInt ("--user" :: v :: rest) o
  /\ parse_args parseInt ("--password" :: v :: rest) o
     = parse_args parseInt ("--pass" :: v :: rest) o.
Proof.
  intros Hv Heq. apply String.eqb_neq in Hv.
  pose proof (second_field_value "--user" v eq_refl Heq) as Huser.
  pose proof (second_field_value "--pass" v eq_refl Heq) as Hpass.
  pose proof (second_field_value "--session-file" v eq_refl Heq) as Hfile.
  pose proof (second_field_value "--sample-bytes" v eq_refl Heq) as Hsample.
  change ("--user" +:+ String "=" v) with ("--user=" +:+ v) in Huser.
  change ("--pass" +:+ String "=" v) with ("--pass=" +:+ v) in Hpass.
  change ("--session-file" +:+ String "=" v) with ("--session-file=" +:+ v) in Hfile.
  change ("--sample-bytes" +:+ String "=" v) with ("--sample-bytes=" +:+ v) in Hsample.
  repeat split.
  - cbn [parse_args]. settle ("--user=" +:+ v). rewrite Huser. cbn. rewrite Hv. reflexivity.
  - cbn [parse_args]. settle ("--pass=" +:+ v). rewrite Hpass. cbn. rewrite Hv. reflexivity.
  - cbn [parse_args]. settle ("--session-file=" +:+ v). rewrite Hfile. cbn. rewrite Hv.
    reflexivity.
  - cbn [parse_args]. settle ("--sample-bytes=" +:+ v). rewrite Hsample. cbn. rewrite Hv.
    reflexivity.
Qed.

Lemma no_url_set (o : Options) (u : string) :
  inputCourseUrl o = Some u -> u <> "" -> no_url o = false.
Proof.
  intros Hu Hne. unfold no_url. rewrite Hu. apply String.eqb_neq, Hne.
Qed.

(** Once a course URL is set, the loop never replaces it. *)
Lemma parse_args_keeps_url (n : nat) (u : string) :
  u <> "" ->
  forall args o o',
    (length args <= n)%nat ->
    inputCourseUrl o = Some u ->
    parse_args parseInt args o = Some o' ->
    inputCourseUrl o' = Some u.
Proof.
  intros Hne. induction n as [|n IH]; intros args o o' Hlen Hu.
  - destruct args; [|cbn in Hlen; lia]. cbn. intros [= <-]. exact Hu.
  - destruct args as [|a rest]; [cbn; intros [= <-]; exact Hu|].
    cbn [length] in Hlen. cbn [parse_args].
    rewrite (no_url_set o u Hu Hne).
    repeat match goal with
           | |- context [if ?c then _ else _] => destruct c
           | |- context [match rest with _ => _ end] =>
               destruct rest as [|v rest']; cbn [length] in Hlen
           end;
      try discriminate;
      apply IH; solve [cbn [length]; lia | exact Hu].
Qed.

Lemma plain_first (a : string) (rest : list string) (o : Options) :
  plain a = true -> no_url o = true ->
  parse_args parseInt (a :: rest) o = parse_args parseInt rest (set_inputCourseUrl (Some a) o).
Proof.
  intros Hplain Hno. destruct a as [|c a]; [discriminate|].
  cbn in Hplain. apply negb_true_iff in Hplain.
  cbn [parse_args]. rewrite Hno.
  assert (Hdec : forall (X : Type) (x y : X),
             match ascii_dec "-" c with left _ => x | right _ => y end = y).
  { intros X x y. destruct (ascii_dec "-" c) as [<-|_]; [|reflexivity].
    rewrite Ascii.eqb_refl in Hplain. discriminate. }
  cbn [String.eqb String.prefix]. rewrite Hplain, !Hdec. reflexivity.
Qed.

(** X27.  The course URL is the first argument that is not an option or an
    option's value: an argument that is not empty and does not start with a
    dash, met while no URL is set, becomes the course URL whatever follows
    it, and a URL that is set is never replaced by a later argument. *)
Theorem first_url_wins :
  (forall a rest o o',
     plain a = true -> no_url o = true ->
     parse_args parseInt (a :: rest) o = Some o' ->
     inputCourseUrl o' = Some a)
  /\ (forall args u o o',
        inputCourseUrl o = Some u -> u <> "" ->
        parse_args parseInt args o = Some o' ->
        inputCourseUrl o' = Some u).
Proof.
  split.
  - intros a rest o o' Hplain Hno. rewrite (plain_first a rest o Hplain Hno).
    apply (parse_args_keeps_url (length rest) a); [|lia|reflexivity].
    intros ->. discriminate.
  - intros args u o o' Hu Hne.
    apply (parse_args_keeps_url (length args) u Hne); [lia | exact Hu].
Qed.

End Parsing.

Lemma parse_args_spellings_witness :
  parse_args decimal ["--sample-bytes"; "65536"; "--verbose"] defaults
  = parse_args decimal ["--sample-bytes=65536"; "--verbose"] defaults
  /\ parse_args decimal ["--sample-bytes=65536"; "--verbose"] defaults
     = Some (mkOptions None 65536 true None None "session.json" false).
Proof.
  split; [|reflexivity].
  destruct (parse_args_spellings decimal "65536" ["--verbose"] defaults)
    as (_ & _ & _ & Hsample & _); [discriminate | reflexivity |].
  exact Hsample.
Defined.

Lemma first_url_wins_witness :
  exists o',
    parse_args decimal ["https://maktabkhooneh.org/course/a/"; "--user"; "u@x.y"; "other"]
      defaults = Some o'
    /\ inputCourseUrl o' = Some "https://maktabkhooneh.org/course/a/"
    /\ userEmail o' = Some "u@x.y".
Proof.
  eexists. split; [reflexivity|]. split; [|reflexivity].
  apply (proj1 (first_url_wins decimal) "https://maktabkhooneh.org/course/a/"
           ["--user"; "u@x.y"; "other"] defaults); reflexivity.
Defined.

End CliExtras.
